(** * Reports: filters, summaries, statement and CSV export of the billing reports

    A shallow embedding of [src/components/Reports.tsx]: the bill filter
    ([filteredBills]), the audit-log filter ([filteredAuditLogs]), the summary
    builders ([contractorSummary], [contractSummary], [monthlySummary],
    [stationSummary], [deductionsSummary], the tax ledger totals), the
    statement generator ([handleGenerateStatement]) and the CSV flattening of
    [handleExportCSV].

    Modelling choices.
    - JavaScript numbers that carry money, weights and rates are exact
      rationals ([Q]), each standing for the value of a double.  The program
      adds doubles, and that addition rounds: a property of an amount is
      therefore stated as a sum in the order in which the code adds, which
      reads the same on doubles, and never as a sum regrouped or reordered.
      What regrouping does on doubles is shown on the passes of [Double].
      Counters and numeric ids are integers ([Z]).
    - Strings are [string]s of bytes; comparison with [<=] and [>=] is the
      code-unit order ([String.leb]), [toLowerCase] acts on ASCII letters.
    - A JavaScript [Map] is an association list in insertion order, since
      [Array.from(map.values())] followed by the stable [sort] exposes that
      order.
    - [Array.prototype.sort] is stable; with a comparator it is modelled by
      a stable insertion sort. *)

From Stdlib Require Import List Bool ZArith QArith Qabs Lia String Ascii.
From Stdlib Require Import Permutation Sorted Floats.
From Stdlib Require DecimalPos.
Import ListNotations.

Local Open Scope Z_scope.

(** ** Numbers *)

Module Num.

(** [Array.prototype.reduce((s, x) => s + x, 0)]: the elements are added
    from the left, starting at 0. *)
Definition sum (l : list Q) : Q := fold_left Qplus l (0%Q).

End Num.

(** ** Arrays: the stable sort with a comparator *)

Section Sort.

Context {A : Type}.

(** [before a b] holds when the comparator's result on [(a, b)] is not
    positive (a [NaN] result counts as [+0]): [a] may stay in front of [b]. *)
Variable before : A -> A -> bool.

Fixpoint insert (x : A) (l : list A) : list A :=
  match l with
  | [] => [x]
  | y :: l' => if before x y then x :: l else y :: insert x l'
  end.

Definition sort (l : list A) : list A := fold_right insert [] l.

Definition sorted (l : list A) : Prop :=
  StronglySorted (fun a b => before a b = true) l.

End Sort.

(** ** Strings *)

Module Str.

Local Open Scope string_scope.

Definition lower (c : ascii) : ascii :=
  let n := nat_of_ascii c in
  if (Nat.leb 65 n && Nat.leb n 90)%bool then ascii_of_nat (n + 32) else c.

(** [String.prototype.toLowerCase], on ASCII letters *)
Fixpoint toLowerCase (s : string) : string :=
  match s with
  | EmptyString => EmptyString
  | String c s' => String (lower c) (toLowerCase s')
  end.

(** [String.prototype.includes] *)
Fixpoint includes (s sub : string) : bool :=
  prefix sub s ||
  match s with
  | EmptyString => false
  | String _ s' => includes s' sub
  end.

(** [!s] on a string: only the empty string is falsy *)
Definition isEmpty (s : string) : bool :=
  match s with EmptyString => true | _ => false end.

(** [a >= b] on strings *)
Definition geb (a b : string) : bool := String.leb b a.

End Str.

(** ** Dates: [new Date(s).getTime()] on the ISO forms the reports meet *)

Module JSDate.

Definition digit (c : ascii) : option Z :=
  let n := Z.of_nat (nat_of_ascii c) in
  if (48 <=? n) && (n <=? 57) then Some (n - 48) else None.

Fixpoint number_from (l : list ascii) (acc : Z) : option Z :=
  match l with
  | [] => Some acc
  | c :: l' =>
      match digit c with
      | Some d => number_from l' (10 * acc + d)
      | None => None
      end
  end.

(** The [len] characters from position [i], read as a decimal number. *)
Definition number_at (i len : nat) (s : string) : option Z :=
  let l := list_ascii_of_string (substring i len s) in
  if Nat.eqb (List.length l) len then number_from l 0 else None.

Definition char_is (i : nat) (c : ascii) (s : string) : bool :=
  match get i s with
  | Some c' => Ascii.eqb c c'
  | None => false
  end.

Definition InLeapYear (y : Z) : bool :=
  ((y mod 4 =? 0) && negb (y mod 100 =? 0)) || (y mod 400 =? 0).

Definition DayFromYear (y : Z) : Z :=
  365 * (y - 1970) + (y - 1969) / 4 - (y - 1901) / 100 + (y - 1601) / 400.

Definition DaysInMonth (y m : Z) : Z :=
  if m =? 2 then (if InLeapYear y then 29 else 28)
  else if (m =? 4) || (m =? 6) || (m =? 9) || (m =? 11) then 30
  else 31.

(** Day of the year on which month [m] (1 to 12) starts. *)
Definition MonthStart (y m : Z) : Z :=
  nth (Z.to_nat (m - 1)) [0; 31; 59; 90; 120; 151; 181; 212; 243; 273; 304; 334] 0
  + (if InLeapYear y && (2 <? m) then 1 else 0).

Definition MakeDay (y m d : Z) : Z := DayFromYear y + MonthStart y m + d - 1.

Definition msPerDay : Z := 86400000.

Definition MakeTime (h mi s ms : Z) : Z :=
  h * 3600000 + mi * 60000 + s * 1000 + ms.

(** [YYYY-MM-DD], a date of the calendar, as milliseconds at 00:00 UTC. *)
Definition parse_date (s : string) : option Z :=
  match number_at 0 4 s, number_at 5 2 s, number_at 8 2 s with
  | Some y, Some m, Some d =>
      if char_is 4 "-" s && char_is 7 "-" s
         && (1 <=? m) && (m <=? 12) && (1 <=? d) && (d <=? DaysInMonth y m)
      then Some (MakeDay y m d * msPerDay) else None
  | _, _, _ => None
  end.

(** The time of day of [...THH:mmZ], [...THH:mm:ssZ] or
    [...THH:mm:ss.sssZ], in milliseconds. *)
Definition parse_time (s : string) : option Z :=
  match number_at 11 2 s, number_at 14 2 s with
  | Some h, Some mi =>
      if char_is 10 "T" s && char_is 13 ":" s && (h <=? 23) && (mi <=? 59) then
        match String.length s with
        | 17%nat => if char_is 16 "Z" s then Some (MakeTime h mi 0 0) else None
        | 20%nat =>
            match number_at 17 2 s with
            | Some sec =>
                if char_is 16 ":" s && char_is 19 "Z" s && (sec <=? 59)
                then Some (MakeTime h mi sec 0) else None
            | None => None
            end
        | 24%nat =>
            match number_at 17 2 s, number_at 20 3 s with
            | Some sec, Some ms =>
                if char_is 16 ":" s && char_is 19 "." s && char_is 23 "Z" s
                   && (sec <=? 59)
                then Some (MakeTime h mi sec ms) else None
            | _, _ => None
            end
        | _ => None
        end
      else None
  | _, _ => None
  end.

(** [new Date(s).getTime()]: [None] stands for [NaN].  The model reads the
    date-only form [YYYY-MM-DD] and the UTC date-time forms
    [YYYY-MM-DDTHH:mmZ], [YYYY-MM-DDTHH:mm:ssZ] and
    [YYYY-MM-DDTHH:mm:ss.sssZ]; what an engine makes of any other string is
    left to the engine by the language and is [None] here. *)
Definition getTime (s : string) : option Z :=
  if Nat.eqb (String.length s) 10 then parse_date s
  else
    match parse_date (substring 0 10 s), parse_time s with
    | Some d, Some t => Some (d + t)
    | _, _ => None
    end.

(** [new Date(a) <= new Date(b)]: false as soon as one side is [NaN]. *)
Definition le (a b : string) : bool :=
  match getTime a, getTime b with
  | Some ta, Some tb => ta <=? tb
  | _, _ => false
  end.

End JSDate.

(** ** The records of [../types] as the reports use them *)

(** The numeric keys of [CalculatedDeductions], in the order of
    [DEDUCTION_KEYS]. *)
Inductive DeductionKey : Type :=
| penalty | income_tax | tajveed_ul_quran | education_cess
| klc | sd_current | gst_current | others.

Definition DEDUCTION_KEYS : list DeductionKey :=
  [penalty; income_tax; tajveed_ul_quran; education_cess;
   klc; sd_current; gst_current; others].

Module CalculatedDeductions.

(** A numeric field is [Some x] when the object holds a number under that
    key ([typeof d[key] === 'number']) and [None] when the key is absent.
    [others_description] is the one string field. *)
Record t : Type := mk {
  amount : DeductionKey -> option Q;
  others_description : option string
}.

(** The object [{}] *)
Definition empty : t := mk (fun _ => None) None.

Definition key_eqb (a b : DeductionKey) : bool :=
  match a, b with
  | penalty, penalty | income_tax, income_tax
  | tajveed_ul_quran, tajveed_ul_quran | education_cess, education_cess
  | klc, klc | sd_current, sd_current | gst_current, gst_current
  | others, others => true
  | _, _ => false
  end.

(** [d[key] = x] *)
Definition set (k : DeductionKey) (x : Q) (d : t) : t :=
  mk (fun k' => if key_eqb k' k then Some x else amount d k')
     (others_description d).

(** [Object.keys(d)] without ['others_description'] *)
Definition numeric_keys (d : t) : list DeductionKey :=
  filter (fun k => match amount d k with Some _ => true | None => false end)
         DEDUCTION_KEYS.

End CalculatedDeductions.

(** [x || 0] and [Number(x) || 0] on a value that is a number or undefined *)
Definition orZero (x : option Q) : Q :=
  match x with Some v => v | None => 0%Q end.

Module BillItem.
Record t : Type := mk {
  id : string;
  from : string;
  to : string;
  mode : string;
  bags : Q;
  ppBags : Q;
  juteBags : Q;
  netKgs : Q;
  bardanaKgs : Q;
  grossKgs : Q;
  rate_per_kg : Q;
  rs : Q;
  contract_id : option Z
}.
End BillItem.

Module SavedBill.
Record t : Type := mk {
  id : string;
  bill_number : string;
  bill_date : string;
  contractor_id : option Z;
  contractor_name : string;
  sanctioned_no : string;
  bill_items : list BillItem.t;
  deductions : CalculatedDeductions.t;
  grandTotal : Q;
  totalDeductions : Q;
  netAmount : Q
}.
End SavedBill.

Module Contract.
Record t : Type := mk {
  contract_id : Z;
  contractor_id : Z;
  contractor_name : string;
  from_location : string;
  to_location : string
}.
End Contract.

Module Contractor.
Record t : Type := mk {
  id : Z;
  name : string
}.
End Contractor.

(** The [details] payload of an entry takes no part in the filter and is
    left out. *)
Module AuditLog.
Record t : Type := mk {
  id : string;
  timestamp : string;
  userId : string;
  username : string;
  action : string
}.
End AuditLog.

(** [!x] on an id that is a number or undefined: [0] and undefined are falsy. *)
Definition falsy_id (x : option Z) : bool :=
  match x with
  | None => true
  | Some n => n =? 0
  end.

(** [x === n] between an id that may be undefined and a number *)
Definition id_is (x : option Z) (n : Z) : bool :=
  match x with
  | None => false
  | Some m => m =? n
  end.

(** ** [Map] and [Set] objects, in insertion order *)

Section JSMap.

Context {K V : Type}.
Variable eqb : K -> K -> bool.

Fixpoint map_has (k : K) (m : list (K * V)) : bool :=
  match m with
  | [] => false
  | (k', _) :: m' => eqb k' k || map_has k m'
  end.

Fixpoint map_get (k : K) (m : list (K * V)) : option V :=
  match m with
  | [] => None
  | (k', v) :: m' => if eqb k' k then Some v else map_get k m'
  end.

(** [map.set(k, v)]: a new key goes last, a known key keeps its place. *)
Fixpoint map_set (k : K) (v : V) (m : list (K * V)) : list (K * V) :=
  match m with
  | [] => [(k, v)]
  | (k', v') :: m' =>
      if eqb k' k then (k', v) :: m' else (k', v') :: map_set k v m'
  end.

(** [const current = map.get(k)!] followed by assignments to the fields of
    [current]: the object held by the map changes in place. *)
Fixpoint map_mutate (k : K) (f : V -> V) (m : list (K * V)) : list (K * V) :=
  match m with
  | [] => []
  | (k', v) :: m' =>
      if eqb k' k then (k', f v) :: m' else (k', v) :: map_mutate k f m'
  end.

(** [Array.from(map.values())] *)
Definition map_values (m : list (K * V)) : list V := map snd m.

(** [if (!map.has(k)) map.set(k, init); const current = map.get(k)!;]
    and the updates [f] of [current]. *)
Definition map_upsert (k : K) (init : V) (f : V -> V) (m : list (K * V))
  : list (K * V) :=
  map_mutate k f (if map_has k m then m else map_set k init m).

End JSMap.

(** [set.add(x)] on a [Set<string>] *)
Definition set_add (x : string) (s : list string) : list string :=
  if existsb (String.eqb x) s then s else s ++ [x].

(** ** The component's state *)

Module ReportTab.
Inductive t : Type :=
| details | contractor | contract | monthly | statement
| station | deductions | audit | taxSummary.
End ReportTab.

(** The value of the contractor [<select>]: ['all'], or the text of the
    numeric id of one of its [<option>]s, which [Number(...)] reads back. *)
Inductive ContractorSelector : Type :=
| all
| contractorId (n : Z).

Record FilterState : Type := mkFilter {
  selectedContractorId : ContractorSelector;
  selectedRoute : string;
  searchQuery : string;
  startDate : string;
  endDate : string;
  auditActionFilter : string
}.

(** The initial values of the [useState] hooks of the filters. *)
Definition noFilter : FilterState := mkFilter all "all" "" "" "" "all".

(** ** [filteredBills] *)

Definition routeStr (c : Contract.t) : string :=
  (Contract.from_location c ++ " -> " ++ Contract.to_location c)%string.

Definition contractorMatch (f : FilterState) (bill : SavedBill.t) : bool :=
  match selectedContractorId f with
  | all => true
  | contractorId n => id_is (SavedBill.contractor_id bill) n
  end.

Definition searchMatch (f : FilterState) (bill : SavedBill.t) : bool :=
  Str.isEmpty (searchQuery f)
  || Str.includes (Str.toLowerCase (SavedBill.bill_number bill))
                  (Str.toLowerCase (searchQuery f)).

Definition dateMatch (f : FilterState) (bill : SavedBill.t) : bool :=
  (Str.isEmpty (startDate f) || Str.geb (SavedBill.bill_date bill) (startDate f))
  && (Str.isEmpty (endDate f) || String.leb (SavedBill.bill_date bill) (endDate f)).

Definition routeMatch (contracts : list Contract.t) (f : FilterState)
    (bill : SavedBill.t) : bool :=
  String.eqb (selectedRoute f) "all"
  || existsb (fun item =>
       if String.eqb (selectedRoute f) "all" then true
       else
         match find (fun c => id_is (BillItem.contract_id item) (Contract.contract_id c))
                    contracts with
         | None => false
         | Some contract => String.eqb (routeStr contract) (selectedRoute f)
         end)
     (SavedBill.bill_items bill).

(** The predicate of the [.filter(bill => ...)] call. *)
Definition billPasses (contracts : list Contract.t) (f : FilterState)
    (bill : SavedBill.t) : bool :=
  contractorMatch f bill && searchMatch f bill && dateMatch f bill
  && routeMatch contracts f bill.

(** The comparator
    [(a, b) => new Date(b.bill_date).getTime() - new Date(a.bill_date).getTime()]
    is not positive when [b]'s time is at most [a]'s; a [NaN] difference is
    read as [+0] by [sort]. *)
Definition newerFirst (a b : SavedBill.t) : bool :=
  match JSDate.getTime (SavedBill.bill_date a), JSDate.getTime (SavedBill.bill_date b) with
  | Some ta, Some tb => tb <=? ta
  | _, _ => true
  end.

Definition filteredBills (savedBills : list SavedBill.t)
    (contracts : list Contract.t) (f : FilterState) : list SavedBill.t :=
  sort newerFirst (filter (billPasses contracts f) savedBills).

(** ** [filteredAuditLogs] *)

Definition auditPasses (f : FilterState) (log : AuditLog.t) : bool :=
  let actionMatch :=
    String.eqb (auditActionFilter f) "all"
    || String.eqb (AuditLog.action log) (auditActionFilter f) in
  let searchMatch :=
    Str.isEmpty (searchQuery f)
    || Str.includes (Str.toLowerCase (AuditLog.username log))
                    (Str.toLowerCase (searchQuery f))
    || Str.includes (Str.toLowerCase (AuditLog.action log))
                    (Str.toLowerCase (searchQuery f)) in
  let dateMatch :=
    (Str.isEmpty (startDate f) || Str.geb (AuditLog.timestamp log) (startDate f))
    && (Str.isEmpty (endDate f)
        || JSDate.le (AuditLog.timestamp log)
                     (endDate f ++ "T23:59:59.999Z")%string) in
  actionMatch && searchMatch && dateMatch.

Definition filteredAuditLogs (auditLogs : list AuditLog.t) (f : FilterState)
  : list AuditLog.t :=
  filter (auditPasses f) auditLogs.

(** ** The summary builders *)

(** *** [summary]: the totals of the detail view *)

Module Totals.
Record t : Type := mk {
  totalAmount : Q;
  totalDeductions : Q;
  netAmount : Q
}.
End Totals.

Definition summary (bills : list SavedBill.t) : Totals.t :=
  fold_left (fun acc bill =>
      Totals.mk (Totals.totalAmount acc + SavedBill.grandTotal bill)
                (Totals.totalDeductions acc + SavedBill.totalDeductions bill)
                (Totals.netAmount acc + SavedBill.netAmount bill))
    bills (Totals.mk 0 0 0).

(** *** [contractorSummary] *)

Module ContractorGroup.
Record t : Type := mk {
  name : string;
  totalBills : Z;
  grandTotal : Q;
  totalDeductions : Q;
  netAmount : Q
}.

Definition add (bill : SavedBill.t) (current : t) : t :=
  mk (name current)
     (totalBills current + 1)
     (grandTotal current + SavedBill.grandTotal bill)
     (totalDeductions current + SavedBill.totalDeductions bill)
     (netAmount current + SavedBill.netAmount bill).
End ContractorGroup.

(** One turn of [filteredBills.forEach(bill => ...)] on [summaryMap]. *)
Definition contractorStep (summaryMap : list (Z * ContractorGroup.t))
    (bill : SavedBill.t) : list (Z * ContractorGroup.t) :=
  match SavedBill.contractor_id bill with
  | None => summaryMap
  | Some cid =>
      if cid =? 0 then summaryMap
      else map_upsert Z.eqb cid
             (ContractorGroup.mk (SavedBill.contractor_name bill) 0 0 0 0)
             (ContractorGroup.add bill) summaryMap
  end.

Definition contractorSummary (bills : list SavedBill.t) : list ContractorGroup.t :=
  sort (fun a b => Qle_bool (ContractorGroup.netAmount b) (ContractorGroup.netAmount a))
       (map_values (fold_left contractorStep bills [])).

(** *** [contractSummary] *)

Module ContractGroup.
Record t : Type := mk {
  contract : Contract.t;
  totalTrips : Z;
  totalNetKgs : Q;
  totalAmount : Q;
  billIds : list string
}.

Definition add (bill : SavedBill.t) (item : BillItem.t) (current : t) : t :=
  mk (contract current)
     (totalTrips current + 1)
     (totalNetKgs current + BillItem.netKgs item)
     (totalAmount current + BillItem.rs item)
     (set_add (SavedBill.id bill) (billIds current)).
End ContractGroup.

Definition contractItemStep (contracts : list Contract.t) (bill : SavedBill.t)
    (summaryMap : list (Z * ContractGroup.t)) (item : BillItem.t)
  : list (Z * ContractGroup.t) :=
  if falsy_id (BillItem.contract_id item) then summaryMap
  else
    match find (fun c => id_is (BillItem.contract_id item) (Contract.contract_id c))
               contracts with
    | None => summaryMap
    | Some contract =>
        map_upsert Z.eqb (Contract.contract_id contract)
          (ContractGroup.mk contract 0 0 0 [])
          (ContractGroup.add bill item) summaryMap
    end.

Definition contractSummary (bills : list SavedBill.t) (contracts : list Contract.t)
  : list ContractGroup.t :=
  sort (fun a b => Qle_bool (ContractGroup.totalAmount b) (ContractGroup.totalAmount a))
       (map_values
          (fold_left (fun m bill =>
                        fold_left (contractItemStep contracts bill)
                                  (SavedBill.bill_items bill) m)
                     bills [])).

(** *** [monthlySummary] *)

Module MonthGroup.
Record t : Type := mk {
  month : string;
  totalBills : Z;
  grandTotal : Q;
  totalDeductions : Q;
  netAmount : Q
}.

Definition add (bill : SavedBill.t) (current : t) : t :=
  mk (month current)
     (totalBills current + 1)
     (grandTotal current + SavedBill.grandTotal bill)
     (totalDeductions current + SavedBill.totalDeductions bill)
     (netAmount current + SavedBill.netAmount bill).
End MonthGroup.

Definition monthlyStep (summaryMap : list (string * MonthGroup.t))
    (bill : SavedBill.t) : list (string * MonthGroup.t) :=
  let month := substring 0 7 (SavedBill.bill_date bill) in
  map_upsert String.eqb month (MonthGroup.mk month 0 0 0 0)
             (MonthGroup.add bill) summaryMap.

(** [b.month.localeCompare(a.month)] compares by the collation of the
    locale, which the model does not have; it takes the code-unit order,
    with which the collation agrees on keys made of digits and ["-"], as
    the [YYYY-MM] keys of dated bills are.  No property below speaks of the
    order of the months. *)
Definition monthlySummary (bills : list SavedBill.t) : list MonthGroup.t :=
  sort (fun a b => String.leb (MonthGroup.month b) (MonthGroup.month a))
       (map_values (fold_left monthlyStep bills [])).

(** *** [stationSummary] *)

Module Station.
Record t : Type := mk {
  name : string;
  dispatchedTrips : Z;
  dispatchedKgs : Q;
  dispatchedValue : Q;
  receivedTrips : Z;
  receivedKgs : Q;
  billIds : list string
}.

Definition fresh (name : string) : t := mk name 0 0 0 0 0 [].

(** The four assignments to [fromStation]. *)
Definition dispatch (bill : SavedBill.t) (item : BillItem.t) (s : t) : t :=
  mk (name s)
     (dispatchedTrips s + 1)
     (dispatchedKgs s + BillItem.netKgs item)
     (dispatchedValue s + BillItem.rs item)
     (receivedTrips s) (receivedKgs s)
     (set_add (SavedBill.id bill) (billIds s)).

(** The three assignments to [toStation]. *)
Definition receive (bill : SavedBill.t) (item : BillItem.t) (s : t) : t :=
  mk (name s)
     (dispatchedTrips s) (dispatchedKgs s) (dispatchedValue s)
     (receivedTrips s + 1)
     (receivedKgs s + BillItem.netKgs item)
     (set_add (SavedBill.id bill) (billIds s)).
End Station.

(** [getStation(name)] followed by the updates [f] of the station it
    returns. *)
Definition withStation (name : string) (f : Station.t -> Station.t)
    (stationMap : list (string * Station.t)) : list (string * Station.t) :=
  map_upsert String.eqb name (Station.fresh name) f stationMap.

(** One turn of [bill.bill_items.forEach(item => ...)]. *)
Definition stationItemStep (bill : SavedBill.t)
    (stationMap : list (string * Station.t)) (item : BillItem.t)
  : list (string * Station.t) :=
  withStation (BillItem.to item) (Station.receive bill item)
    (withStation (BillItem.from item) (Station.dispatch bill item) stationMap).

Definition stationMapOf (bills : list SavedBill.t) : list (string * Station.t) :=
  fold_left (fun m bill =>
               fold_left (stationItemStep bill) (SavedBill.bill_items bill) m)
            bills [].

Definition stationSummary (bills : list SavedBill.t) : list Station.t :=
  sort (fun a b => Qle_bool (Station.dispatchedValue b) (Station.dispatchedValue a))
       (map_values (stationMapOf bills)).

(** *** [deductionsSummary] *)

Module DeductionsSummary.
Record t : Type := mk {
  byKey : CalculatedDeductions.t;
  total : Q
}.
End DeductionsSummary.

Definition deductionsStep (summary : DeductionsSummary.t) (bill : SavedBill.t)
  : DeductionsSummary.t :=
  let d := SavedBill.deductions bill in
  let byKey :=
    fold_left (fun acc key =>
        let value := orZero (CalculatedDeductions.amount d key) in
        CalculatedDeductions.set key
          (orZero (CalculatedDeductions.amount acc key) + value) acc)
      (CalculatedDeductions.numeric_keys d)
      (DeductionsSummary.byKey summary) in
  DeductionsSummary.mk byKey
    (DeductionsSummary.total summary + SavedBill.totalDeductions bill).

Definition deductionsSummary (bills : list SavedBill.t) : DeductionsSummary.t :=
  fold_left deductionsStep bills
            (DeductionsSummary.mk CalculatedDeductions.empty 0).

(** *** The totals row of [TaxSummaryTable] *)

Module TaxTotals.
Record t : Type := mk {
  netKgs : Q;
  grandTotal : Q;
  totalDeductions : Q;
  netAmount : Q;
  byKey : DeductionKey -> Q
}.
End TaxTotals.

Definition taxTotals (bills : list SavedBill.t) : TaxTotals.t :=
  fold_left (fun acc bill =>
      TaxTotals.mk
        (TaxTotals.netKgs acc
         + fold_left (fun s i => Qplus s (BillItem.netKgs i))
                     (SavedBill.bill_items bill) 0%Q)
        (TaxTotals.grandTotal acc + SavedBill.grandTotal bill)
        (TaxTotals.totalDeductions acc + SavedBill.totalDeductions bill)
        (TaxTotals.netAmount acc + SavedBill.netAmount bill)
        (fold_left (fun byKey key k =>
                      if CalculatedDeductions.key_eqb k key
                      then Qplus (byKey key)
                             (orZero (CalculatedDeductions.amount
                                        (SavedBill.deductions bill) key))
                      else byKey k)
                   DEDUCTION_KEYS (TaxTotals.byKey acc)))
    bills (TaxTotals.mk 0 0 0 0 (fun _ => 0%Q)).

(** ** [Number.prototype.toFixed] *)

(** What [x.toFixed(f)] returns: a fixed-point numeral, or, for a magnitude
    of [10^21] and more, the text of [Number::toString(x)], which is in
    exponent notation; the model keeps the number instead of that text. *)
Inductive Numeral : Type :=
| Decimal (text : string)
| Exponential (x : Q).

Fixpoint uint_digits (u : Decimal.uint) : list ascii :=
  match u with
  | Decimal.Nil => []
  | Decimal.D0 u' => "0"%char :: uint_digits u'
  | Decimal.D1 u' => "1"%char :: uint_digits u'
  | Decimal.D2 u' => "2"%char :: uint_digits u'
  | Decimal.D3 u' => "3"%char :: uint_digits u'
  | Decimal.D4 u' => "4"%char :: uint_digits u'
  | Decimal.D5 u' => "5"%char :: uint_digits u'
  | Decimal.D6 u' => "6"%char :: uint_digits u'
  | Decimal.D7 u' => "7"%char :: uint_digits u'
  | Decimal.D8 u' => "8"%char :: uint_digits u'
  | Decimal.D9 u' => "9"%char :: uint_digits u'
  end.

(** The decimal digits of a natural number, ["0"] for zero. *)
Definition digits_of (n : Z) : list ascii := uint_digits (N.to_uint (Z.to_N n)).

(** The integer [n] for which [n / 10^f - x] is closest to zero, the larger
    one of two, for [x >= 0]. *)
Definition scaled_round (f : nat) (x : Q) : Z :=
  (2 * Qnum x * 10 ^ Z.of_nat f + Zpos (Qden x)) / (2 * Zpos (Qden x)).

Definition toFixed (f : nat) (x : Q) : Numeral :=
  let s := if Qnum x <? 0 then ["-"%char] else [] in
  let x' := Qabs x in
  if Qle_bool (inject_Z (10 ^ 21)) x' then Exponential x
  else
    let m := digits_of (scaled_round f x') in
    let body :=
      match f with
      | O => m
      | _ =>
          let k := List.length m in
          let m' := if Nat.leb k f then repeat "0"%char (f + 1 - k) ++ m else m in
          let k' := List.length m' in
          firstn (k' - f) m' ++ "."%char :: skipn (k' - f) m'
      end in
    Decimal (string_of_list_ascii (s ++ body)).

(** ** [handleExportCSV] *)






(** ** [handleGenerateStatement] *)

Module StatementSummary.
Record t : Type := mk {
  grandTotal : Q;
  netAmount : Q;
  totalDeductions : Q;
  deductions : CalculatedDeductions.t
}.
End StatementSummary.

Module StatementData.
Record t : Type := mk {
  contractorName : string;
  period : string * string;
  bills : list SavedBill.t;
  summary : StatementSummary.t
}.
End StatementData.

(** The body of the [for (const key of Object.keys(bill.deductions))] loop
    of the statement's [reduce]. *)
Definition rollUpKey (d : CalculatedDeductions.t)
    (acc : CalculatedDeductions.t) (key : DeductionKey) : CalculatedDeductions.t :=
  match CalculatedDeductions.amount d key with
  | Some v =>
      CalculatedDeductions.set key
        (orZero (CalculatedDeductions.amount acc key) + v) acc
  | None => acc
  end.

Definition statementStep (acc : StatementSummary.t) (bill : SavedBill.t)
  : StatementSummary.t :=
  StatementSummary.mk
    (StatementSummary.grandTotal acc + SavedBill.grandTotal bill)
    (StatementSummary.netAmount acc + SavedBill.netAmount bill)
    (StatementSummary.totalDeductions acc + SavedBill.totalDeductions bill)
    (fold_left (rollUpKey (SavedBill.deductions bill))
               (CalculatedDeductions.numeric_keys (SavedBill.deductions bill))
               (StatementSummary.deductions acc)).

Definition statementSummary (bills : list SavedBill.t) : StatementSummary.t :=
  fold_left statementStep bills
            (StatementSummary.mk 0 0 0 CalculatedDeductions.empty).

Record Props : Type := mkProps {
  savedBills : list SavedBill.t;
  contractors : list Contractor.t;
  contracts : list Contract.t;
  auditLogs : list AuditLog.t
}.

(** The [useState] cells the handler reads and writes. *)
Record State : Type := mkState {
  activeTab : ReportTab.t;
  filters : FilterState;
  statementData : option StatementData.t
}.

(** A handler returns the next state and the alerts it raised. *)
Definition Handler : Type := State -> State * list string.

Definition alert (message : string) : Handler := fun st => (st, [message]).
Definition skip : Handler := fun st => (st, []).

Definition handleGenerateStatement (p : Props) : Handler := fun st =>
  match selectedContractorId (filters st) with
  | all => alert "Please select a specific contractor to generate a statement." st
  | contractorId n =>
      match find (fun c => Contractor.id c =? n) (contractors p) with
      | None => skip st
      | Some contractor =>
          let billsForStatement :=
            filter (fun b => id_is (SavedBill.contractor_id b) n)
                   (filteredBills (savedBills p) (contracts p) (filters st)) in
          let summary := statementSummary billsForStatement in
          (mkState ReportTab.statement (filters st)
             (Some (StatementData.mk (Contractor.name contractor)
                      (startDate (filters st), endDate (filters st))
                      billsForStatement summary)),
           [])
      end
  end.

(** ** The route and action selectors, and the detail rows *)

(** [routesForFilter]: the routes of the contracts of the selected
    contractor, each once, in the order of the default [sort()] (code
    units). *)
Definition relevantContracts (contracts : list Contract.t) (f : FilterState)
  : list Contract.t :=
  match selectedContractorId f with
  | all => contracts
  | contractorId n => filter (fun c => Contract.contractor_id c =? n) contracts
  end.

Definition routesForFilter (contracts : list Contract.t) (f : FilterState)
  : list string :=
  sort String.leb
       (fold_left (fun routeSet c => set_add (routeStr c) routeSet)
                  (relevantContracts contracts f) []).

(** The effect that follows a change of the routes or of the selected
    route: [if (!routesForFilter.includes(selectedRoute)) setSelectedRoute('all')]. *)
Definition resetRoute (contracts : list Contract.t) (f : FilterState) : FilterState :=
  if existsb (String.eqb (selectedRoute f)) (routesForFilter contracts f) then f
  else mkFilter (selectedContractorId f) "all" (searchQuery f)
                (startDate f) (endDate f) (auditActionFilter f).

(** [uniqueAuditActions]: [[...new Set(auditLogs.map(log => log.action))].sort()] *)
Definition uniqueAuditActions (auditLogs : list AuditLog.t) : list string :=
  sort String.leb
       (fold_left (fun s a => set_add a s) (map AuditLog.action auditLogs) []).

(** [relevantBills] of the detail rows of the contract and station tables:
    [allBills.filter(b => billIds.has(b.id))]. *)
Definition relevantBills (billIds : list string) (allBills : list SavedBill.t)
  : list SavedBill.t :=
  filter (fun b => existsb (String.eqb (SavedBill.id b)) billIds) allBills.

(** ** Notions used by the properties *)

(** A bill that [contractorSummary] does not skip: its [contractor_id] is
    truthy, that is, there is one and it is not 0. *)
Definition attributed (bill : SavedBill.t) : bool :=
  negb (falsy_id (SavedBill.contractor_id bill)).

(** The bill of the scenario of the specification, and the same bill with no
    contractor id. *)
Definition item_X_Y : BillItem.t :=
  BillItem.mk "i1" "X" "Y" "Truck" 10 10 0 500 0 500 2 1000 None.

Definition no_deductions : CalculatedDeductions.t := CalculatedDeductions.empty.

Definition bill_acme : SavedBill.t :=
  SavedBill.mk "b1" "M-1" "2024-01-15" (Some 7) "Acme" "S-1" [item_X_Y]
    no_deductions 1000 100 900.

Definition bill_unattributed : SavedBill.t :=
  SavedBill.mk "b2" "M-2" "2024-01-16" None "" "S-1" [item_X_Y]
    no_deductions 1000 100 900.

(** The amounts of the bills under one deduction key, undefined counting
    as 0. *)
Definition categoryTotal (k : DeductionKey) (bills : list SavedBill.t) : Q :=
  Num.sum (map (fun b => orZero (CalculatedDeductions.amount (SavedBill.deductions b) k))
               bills).

(** A bill of contractor 7 with a penalty and a described "others" amount. *)
Definition deductions_misc : CalculatedDeductions.t :=
  CalculatedDeductions.mk
    (fun k => match k with
              | penalty => Some 30%Q
              | others => Some 50%Q
              | _ => None
              end)
    (Some "Misc"%string).

Definition bill_misc : SavedBill.t :=
  SavedBill.mk "b3" "M-3" "2024-02-01" (Some 7) "Acme" "S-1" [item_X_Y]
    deductions_misc 1000 80 920.

Definition props_acme : Props :=
  mkProps [bill_acme; bill_misc; bill_unattributed]
          [Contractor.mk 7 "Acme"] [] [].

Definition state_all : State := mkState ReportTab.details noFilter None.

Definition state_acme : State :=
  mkState ReportTab.details (mkFilter (contractorId 7) "all" "" "" "" "all") None.

Definition state_unknown : State :=
  mkState ReportTab.details (mkFilter (contractorId 8) "all" "" "" "" "all") None.

(** The entry of a station in the map, as the [getStation] of the code would
    return it: the stored one, or the zero-filled one of a name not met
    yet. *)
Definition stationEntry (name : string) (stationMap : list (string * Station.t))
  : Station.t :=
  match map_get String.eqb name stationMap with
  | Some s => s
  | None => Station.fresh name
  end.

(** A map before an item is processed: station "X" has dispatched and
    received before, "Y" is not known yet. *)
Definition stations_before : list (string * Station.t) :=
  [("X"%string, Station.mk "X" 2 700 1500 1 40 ["b0"%string]);
   ("Z"%string, Station.mk "Z" 1 40 90 2 700 ["b0"%string])].

(** The items of a list of bills, and those that leave from, or arrive at, a
    station. *)
Definition allItems (bills : list SavedBill.t) : list BillItem.t :=
  flat_map SavedBill.bill_items bills.

Definition dispatchedFrom (name : string) (items : list BillItem.t) : list BillItem.t :=
  filter (fun i => String.eqb (BillItem.from i) name) items.

Definition receivedAt (name : string) (items : list BillItem.t) : list BillItem.t :=
  filter (fun i => String.eqb (BillItem.to i) name) items.

(** The five counters of [e'] are those of [e] with the items [items] added. *)
Definition accrued (name : string) (items : list BillItem.t) (e e' : Station.t) : Prop :=
  Station.dispatchedTrips e' =
    Station.dispatchedTrips e + Z.of_nat (List.length (dispatchedFrom name items))
  /\ Station.dispatchedKgs e' =
       Qplus (Station.dispatchedKgs e)
             (Num.sum (map BillItem.netKgs (dispatchedFrom name items)))
  /\ Station.dispatchedValue e' =
       Qplus (Station.dispatchedValue e)
             (Num.sum (map BillItem.rs (dispatchedFrom name items)))
  /\ Station.receivedTrips e' =
       Station.receivedTrips e + Z.of_nat (List.length (receivedAt name items))
  /\ Station.receivedKgs e' =
       Qplus (Station.receivedKgs e)
             (Num.sum (map BillItem.netKgs (receivedAt name items))).

(** A bill whose date [new Date(...)] reads: a date of the calendar, as the
    data model has it, written [YYYY-MM-DD] or as a UTC date-time. *)
Definition dated (bill : SavedBill.t) : Prop :=
  JSDate.getTime (SavedBill.bill_date bill) <> None.

(** Most recent first: the time of each bill's date is at least that of
    every bill after it. *)
Definition newestFirst (bills : list SavedBill.t) : Prop :=
  StronglySorted
    (fun a b =>
       match JSDate.getTime (SavedBill.bill_date a),
             JSDate.getTime (SavedBill.bill_date b) with
       | Some ta, Some tb => tb <= ta
       | _, _ => False
       end)
    bills.

(** [f] lets pass the bills that both [f1] and [f2] let pass: the one state
    that expresses [f1 /\ f2]. *)
Definition isConjunction (contracts : list Contract.t) (f1 f2 f : FilterState) : Prop :=
  forall bill,
    billPasses contracts f bill =
    billPasses contracts f1 bill && billPasses contracts f2 bill.

(** The state that takes each criterion from the one of [f1] and [f2] that
    sets it. *)
Definition combine (f1 f2 : FilterState) : FilterState :=
  mkFilter
    (match selectedContractorId f1 with
     | all => selectedContractorId f2
     | sel => sel
     end)
    (if String.eqb (selectedRoute f1) "all" then selectedRoute f2 else selectedRoute f1)
    (if Str.isEmpty (searchQuery f1) then searchQuery f2 else searchQuery f1)
    (if Str.isEmpty (startDate f1) then startDate f2 else startDate f1)
    (if Str.isEmpty (endDate f1) then endDate f2 else endDate f1)
    (if String.eqb (auditActionFilter f1) "all"
     then auditActionFilter f2 else auditActionFilter f1).

(** No criterion is set by both states. *)
Definition disjointCriteria (f1 f2 : FilterState) : Prop :=
  (selectedContractorId f1 = all \/ selectedContractorId f2 = all)
  /\ (selectedRoute f1 = "all"%string \/ selectedRoute f2 = "all"%string)
  /\ (searchQuery f1 = ""%string \/ searchQuery f2 = ""%string)
  /\ (startDate f1 = ""%string \/ startDate f2 = ""%string)
  /\ (endDate f1 = ""%string \/ endDate f2 = ""%string).

Definition filter_acme : FilterState := mkFilter (contractorId 7) "all" "" "" "" "all".

Definition filter_february : FilterState :=
  mkFilter all "all" "" "2024-02-01" "2024-02-29" "all".

(** The audit filter with an end date and nothing else set. *)
Definition filter_until (day : string) : FilterState :=
  mkFilter all "all" "" "" day "all".

Definition log_at (id timestamp : string) : AuditLog.t :=
  AuditLog.mk id timestamp "u1" "admin" "Bill Created".

(** *** The CSV field contract of the specification *)











(** A day of the calendar, and the order of the calendar. *)
Definition validDay (y m d : Z) : Prop :=
  1 <= m <= 12 /\ 1 <= d <= JSDate.DaysInMonth y m.

Definition calendarBefore (y1 m1 d1 y2 m2 d2 : Z) : Prop :=
  y1 < y2 \/ (y1 = y2 /\ (m1 < m2 \/ (m1 = m2 /\ d1 < d2))).

(** The station map has one entry per name, held under its name. *)
Definition stationMapOK (m : list (string * Station.t)) : Prop :=
  NoDup (map fst m) /\ forall k s, In (k, s) m -> Station.name s = k.

(** ** Notions used by the further properties *)

(** [Array.prototype.reduce((s, x) => s + x, 0)] on counters *)
Definition zsum (l : list Z) : Z := fold_left Z.add l 0.

(** A grouping pass: [keyOf] gives the key under which an element is
    counted, or [None] when the pass skips it; [init] is the group made at
    the first element of a key and [add] the update for each element. *)
Section GroupPass.

Context {B K V : Type}.
Variable eqb : K -> K -> bool.
Variable keyOf : B -> option K.
Variable init : B -> V.
Variable add : B -> V -> V.

Definition groupStep (m : list (K * V)) (b : B) : list (K * V) :=
  match keyOf b with
  | None => m
  | Some k => map_upsert eqb k (init b) (add b) m
  end.

Definition keyIs (k : K) (b : B) : bool :=
  match keyOf b with
  | Some k' => eqb k' k
  | None => false
  end.

Definition keyed (b : B) : bool :=
  match keyOf b with Some _ => true | None => false end.

End GroupPass.

(** The value of a quantity under a key, the neutral [e] when the key is
    absent. *)
Definition valueAt {K V M : Type} (eqb : K -> K -> bool) (q : V -> M) (e : M)
    (k : K) (m : list (K * V)) : M :=
  match map_get eqb k m with
  | Some v => q v
  | None => e
  end.

(** The key of a bill in each pass. *)
Definition contractorKey (bill : SavedBill.t) : option Z :=
  if falsy_id (SavedBill.contractor_id bill) then None
  else SavedBill.contractor_id bill.

Definition monthKey (bill : SavedBill.t) : option string :=
  Some (substring 0 7 (SavedBill.bill_date bill)).

(** The bills of a contractor and the bills of a month. *)
Definition billsOfContractor (cid : Z) (bills : list SavedBill.t) : list SavedBill.t :=
  filter (fun b => id_is (SavedBill.contractor_id b) cid) bills.

Definition billsOfMonth (month : string) (bills : list SavedBill.t) : list SavedBill.t :=
  filter (fun b => String.eqb (substring 0 7 (SavedBill.bill_date b)) month) bills.


(** The groups that the passes make at the first bill of a key. *)
Definition contractorInit (bill : SavedBill.t) : ContractorGroup.t :=
  ContractorGroup.mk (SavedBill.contractor_name bill) 0 0 0 0.

Definition monthInit (bill : SavedBill.t) : MonthGroup.t :=
  MonthGroup.mk (substring 0 7 (SavedBill.bill_date bill)) 0 0 0 0.

(** A contract for the route of the scenario, an item priced by it, and a
    bill with that item and one that no contract prices. *)
Definition contract_X_Y : Contract.t := Contract.mk 1 7 "Acme" "X" "Y".

Definition item_priced : BillItem.t :=
  BillItem.mk "i3" "X" "Y" "Truck" 10 10 0 500 0 500 2 1000 (Some 1).

Definition bill_priced : SavedBill.t :=
  SavedBill.mk "b5" "M-5" "2024-03-05" (Some 7) "Acme" "S-1" [item_priced; item_X_Y]
    no_deductions 2000 200 1800.

Definition filter_route (route : string) : FilterState :=
  mkFilter all route "" "" "" "all".

Definition filter_action (action : string) : FilterState :=
  mkFilter all "all" "" "" "" action.

(** An item leaves from the station or arrives at it. *)
Definition touches (name : string) (item : BillItem.t) : bool :=
  String.eqb (BillItem.from item) name || String.eqb (BillItem.to item) name.

(** The contract that prices an item in the contract pass: the guard
    [item.contract_id] and the [contracts.find]. *)
Definition contractOf (contracts : list Contract.t) (item : BillItem.t)
  : option Contract.t :=
  if falsy_id (BillItem.contract_id item) then None
  else find (fun c => id_is (BillItem.contract_id item) (Contract.contract_id c))
            contracts.

(** The items of a bill, and of a subset, that a contract of the list
    prices, each with its bill and that contract, in the order of the pass. *)
Definition pricedOf (contracts : list Contract.t) (bill : SavedBill.t)
    (item : BillItem.t) : list (SavedBill.t * BillItem.t * Contract.t) :=
  match contractOf contracts item with
  | Some c => [(bill, item, c)]
  | None => []
  end.

Definition pricedItems (contracts : list Contract.t) (bills : list SavedBill.t)
  : list (SavedBill.t * BillItem.t * Contract.t) :=
  flat_map (fun bill => flat_map (pricedOf contracts bill) (SavedBill.bill_items bill))
           bills.

Definition pricedKey (p : SavedBill.t * BillItem.t * Contract.t) : option Z :=
  Some (Contract.contract_id (snd p)).

Definition pricedInit (p : SavedBill.t * BillItem.t * Contract.t) : ContractGroup.t :=
  ContractGroup.mk (snd p) 0 0 0 [].

Definition pricedAdd (p : SavedBill.t * BillItem.t * Contract.t)
  : ContractGroup.t -> ContractGroup.t :=
  ContractGroup.add (fst (fst p)) (snd (fst p)).

(** The items of a subset that carry a contract id, and the bills that
    have such an item. *)
Definition ofContract (cid : Z) (item : BillItem.t) : bool :=
  id_is (BillItem.contract_id item) cid.

Definition itemsOfContract (cid : Z) (bills : list SavedBill.t) : list BillItem.t :=
  filter (ofContract cid) (allItems bills).

Definition billsOfContract (cid : Z) (bills : list SavedBill.t) : list SavedBill.t :=
  filter (fun b => existsb (ofContract cid) (SavedBill.bill_items b)) bills.

(** The first contract of the list with a contract id. *)
Definition firstContract (cid : Z) (contracts : list Contract.t) : option Contract.t :=
  find (fun c => id_is (Some cid) (Contract.contract_id c)) contracts.

(** The bills that have an item from or to a station. *)
Definition billsOfStation (name : string) (bills : list SavedBill.t) : list SavedBill.t :=
  filter (fun b => existsb (touches name) (SavedBill.bill_items b)) bills.

(** An item that a contract of the list prices. *)
Definition priced (contracts : list Contract.t) (item : BillItem.t) : bool :=
  match contractOf contracts item with Some _ => true | None => false end.

(** The contract id of a row of the Contract Summary. *)
Definition rowContractId (row : ContractGroup.t) : Z :=
  Contract.contract_id (ContractGroup.contract row).

(** The item loop of [stationSummary] continued from a station map, and the
    summary read off a map: its entries in insertion order, sorted on
    [dispatchedValue] from the largest down. *)
Definition stationLoop (bills : list SavedBill.t) (stationMap : list (string * Station.t))
  : list (string * Station.t) :=
  fold_left (fun m bill =>
               fold_left (stationItemStep bill) (SavedBill.bill_items bill) m)
            bills stationMap.

Definition stationRows (stationMap : list (string * Station.t)) : list Station.t :=
  sort (fun a b => Qle_bool (Station.dispatchedValue b) (Station.dispatchedValue a))
       (map_values stationMap).

(** ** The additions of the net amounts on doubles

    The amounts of the program are IEEE doubles, whose addition rounds and
    is not associative.  The two passes below are those of [monthlySummary]
    and of [contractorSummary] on the [netAmount] field alone, with the
    [+=] of the code as the addition of doubles; they show what regrouping
    the additions does to a sum. *)

Module Double.

(** [reduce((s, x) => s + x, 0)] *)
Definition sum (l : list float) : float := fold_left PrimFloat.add l 0%float.

(** What the two passes read of a bill. *)
Record bill : Type := mkBill {
  bill_date : string;
  contractor_id : option Z;
  netAmount : float
}.

(** The month keys of [monthlySummary] with the [netAmount] of their rows,
    from the latest month down. *)
Definition monthlyNet (bills : list bill) : list (string * float) :=
  sort (fun a b => String.leb (fst b) (fst a))
    (fold_left (fun summaryMap b =>
                  map_upsert String.eqb (substring 0 7 (bill_date b)) 0%float
                    (fun current => PrimFloat.add current (netAmount b)) summaryMap)
               bills []).

(** The contractor ids of [contractorSummary] with the [netAmount] of their
    rows, from the largest amount down. *)
Definition contractorNet (bills : list bill) : list (Z * float) :=
  sort (fun a b => PrimFloat.leb (snd b) (snd a))
    (fold_left (fun summaryMap b =>
                  match contractor_id b with
                  | None => summaryMap
                  | Some cid =>
                      if cid =? 0 then summaryMap
                      else map_upsert Z.eqb cid 0%float
                             (fun current => PrimFloat.add current (netAmount b))
                             summaryMap
                  end)
               bills []).

(** Three bills, newest first, of 0.1, 0.2 and 0.3: one of February for
    contractor 7, two of January for contractor 8. *)
Definition three_bills : list bill :=
  [mkBill "2024-02-01" (Some 7) (1 / 10)%float;
   mkBill "2024-01-20" (Some 8) (2 / 10)%float;
   mkBill "2024-01-10" (Some 8) (3 / 10)%float].

End Double.

(** * Properties *)

(** ** Sums of rationals *)

Module NumFacts.

Lemma plus_0_l (x : Q) : Qplus 0 x = x.
Proof.
  destruct x as [n d]. unfold Qplus; simpl.
  rewrite Z.mul_1_r. reflexivity.
Qed.

Lemma plus_0_r (x : Q) : Qplus x 0 = x.
Proof.
  destruct x as [n d]. unfold Qplus; simpl.
  rewrite Z.mul_1_r, Z.add_0_r, Pos.mul_1_r. reflexivity.
Qed.

Lemma plus_comm (x y : Q) : Qplus x y = Qplus y x.
Proof.
  destruct x as [a b], y as [c d]. unfold Qplus; simpl.
  f_equal; [ring | apply Pos.mul_comm].
Qed.

Lemma plus_assoc (x y z : Q) : Qplus x (Qplus y z) = Qplus (Qplus x y) z.
Proof.
  destruct x as [a b], y as [c d], z as [e f]. unfold Qplus; simpl.
  f_equal; [| apply Pos.mul_assoc].
  rewrite !Pos2Z.inj_mul. ring.
Qed.

Lemma fold_plus_acc (l : list Q) (a b : Q) :
  fold_left Qplus l (Qplus a b) = Qplus a (fold_left Qplus l b).
Proof.
  revert b. induction l as [|x l IH]; intros b; simpl; [reflexivity|].
  rewrite <- plus_assoc. apply IH.
Qed.

Lemma sum_cons (x : Q) (l : list Q) : Num.sum (x :: l) = Qplus x (Num.sum l).
Proof.
  unfold Num.sum; simpl. rewrite plus_0_l.
  rewrite <- (plus_0_r x) at 1. apply fold_plus_acc.
Qed.

Lemma sum_nil : Num.sum [] = 0%Q.
Proof. reflexivity. Qed.

Lemma sum_app (l1 l2 : list Q) : Num.sum (l1 ++ l2) = Qplus (Num.sum l1) (Num.sum l2).
Proof.
  induction l1 as [|x l1 IH]; simpl.
  - rewrite sum_nil, plus_0_l. reflexivity.
  - rewrite !sum_cons, IH. apply plus_assoc.
Qed.

Lemma sum_perm (l1 l2 : list Q) : Permutation l1 l2 -> Num.sum l1 = Num.sum l2.
Proof.
  induction 1 as [|x l l' _ IH|x y l|l l' l'' _ IH1 _ IH2].
  - reflexivity.
  - rewrite !sum_cons, IH. reflexivity.
  - rewrite !sum_cons, !plus_assoc, (plus_comm y x). reflexivity.
  - congruence.
Qed.

End NumFacts.

(** ** Facts on the stable sort *)

Section SortFacts.

Context {A : Type}.
Variable before : A -> A -> bool.

Lemma insert_perm (x : A) (l : list A) : Permutation (x :: l) (insert before x l).
Proof.
  induction l as [|y l IH]; simpl; [apply Permutation_refl|].
  destruct (before x y); [apply Permutation_refl|].
  eapply perm_trans; [apply perm_swap|]. apply perm_skip, IH.
Qed.

Lemma sort_perm (l : list A) : Permutation l (sort before l).
Proof.
  induction l as [|x l IH]; simpl; [constructor|].
  eapply perm_trans; [apply perm_skip, IH|]. apply insert_perm.
Qed.

(** A comparator that is a total preorder on the elements that satisfy
    [ok] (for the bill filter: the bills whose date parses). *)
Variable ok : A -> Prop.
Hypothesis before_total :
  forall a b, ok a -> ok b -> before a b = true \/ before b a = true.
Hypothesis before_trans :
  forall a b c, ok a -> ok b -> ok c ->
    before a b = true -> before b c = true -> before a c = true.

Lemma insert_ok (x : A) (l : list A) :
  ok x -> Forall ok l -> Forall ok (insert before x l).
Proof.
  intros Hx Hl. eapply Permutation_Forall; [apply insert_perm|].
  now constructor.
Qed.

Lemma sort_ok (l : list A) : Forall ok l -> Forall ok (sort before l).
Proof.
  intros Hl. eapply Permutation_Forall; [apply sort_perm|]. exact Hl.
Qed.

Lemma insert_sorted (x : A) (l : list A) :
  ok x -> Forall ok l -> sorted before l -> sorted before (insert before x l).
Proof.
  unfold sorted. intros Hx Hok Hs. revert Hok.
  induction Hs as [|y l Hs IH Hall]; intros Hok; simpl.
  - repeat constructor.
  - inversion Hok as [|? ? Hy Hl]; subst.
    destruct (before x y) eqn:E.
    + constructor; [constructor; assumption|].
      constructor; [assumption|].
      rewrite Forall_forall in *. intros c Hc.
      eapply (before_trans x y c); auto.
    + constructor; [exact (IH Hl)|].
      assert (Hyx : before y x = true).
      { destruct (before_total x y Hx Hy); congruence. }
      eapply Permutation_Forall; [apply insert_perm|].
      constructor; assumption.
Qed.

Lemma sort_sorted (l : list A) : Forall ok l -> sorted before (sort before l).
Proof.
  induction 1 as [|x l Hx Hl IH]; simpl; [constructor|].
  apply insert_sorted; auto using sort_ok.
Qed.

Lemma insert_head (x : A) (l : list A) :
  Forall (fun y => before x y = true) l -> insert before x l = x :: l.
Proof.
  destruct 1 as [|y l Hy _]; simpl; [reflexivity|]. now rewrite Hy.
Qed.

(** Sorting a sorted before array changes nothing. *)
Lemma sort_id (l : list A) : sorted before l -> sort before l = l.
Proof.
  unfold sorted. induction 1 as [|x l _ IH Hall]; simpl; [reflexivity|].
  rewrite IH. now apply insert_head.
Qed.

(** [filter] goes through the insertion into a sorted before array. *)
Lemma filter_insert (p : A -> bool) (x : A) (l : list A) :
  ok x -> Forall ok l -> sorted before l ->
  filter p (insert before x l) =
  if p x then insert before x (filter p l) else filter p l.
Proof.
  unfold sorted. intros Hx Hok Hs. revert Hok.
  induction Hs as [|y l Hs IH Hall]; intros Hok; simpl.
  - destruct (p x); reflexivity.
  - inversion Hok as [|? ? Hy Hl]; subst.
    destruct (before x y) eqn:E; simpl.
    + destruct (p x) eqn:Px; [|reflexivity].
      destruct (p y) eqn:Py; simpl; [now rewrite E|].
      symmetry. apply insert_head.
      apply Forall_forall; intros z Hz.
      apply filter_In in Hz as [Hz _].
      rewrite Forall_forall in Hall, Hl.
      apply (before_trans x y z); auto.
    + rewrite (IH Hl). destruct (p y) eqn:Py; simpl.
      * destruct (p x); [now rewrite E | reflexivity].
      * reflexivity.
Qed.

Lemma filter_sort (p : A -> bool) (l : list A) :
  Forall ok l -> filter p (sort before l) = sort before (filter p l).
Proof.
  induction 1 as [|x l Hx Hl IH]; simpl; [reflexivity|].
  rewrite filter_insert by auto using sort_ok, sort_sorted.
  rewrite IH. destruct (p x); reflexivity.
Qed.

End SortFacts.

(** ** Dates and numerals on examples *)

Example getTime_epoch : JSDate.getTime "1970-01-01" = Some 0.
Proof. reflexivity. Qed.

Example getTime_2024_01_15 : JSDate.getTime "2024-01-15" = Some 1705276800000.
Proof. reflexivity. Qed.

Example getTime_leap_day : JSDate.getTime "2024-02-29T12:00:00.500Z" = Some 1709208000500.
Proof. reflexivity. Qed.

Example getTime_no_such_day : JSDate.getTime "2023-02-29" = None.
Proof. reflexivity. Qed.

Example toFixed_500 : toFixed 2 500 = Decimal "500.00".
Proof. reflexivity. Qed.

Example toFixed_rate : toFixed 4 2 = Decimal "2.0000".
Proof. reflexivity. Qed.

Example toFixed_half_up : toFixed 2 (1 # 8) = Decimal "0.13".
Proof. reflexivity. Qed.

Example toFixed_small : toFixed 3 (1 # 1024) = Decimal "0.001".
Proof. reflexivity. Qed.

Example toFixed_negative : toFixed 2 (- (1 # 1024)) = Decimal "-0.00".
Proof. reflexivity. Qed.

Example toFixed_integer : toFixed 0 (25 # 10) = Decimal "3".
Proof. reflexivity. Qed.

(** ** The day number follows the calendar *)

Lemma InLeapYear_cases (y : Z) :
  (JSDate.InLeapYear y = true /\ JSDate.DayFromYear (y + 1) = JSDate.DayFromYear y + 366)
  \/ (JSDate.InLeapYear y = false /\ JSDate.DayFromYear (y + 1) = JSDate.DayFromYear y + 365).
Proof.
  unfold JSDate.InLeapYear, JSDate.DayFromYear.
  destruct (y mod 4 =? 0) eqn:E4; destruct (y mod 100 =? 0) eqn:E100;
    destruct (y mod 400 =? 0) eqn:E400; cbn [andb orb negb];
    rewrite ?Z.eqb_eq, ?Z.eqb_neq in *;
    first [ left; split; [reflexivity|]; Z.div_mod_to_equations; lia
          | right; split; [reflexivity|]; Z.div_mod_to_equations; lia ].
Qed.

Lemma DayFromYear_mono (y1 y2 : Z) :
  y1 <= y2 -> JSDate.DayFromYear y1 <= JSDate.DayFromYear y2.
Proof.
  unfold JSDate.DayFromYear. intros H. Z.div_mod_to_equations. lia.
Qed.

Lemma month_cases (m : Z) :
  1 <= m <= 12 ->
  m = 1 \/ m = 2 \/ m = 3 \/ m = 4 \/ m = 5 \/ m = 6 \/ m = 7 \/ m = 8
  \/ m = 9 \/ m = 10 \/ m = 11 \/ m = 12.
Proof. lia. Qed.

(** A month ends where the next one starts, and the year's last day is day
    364, or 365 in a leap year. *)
Lemma month_span (y m : Z) :
  1 <= m <= 12 ->
  0 <= JSDate.MonthStart y m
  /\ JSDate.MonthStart y m + JSDate.DaysInMonth y m =
     if m =? 12 then (if JSDate.InLeapYear y then 366 else 365)
     else JSDate.MonthStart y (m + 1).
Proof.
  intros Hm. unfold JSDate.MonthStart, JSDate.DaysInMonth.
  destruct (JSDate.InLeapYear y);
    destruct (month_cases m Hm) as [->|[->|[->|[->|[->|[->|[->|[->|[->|[->|[->| ->]]]]]]]]]]];
    simpl; lia.
Qed.

Lemma MonthStart_mono (y m1 m2 : Z) :
  1 <= m1 -> m1 < m2 -> m2 <= 12 ->
  JSDate.MonthStart y m1 + JSDate.DaysInMonth y m1 <= JSDate.MonthStart y m2.
Proof.
  intros H1 H12 H2.
  assert (Hm1 : 1 <= m1 <= 12) by lia. assert (Hm2 : 1 <= m2 <= 12) by lia.
  unfold JSDate.MonthStart, JSDate.DaysInMonth.
  destruct (JSDate.InLeapYear y);
    destruct (month_cases m1 Hm1) as [->|[->|[->|[->|[->|[->|[->|[->|[->|[->|[->| ->]]]]]]]]]]];
    destruct (month_cases m2 Hm2) as [->|[->|[->|[->|[->|[->|[->|[->|[->|[->|[->| ->]]]]]]]]]]];
    simpl; lia.
Qed.

Lemma MakeDay_in_year (y m d : Z) :
  validDay y m d ->
  JSDate.DayFromYear y <= JSDate.MakeDay y m d < JSDate.DayFromYear (y + 1).
Proof.
  intros [Hm Hd]. unfold JSDate.MakeDay.
  destruct (month_span y m Hm) as [H0 Hspan].
  assert (Hend : JSDate.MonthStart y m + JSDate.DaysInMonth y m <=
                 if JSDate.InLeapYear y then 366 else 365).
  { destruct (Z.eqb_spec m 12) as [->|Hne].
    - rewrite Hspan. lia.
    - assert (H12 : 1 <= 12 <= 12) by lia.
      destruct (month_span y 12 H12) as [_ Hs12]. simpl in Hs12.
      pose proof (MonthStart_mono y m 12 ltac:(lia) ltac:(lia) ltac:(lia)).
      assert (0 <= JSDate.DaysInMonth y 12).
      { unfold JSDate.DaysInMonth. simpl. lia. }
      lia. }
  destruct (InLeapYear_cases y) as [[Hl Hy]|[Hl Hy]]; rewrite Hl in Hend; lia.
Qed.

(** The earlier day of the calendar has the smaller day number. *)
Lemma MakeDay_follows_calendar (y1 m1 d1 y2 m2 d2 : Z) :
  validDay y1 m1 d1 -> validDay y2 m2 d2 ->
  calendarBefore y1 m1 d1 y2 m2 d2 ->
  JSDate.MakeDay y1 m1 d1 < JSDate.MakeDay y2 m2 d2.
Proof.
  intros V1 V2 [Hy | [-> [Hm | [-> Hd]]]].
  - pose proof (MakeDay_in_year y1 m1 d1 V1).
    pose proof (MakeDay_in_year y2 m2 d2 V2).
    pose proof (DayFromYear_mono (y1 + 1) y2 ltac:(lia)). lia.
  - destruct V1 as [Hm1 Hd1], V2 as [Hm2 Hd2]. unfold JSDate.MakeDay.
    pose proof (MonthStart_mono y2 m1 m2 ltac:(lia) Hm ltac:(lia)). lia.
  - unfold JSDate.MakeDay. lia.
Qed.

(** What [parse_date] reads: a day of the calendar, turned into the time of
    its first millisecond. *)
Lemma parse_date_calendar (s : string) (t : Z) :
  JSDate.parse_date s = Some t ->
  exists y m d,
    JSDate.number_at 0 4 s = Some y /\ JSDate.number_at 5 2 s = Some m
    /\ JSDate.number_at 8 2 s = Some d
    /\ validDay y m d /\ t = JSDate.MakeDay y m d * JSDate.msPerDay.
Proof.
  unfold JSDate.parse_date.
  destruct (JSDate.number_at 0 4 s) as [y|]; [|discriminate].
  destruct (JSDate.number_at 5 2 s) as [m|]; [|discriminate].
  destruct (JSDate.number_at 8 2 s) as [d|]; [|discriminate].
  destruct (JSDate.char_is 4 "-" s && JSDate.char_is 7 "-" s
            && (1 <=? m) && (m <=? 12) && (1 <=? d)
            && (d <=? JSDate.DaysInMonth y m)) eqn:E; [|discriminate].
  intros [= <-]. exists y, m, d.
  repeat rewrite andb_true_iff in E. rewrite !Z.leb_le in E.
  unfold validDay. repeat split; tauto.
Qed.

(** Of two dates that [parse_date] reads, the earlier one of the calendar has
    the smaller time: sorting by time is sorting by date. *)
Lemma parse_date_follows_calendar (s1 s2 : string) (t1 t2 y1 m1 d1 y2 m2 d2 : Z) :
  JSDate.parse_date s1 = Some t1 -> JSDate.parse_date s2 = Some t2 ->
  JSDate.number_at 0 4 s1 = Some y1 -> JSDate.number_at 5 2 s1 = Some m1 ->
  JSDate.number_at 8 2 s1 = Some d1 ->
  JSDate.number_at 0 4 s2 = Some y2 -> JSDate.number_at 5 2 s2 = Some m2 ->
  JSDate.number_at 8 2 s2 = Some d2 ->
  calendarBefore y1 m1 d1 y2 m2 d2 -> t1 < t2.
Proof.
  intros P1 P2 Y1 M1 D1 Y2 M2 D2 Hbefore.
  destruct (parse_date_calendar s1 t1 P1) as (a & b & c & Ha & Hb & Hc & V1 & ->).
  destruct (parse_date_calendar s2 t2 P2) as (a' & b' & c' & Ha' & Hb' & Hc' & V2 & ->).
  assert (a = y1) by congruence. assert (b = m1) by congruence.
  assert (c = d1) by congruence. assert (a' = y2) by congruence.
  assert (b' = m2) by congruence. assert (c' = d2) by congruence. subst.
  pose proof (MakeDay_follows_calendar y1 m1 d1 y2 m2 d2 V1 V2 Hbefore).
  unfold JSDate.msPerDay. lia.
Qed.

(** ** Strings on examples *)

Example search_ignores_case :
  Str.includes (Str.toLowerCase "M-1/10/123") (Str.toLowerCase "m-1/10") = true.
Proof. reflexivity. Qed.

Example search_no_match :
  Str.includes (Str.toLowerCase "M-1/10/123") (Str.toLowerCase "124") = false.
Proof. reflexivity. Qed.

Example date_bounds_on_strings :
  Str.geb "2024-02-01" "2024-01-31" = true /\ String.leb "2024-02-01" "2024-01-31" = false.
Proof. split; reflexivity. Qed.

Example month_key : substring 0 7 "2024-01-15" = "2024-01"%string.
Proof. reflexivity. Qed.

(** ** Facts on maps *)

Section JSMapFacts.

Context {K V : Type}.
Variable eqb : K -> K -> bool.
Hypothesis eqb_eq : forall a b, eqb a b = true <-> a = b.

Lemma eqb_same (k : K) : eqb k k = true.
Proof. now apply eqb_eq. Qed.

Lemma eqb_other (a b : K) : a <> b -> eqb a b = false.
Proof.
  intros H. destruct (eqb a b) eqn:E; [|reflexivity].
  apply eqb_eq in E. contradiction.
Qed.

Lemma eqb_swap (a b : K) : eqb a b = eqb b a.
Proof.
  destruct (eqb a b) eqn:E.
  - apply eqb_eq in E; subst b. symmetry. apply eqb_same.
  - symmetry. apply eqb_other. intros ->. now rewrite eqb_same in E.
Qed.

Lemma map_has_get (k : K) (m : list (K * V)) :
  map_has eqb k m = match map_get eqb k m with Some _ => true | None => false end.
Proof.
  induction m as [|[k' v] m IH]; simpl; [reflexivity|].
  destruct (eqb k' k); simpl; [reflexivity | exact IH].
Qed.

Lemma map_set_new (k : K) (v : V) (m : list (K * V)) :
  map_has eqb k m = false -> map_set eqb k v m = m ++ [(k, v)].
Proof.
  induction m as [|[k' v'] m IH]; simpl; [reflexivity|].
  destruct (eqb k' k); simpl; [discriminate|].
  intros H. now rewrite IH.
Qed.

Lemma map_get_set (k k' : K) (v : V) (m : list (K * V)) :
  map_get eqb k' (map_set eqb k v m) =
  if eqb k k' then Some v else map_get eqb k' m.
Proof.
  induction m as [|[k0 v0] m IH]; simpl.
  - reflexivity.
  - destruct (eqb k0 k) eqn:E; simpl.
    + apply eqb_eq in E; subst k0.
      destruct (eqb k k'); reflexivity.
    + rewrite IH. destruct (eqb k0 k') eqn:E'; [|reflexivity].
      apply eqb_eq in E'; subst k0. now rewrite eqb_swap, E.
Qed.

Lemma map_get_mutate (k k' : K) (f : V -> V) (m : list (K * V)) :
  map_get eqb k' (map_mutate eqb k f m) =
  if eqb k k' then option_map f (map_get eqb k' m) else map_get eqb k' m.
Proof.
  induction m as [|[k0 v0] m IH]; simpl.
  - destruct (eqb k k'); reflexivity.
  - destruct (eqb k0 k) eqn:E; simpl.
    + apply eqb_eq in E; subst k0.
      destruct (eqb k k'); reflexivity.
    + rewrite IH. destruct (eqb k0 k') eqn:E'; [|reflexivity].
      apply eqb_eq in E'; subst k0. now rewrite eqb_swap, E.
Qed.

(** What [map_upsert] leaves under each key. *)
Lemma map_get_upsert (k k' : K) (init : V) (f : V -> V) (m : list (K * V)) :
  map_get eqb k' (map_upsert eqb k init f m) =
  if eqb k k'
  then Some (f (match map_get eqb k m with Some v => v | None => init end))
  else map_get eqb k' m.
Proof.
  unfold map_upsert. rewrite map_get_mutate.
  destruct (eqb k k') eqn:E.
  - apply eqb_eq in E; subst k'.
    rewrite map_has_get. destruct (map_get eqb k m) eqn:G.
    + now rewrite G.
    + now rewrite map_get_set, eqb_same.
  - destruct (map_has eqb k m); [reflexivity|].
    now rewrite map_get_set, E.
Qed.

Lemma map_mutate_keys (k : K) (f : V -> V) (m : list (K * V)) :
  map fst (map_mutate eqb k f m) = map fst m.
Proof.
  induction m as [|[k' v] m IH]; simpl; [reflexivity|].
  destruct (eqb k' k); simpl; [reflexivity | now rewrite IH].
Qed.

Lemma map_has_keys (k : K) (m : list (K * V)) :
  map_has eqb k m = true <-> In k (map fst m).
Proof.
  induction m as [|[k' v] m IH]; simpl; [split; [discriminate | tauto]|].
  rewrite orb_true_iff, IH, eqb_eq. tauto.
Qed.

(** Each key is met once. *)
Lemma map_upsert_keys_NoDup (k : K) (init : V) (f : V -> V) (m : list (K * V)) :
  NoDup (map fst m) -> NoDup (map fst (map_upsert eqb k init f m)).
Proof.
  intros Hnd. unfold map_upsert. rewrite map_mutate_keys.
  destruct (map_has eqb k m) eqn:H; [exact Hnd|].
  rewrite map_set_new by exact H. rewrite map_app; simpl.
  apply NoDup_app; [exact Hnd | repeat constructor; intros [] |].
  intros k' Hk' [<- | []].
  apply map_has_keys in Hk'. congruence.
Qed.

Lemma map_get_of_entry (k : K) (v : V) (m : list (K * V)) :
  NoDup (map fst m) -> In (k, v) m -> map_get eqb k m = Some v.
Proof.
  induction m as [|[k' v'] m IH]; simpl; [tauto|].
  intros Hnd [[= -> ->] | Hin].
  - now rewrite eqb_same.
  - inversion Hnd as [|? ? Hnotin Hnd']; subst.
    destruct (eqb k' k) eqn:E.
    + apply eqb_eq in E; subst k'. exfalso. apply Hnotin.
      change k with (fst (k, v)). now apply in_map.
    + now apply IH.
Qed.

Lemma map_get_entry (k : K) (v : V) (m : list (K * V)) :
  map_get eqb k m = Some v -> In (k, v) m.
Proof.
  induction m as [|[k' v'] m IH]; simpl; [discriminate|].
  destruct (eqb k' k) eqn:E.
  - apply eqb_eq in E; subst k'. intros [= ->]. now left.
  - intros H. right. now apply IH.
Qed.

End JSMapFacts.

(** ** The deduction total, and the summaries of the sample bills *)

Lemma Zeqb_eq (a b : Z) : (a =? b) = true <-> a = b.
Proof. apply Z.eqb_eq. Qed.

Lemma deductions_fold_total (bills : list SavedBill.t) (s : DeductionsSummary.t) :
  DeductionsSummary.total (fold_left deductionsStep bills s) =
  Qplus (DeductionsSummary.total s) (Num.sum (map SavedBill.totalDeductions bills)).
Proof.
  revert s. induction bills as [|bill bills IH]; intros s; simpl.
  - now rewrite NumFacts.sum_nil, NumFacts.plus_0_r.
  - rewrite IH. simpl. now rewrite NumFacts.sum_cons, NumFacts.plus_assoc.
Qed.

Lemma deductionsSummary_total (bills : list SavedBill.t) :
  DeductionsSummary.total (deductionsSummary bills) =
  Num.sum (map SavedBill.totalDeductions bills).
Proof.
  unfold deductionsSummary. rewrite deductions_fold_total. simpl.
  apply NumFacts.plus_0_l.
Qed.

Example contractorSummary_acme :
  contractorSummary (filteredBills [bill_acme] [] noFilter) =
  [ContractorGroup.mk "Acme" 1 1000 100 900].
Proof. reflexivity. Qed.

Example monthlySummary_sample :
  monthlySummary (filteredBills (savedBills props_acme) [] noFilter) =
  [MonthGroup.mk "2024-02" 1 1000 80 920; MonthGroup.mk "2024-01" 2 2000 200 1800].
Proof. reflexivity. Qed.

Example deductionsSummary_sample :
  let s := deductionsSummary (filteredBills (savedBills props_acme) [] noFilter) in
  DeductionsSummary.total s = 280%Q
  /\ CalculatedDeductions.amount (DeductionsSummary.byKey s) penalty = Some 30%Q
  /\ CalculatedDeductions.amount (DeductionsSummary.byKey s) others = Some 50%Q
  /\ CalculatedDeductions.amount (DeductionsSummary.byKey s) klc = None.
Proof. repeat split. Qed.

(** ** The statement generator (C2, C10, C7) *)

(** C2.  For every filter state whose contractor selector is ["all"],
    statement generation raises the alert that asks for a specific
    contractor and changes nothing: no statement data is set, and whatever
    the state held stays as it was. *)
Theorem statement_requires_contractor (p : Props) (st : State) :
  selectedContractorId (filters st) = all ->
  handleGenerateStatement p st =
    (st, ["Please select a specific contractor to generate a statement."%string])
  /\ statementData (fst (handleGenerateStatement p st)) = statementData st.
Proof.
  intros Hall. unfold handleGenerateStatement. rewrite Hall.
  split; reflexivity.
Qed.

Lemma find_none_when_absent (n : Z) (cs : list Contractor.t) :
  (forall c, In c cs -> Contractor.id c <> n) ->
  find (fun c => Contractor.id c =? n) cs = None.
Proof.
  induction cs as [|c cs IH]; intros H; simpl; [reflexivity|].
  destruct (Contractor.id c =? n) eqn:E.
  - apply Z.eqb_eq in E. exfalso. apply (H c); [now left | exact E].
  - apply IH. intros c' Hc'. apply H. now right.
Qed.

(** C10.  For every filter state whose contractor selector is a specific id
    that no contractor of the list carries, statement generation returns
    the state as it was and raises no alert. *)
Theorem statement_unknown_contractor_is_silent (p : Props) (st : State) (n : Z) :
  selectedContractorId (filters st) = contractorId n ->
  (forall c, In c (contractors p) -> Contractor.id c <> n) ->
  handleGenerateStatement p st = (st, []).
Proof.
  intros Hsel Habsent. unfold handleGenerateStatement. rewrite Hsel.
  now rewrite (find_none_when_absent n (contractors p) Habsent).
Qed.

Lemma key_eqb_eq (a b : DeductionKey) :
  CalculatedDeductions.key_eqb a b = true <-> a = b.
Proof.
  destruct a, b; simpl; split; intros H; try reflexivity; discriminate.
Qed.

Lemma DEDUCTION_KEYS_NoDup : NoDup DEDUCTION_KEYS.
Proof.
  unfold DEDUCTION_KEYS.
  repeat (constructor; [simpl; intuition discriminate|]). constructor.
Qed.

Lemma rollUpKey_description (d acc : CalculatedDeductions.t) (key : DeductionKey) :
  CalculatedDeductions.others_description (rollUpKey d acc key) =
  CalculatedDeductions.others_description acc.
Proof.
  unfold rollUpKey. destruct (CalculatedDeductions.amount d key); reflexivity.
Qed.

(** The value under [k] after the loop over the keys [ks]. *)
Lemma rollUp_fold (d : CalculatedDeductions.t) (k : DeductionKey)
    (ks : list DeductionKey) (acc : CalculatedDeductions.t) :
  NoDup ks ->
  CalculatedDeductions.amount (fold_left (rollUpKey d) ks acc) k =
  if existsb (CalculatedDeductions.key_eqb k) ks
  then match CalculatedDeductions.amount d k with
       | Some v => Some (Qplus (orZero (CalculatedDeductions.amount acc k)) v)
       | None => CalculatedDeductions.amount acc k
       end
  else CalculatedDeductions.amount acc k.
Proof.
  intros Hnd. revert acc.
  induction Hnd as [|key ks Hnotin Hnd IH]; intros acc; simpl; [reflexivity|].
  rewrite IH.
  destruct (CalculatedDeductions.key_eqb k key) eqn:E; simpl.
  - apply key_eqb_eq in E; subst key.
    assert (Hex : existsb (CalculatedDeductions.key_eqb k) ks = false).
    { destruct (existsb _ ks) eqn:Ex; [|reflexivity].
      apply existsb_exists in Ex as [k' [Hin Hk']].
      apply key_eqb_eq in Hk'; subst k'. contradiction. }
    rewrite Hex. unfold rollUpKey.
    destruct (CalculatedDeductions.amount d k); simpl; [|reflexivity].
    assert (Hkk : CalculatedDeductions.key_eqb k k = true) by now apply key_eqb_eq.
    now rewrite Hkk.
  - assert (Hsame : CalculatedDeductions.amount (rollUpKey d acc key) k =
                    CalculatedDeductions.amount acc k).
    { unfold rollUpKey. destruct (CalculatedDeductions.amount d key); simpl;
        [now rewrite E | reflexivity]. }
    now rewrite Hsame.
Qed.

Lemma numeric_keys_NoDup (d : CalculatedDeductions.t) :
  NoDup (CalculatedDeductions.numeric_keys d).
Proof. apply NoDup_filter, DEDUCTION_KEYS_NoDup. Qed.

Lemma statementStep_key (acc : StatementSummary.t) (bill : SavedBill.t)
    (k : DeductionKey) :
  orZero (CalculatedDeductions.amount
            (StatementSummary.deductions (statementStep acc bill)) k) =
  Qplus (orZero (CalculatedDeductions.amount (StatementSummary.deductions acc) k))
        (orZero (CalculatedDeductions.amount (SavedBill.deductions bill) k)).
Proof.
  unfold statementStep; simpl.
  rewrite rollUp_fold by apply numeric_keys_NoDup.
  destruct (CalculatedDeductions.amount (SavedBill.deductions bill) k) as [v|] eqn:Ev.
  - assert (Hin : existsb (CalculatedDeductions.key_eqb k)
                    (CalculatedDeductions.numeric_keys (SavedBill.deductions bill)) = true).
    { apply existsb_exists. exists k. split; [|now apply key_eqb_eq].
      apply filter_In. split; [destruct k; simpl; tauto | now rewrite Ev]. }
    now rewrite Hin.
  - simpl. rewrite NumFacts.plus_0_r. now destruct (existsb _ _).
Qed.

Lemma statementStep_description (acc : StatementSummary.t) (bill : SavedBill.t) :
  CalculatedDeductions.others_description
    (StatementSummary.deductions (statementStep acc bill)) =
  CalculatedDeductions.others_description (StatementSummary.deductions acc).
Proof.
  unfold statementStep; simpl.
  generalize (StatementSummary.deductions acc).
  induction (CalculatedDeductions.numeric_keys (SavedBill.deductions bill))
    as [|key ks IH]; intros a; simpl; [reflexivity|].
  now rewrite IH, rollUpKey_description.
Qed.

Lemma statement_fold (bills : list SavedBill.t) (acc : StatementSummary.t)
    (k : DeductionKey) :
  orZero (CalculatedDeductions.amount
            (StatementSummary.deductions (fold_left statementStep bills acc)) k) =
  Qplus (orZero (CalculatedDeductions.amount (StatementSummary.deductions acc) k))
        (categoryTotal k bills)
  /\ CalculatedDeductions.others_description
       (StatementSummary.deductions (fold_left statementStep bills acc)) =
     CalculatedDeductions.others_description (StatementSummary.deductions acc).
Proof.
  revert acc. induction bills as [|bill bills IH]; intros acc; simpl.
  - split; [|reflexivity].
    unfold categoryTotal; simpl. now rewrite NumFacts.sum_nil, NumFacts.plus_0_r.
  - destruct (IH (statementStep acc bill)) as [IHk IHd]. split.
    + rewrite IHk, statementStep_key. unfold categoryTotal; simpl.
      now rewrite NumFacts.sum_cons, NumFacts.plus_assoc.
    + now rewrite IHd, statementStep_description.
Qed.

Lemma statementStep_absent (acc : StatementSummary.t) (bill : SavedBill.t)
    (k : DeductionKey) :
  CalculatedDeductions.amount
    (StatementSummary.deductions (statementStep acc bill)) k = None <->
  CalculatedDeductions.amount (StatementSummary.deductions acc) k = None
  /\ CalculatedDeductions.amount (SavedBill.deductions bill) k = None.
Proof.
  unfold statementStep; simpl.
  rewrite rollUp_fold by apply numeric_keys_NoDup.
  destruct (CalculatedDeductions.amount (SavedBill.deductions bill) k) as [v|] eqn:Ev.
  - assert (Hin : existsb (CalculatedDeductions.key_eqb k)
                    (CalculatedDeductions.numeric_keys (SavedBill.deductions bill)) = true).
    { apply existsb_exists. exists k. split; [|now apply key_eqb_eq].
      apply filter_In. split; [destruct k; simpl; tauto | now rewrite Ev]. }
    rewrite Hin. split; [discriminate | intros [_ H]; discriminate].
  - destruct (existsb _ _); tauto.
Qed.

(** A key is absent from the roll-up exactly when it is absent from the
    accumulator and from every bill. *)
Lemma statement_fold_absent (bills : list SavedBill.t) (acc : StatementSummary.t)
    (k : DeductionKey) :
  CalculatedDeductions.amount
    (StatementSummary.deductions (fold_left statementStep bills acc)) k = None <->
  CalculatedDeductions.amount (StatementSummary.deductions acc) k = None
  /\ Forall (fun b => CalculatedDeductions.amount (SavedBill.deductions b) k = None)
            bills.
Proof.
  revert acc. induction bills as [|bill bills IH]; intros acc; simpl.
  - split; [intros H; split; [exact H | constructor] | tauto].
  - rewrite IH, statementStep_absent. split.
    + intros [[Ha Hb] Hl]. split; [exact Ha | now constructor].
    + intros [Ha Hl]. inversion Hl; subst. tauto.
Qed.

(** C7, as amended.  For every statement generation with a specific
    contractor that the contractor list resolves, a snapshot is set whose
    bills are the filtered bills of that contractor and whose deduction
    roll-up holds, for each numeric category ("others" included), the sum of
    that category's value over those bills, a category that no bill holds
    being absent from it; the "others" description is not added up. *)
Theorem statement_rollup (p : Props) (st : State) (n : Z) (c : Contractor.t) :
  selectedContractorId (filters st) = contractorId n ->
  find (fun c => Contractor.id c =? n) (contractors p) = Some c ->
  exists snapshot,
    handleGenerateStatement p st =
      (mkState ReportTab.statement (filters st) (Some snapshot), [])
    /\ StatementData.contractorName snapshot = Contractor.name c
    /\ StatementData.bills snapshot =
         filter (fun b => id_is (SavedBill.contractor_id b) n)
                (filteredBills (savedBills p) (contracts p) (filters st))
    /\ (forall k,
          orZero (CalculatedDeductions.amount
                    (StatementSummary.deductions (StatementData.summary snapshot)) k) =
          categoryTotal k (StatementData.bills snapshot)
          /\ (CalculatedDeductions.amount
                (StatementSummary.deductions (StatementData.summary snapshot)) k = None <->
              Forall (fun b => CalculatedDeductions.amount (SavedBill.deductions b) k = None)
                     (StatementData.bills snapshot))).
Proof.
  intros Hsel Hfind. unfold handleGenerateStatement. rewrite Hsel, Hfind.
  eexists. split; [reflexivity|]. simpl.
  split; [reflexivity|]. split; [reflexivity|].
  intros k. unfold statementSummary. split.
  - rewrite (proj1 (statement_fold _ _ k)). simpl. apply NumFacts.plus_0_l.
  - rewrite statement_fold_absent. simpl. tauto.
Qed.

(** The roll-up of a list of bills has no "others" description, whatever
    the bills describe: the loop passes over that key. *)
Lemma statementSummary_description (bills : list SavedBill.t) :
  CalculatedDeductions.others_description
    (StatementSummary.deductions (statementSummary bills)) = None.
Proof.
  unfold statementSummary. now rewrite (proj2 (statement_fold _ _ penalty)).
Qed.

(** C7, as stated, fails: the one bill of the statement describes its
    "others" amount as "Misc", the roll-up adds up the amount, and the
    snapshot's roll-up carries no description. *)
Lemma statement_drops_description :
  exists snapshot,
    handleGenerateStatement (mkProps [bill_misc] [Contractor.mk 7 "Acme"] [] [])
                            state_acme =
      (mkState ReportTab.statement (filters state_acme) (Some snapshot), [])
    /\ StatementData.bills snapshot = [bill_misc]
    /\ CalculatedDeductions.others_description (SavedBill.deductions bill_misc) =
       Some "Misc"%string
    /\ CalculatedDeductions.amount
         (StatementSummary.deductions (StatementData.summary snapshot)) others =
       Some 50%Q
    /\ CalculatedDeductions.others_description
         (StatementSummary.deductions (StatementData.summary snapshot)) = None.
Proof.
  eexists. split; [reflexivity|]. repeat split.
Qed.

(** With nothing selected, the sample state gets the alert and stays as it
    is. *)
Lemma statement_requires_contractor_witness :
  selectedContractorId (filters state_all) = all
  /\ handleGenerateStatement props_acme state_all =
       (state_all, ["Please select a specific contractor to generate a statement."%string])
  /\ statementData (fst (handleGenerateStatement props_acme state_all)) =
     statementData state_all.
Proof.
  split; [reflexivity|].
  apply (statement_requires_contractor props_acme state_all). reflexivity.
Defined.

(** Contractor 8 is not in the sample list: nothing happens. *)
Lemma statement_unknown_contractor_witness :
  selectedContractorId (filters state_unknown) = contractorId 8
  /\ handleGenerateStatement props_acme state_unknown = (state_unknown, []).
Proof.
  split; [reflexivity|].
  apply (statement_unknown_contractor_is_silent props_acme state_unknown 8).
  - reflexivity.
  - simpl. intros c [<-|[]]. discriminate.
Defined.

(** The statement of contractor 7 over the sample bills. *)
Lemma statement_rollup_witness :
  exists snapshot,
    handleGenerateStatement props_acme state_acme =
      (mkState ReportTab.statement (filters state_acme) (Some snapshot), [])
    /\ StatementData.contractorName snapshot = "Acme"%string
    /\ StatementData.bills snapshot =
         filter (fun b => id_is (SavedBill.contractor_id b) 7)
                (filteredBills (savedBills props_acme) (contracts props_acme)
                               (filters state_acme))
    /\ (forall k,
          orZero (CalculatedDeductions.amount
                    (StatementSummary.deductions (StatementData.summary snapshot)) k) =
          categoryTotal k (StatementData.bills snapshot)
          /\ (CalculatedDeductions.amount
                (StatementSummary.deductions (StatementData.summary snapshot)) k = None <->
              Forall (fun b => CalculatedDeductions.amount (SavedBill.deductions b) k = None)
                     (StatementData.bills snapshot))).
Proof.
  apply (statement_rollup props_acme state_acme 7 (Contractor.mk 7 "Acme"));
    reflexivity.
Defined.

(** ** The station map, item by item *)

Lemma stationEntry_withStation (name other : string) (f : Station.t -> Station.t)
    (m : list (string * Station.t)) :
  stationEntry other (withStation name f m) =
  if String.eqb name other then f (stationEntry name m) else stationEntry other m.
Proof.
  unfold stationEntry, withStation.
  rewrite (map_get_upsert String.eqb String.eqb_eq).
  destruct (String.eqb name other); reflexivity.
Qed.

Lemma map_get_withStation_other (name other : string) (f : Station.t -> Station.t)
    (m : list (string * Station.t)) :
  name <> other ->
  map_get String.eqb other (withStation name f m) = map_get String.eqb other m.
Proof.
  intros Hne. unfold withStation.
  rewrite (map_get_upsert String.eqb String.eqb_eq).
  now rewrite (proj2 (String.eqb_neq name other) Hne).
Qed.

(** One turn of the item loop, for an item whose origin A and destination
    B differ, from any station map: A's three dispatched counters take the
    item and its received counters stay, B's two received counters take the
    item and its dispatched counters stay, both have an entry afterwards,
    and the entry of every other station is untouched. *)
Lemma stationItemStep_accrual (bill : SavedBill.t) (item : BillItem.t)
    (stationMap : list (string * Station.t)) :
  BillItem.from item <> BillItem.to item ->
  let A := BillItem.from item in
  let B := BillItem.to item in
  let after := stationItemStep bill stationMap item in
  (Station.dispatchedTrips (stationEntry A after) =
     Station.dispatchedTrips (stationEntry A stationMap) + 1
   /\ Station.dispatchedKgs (stationEntry A after) =
        Qplus (Station.dispatchedKgs (stationEntry A stationMap)) (BillItem.netKgs item)
   /\ Station.dispatchedValue (stationEntry A after) =
        Qplus (Station.dispatchedValue (stationEntry A stationMap)) (BillItem.rs item)
   /\ Station.receivedTrips (stationEntry A after) =
        Station.receivedTrips (stationEntry A stationMap)
   /\ Station.receivedKgs (stationEntry A after) =
        Station.receivedKgs (stationEntry A stationMap))
  /\ (Station.receivedTrips (stationEntry B after) =
        Station.receivedTrips (stationEntry B stationMap) + 1
      /\ Station.receivedKgs (stationEntry B after) =
           Qplus (Station.receivedKgs (stationEntry B stationMap)) (BillItem.netKgs item)
      /\ Station.dispatchedTrips (stationEntry B after) =
           Station.dispatchedTrips (stationEntry B stationMap)
      /\ Station.dispatchedKgs (stationEntry B after) =
           Station.dispatchedKgs (stationEntry B stationMap)
      /\ Station.dispatchedValue (stationEntry B after) =
           Station.dispatchedValue (stationEntry B stationMap))
  /\ (map_has String.eqb A after = true /\ map_has String.eqb B after = true)
  /\ (forall other, other <> A -> other <> B ->
        map_get String.eqb other after = map_get String.eqb other stationMap).
Proof.
  intros Hne A B after. subst A B after. unfold stationItemStep.
  set (A := BillItem.from item) in *. set (B := BillItem.to item) in *.
  assert (HAB : String.eqb A B = false) by now apply String.eqb_neq.
  assert (HBA : String.eqb B A = false).
  { apply String.eqb_neq. intros E. apply Hne. now symmetry. }
  repeat rewrite stationEntry_withStation.
  rewrite HAB, HBA, !String.eqb_refl.
  split; [|split; [|split]].
  - repeat split.
  - repeat split.
  - rewrite !(map_has_get String.eqb).
    unfold withStation.
    rewrite !(map_get_upsert String.eqb String.eqb_eq).
    now rewrite HBA, !String.eqb_refl.
  - intros other HA HB.
    rewrite !map_get_withStation_other; [reflexivity| |].
    + intros E. apply HA. now symmetry.
    + intros E. apply HB. now symmetry.
Qed.

(** The scenario of the specification. *)
Example stationSummary_acme :
  stationSummary [bill_acme] =
  [Station.mk "X" 1 500 1000 0 0 ["b1"%string];
   Station.mk "Y" 0 0 0 1 500 ["b1"%string]].
Proof. reflexivity. Qed.

(** The counters of a station over a whole pass: what the items that leave
    from it and the items that arrive at it add up to, whether or not an
    item's two stations differ. *)

Lemma accrued_refl (name : string) (e : Station.t) : accrued name [] e e.
Proof.
  unfold accrued; simpl.
  rewrite NumFacts.sum_nil, !NumFacts.plus_0_r, !Z.add_0_r. tauto.
Qed.

Lemma accrued_app (name : string) (l1 l2 : list BillItem.t) (e0 e1 e2 : Station.t) :
  accrued name l1 e0 e1 -> accrued name l2 e1 e2 -> accrued name (l1 ++ l2) e0 e2.
Proof.
  unfold accrued, dispatchedFrom, receivedAt.
  intros (a1 & a2 & a3 & a4 & a5) (b1 & b2 & b3 & b4 & b5).
  rewrite !filter_app, !map_app, !NumFacts.sum_app, !length_app, !Nat2Z.inj_add.
  rewrite b1, b2, b3, b4, b5, a1, a2, a3, a4, a5.
  rewrite !NumFacts.plus_assoc. repeat split; lia.
Qed.

Lemma accrued_step (name : string) (bill : SavedBill.t) (item : BillItem.t)
    (m : list (string * Station.t)) :
  accrued name [item] (stationEntry name m)
          (stationEntry name (stationItemStep bill m item)).
Proof.
  unfold stationItemStep.
  rewrite (stationEntry_withStation (BillItem.to item) name).
  rewrite (stationEntry_withStation (BillItem.from item) name).
  unfold accrued, dispatchedFrom, receivedAt; simpl.
  destruct (String.eqb (BillItem.to item) name) eqn:Et.
  - apply String.eqb_eq in Et. rewrite Et, stationEntry_withStation.
    destruct (String.eqb (BillItem.from item) name) eqn:Ef; simpl.
    + apply String.eqb_eq in Ef. rewrite Ef. simpl.
      rewrite !NumFacts.sum_cons, !NumFacts.sum_nil, !NumFacts.plus_0_r.
      repeat split.
    + rewrite !NumFacts.sum_cons, !NumFacts.sum_nil, !NumFacts.plus_0_r, Z.add_0_r.
      repeat split.
  - destruct (String.eqb (BillItem.from item) name) eqn:Ef; simpl.
    + apply String.eqb_eq in Ef. rewrite Ef. simpl.
      rewrite !NumFacts.sum_cons, !NumFacts.sum_nil, !NumFacts.plus_0_r, Z.add_0_r.
      repeat split.
    + rewrite !NumFacts.sum_nil, !NumFacts.plus_0_r, !Z.add_0_r. repeat split.
Qed.

Lemma accrued_items (name : string) (bill : SavedBill.t) (items : list BillItem.t)
    (m : list (string * Station.t)) :
  accrued name items (stationEntry name m)
          (stationEntry name (fold_left (stationItemStep bill) items m)).
Proof.
  revert m. induction items as [|item items IH]; intros m; simpl.
  - apply accrued_refl.
  - apply (accrued_app name [item] items _ _ _ (accrued_step name bill item m)).
    apply IH.
Qed.

Lemma accrued_bills (name : string) (bills : list SavedBill.t)
    (m : list (string * Station.t)) :
  accrued name (allItems bills) (stationEntry name m)
    (stationEntry name
       (fold_left (fun m bill =>
                     fold_left (stationItemStep bill) (SavedBill.bill_items bill) m)
                  bills m)).
Proof.
  revert m. induction bills as [|bill bills IH]; intros m; simpl.
  - apply accrued_refl.
  - eapply accrued_app; [apply accrued_items | apply IH].
Qed.

(** In the map of a whole pass each station has dispatched the items that
    leave from it, and only them, and received the items that arrive at it,
    and only them. *)
Theorem stationMapOf_counts (name : string) (bills : list SavedBill.t) :
  let e := stationEntry name (stationMapOf bills) in
  Station.dispatchedTrips e = Z.of_nat (List.length (dispatchedFrom name (allItems bills)))
  /\ Station.dispatchedKgs e =
       Num.sum (map BillItem.netKgs (dispatchedFrom name (allItems bills)))
  /\ Station.dispatchedValue e =
       Num.sum (map BillItem.rs (dispatchedFrom name (allItems bills)))
  /\ Station.receivedTrips e = Z.of_nat (List.length (receivedAt name (allItems bills)))
  /\ Station.receivedKgs e =
       Num.sum (map BillItem.netKgs (receivedAt name (allItems bills))).
Proof.
  destruct (accrued_bills name bills []) as (a1 & a2 & a3 & a4 & a5).
  unfold stationMapOf. simpl.
  rewrite a1, a2, a3, a4, a5. unfold stationEntry; simpl.
  rewrite !NumFacts.plus_0_l. repeat split.
Qed.

(** ** The entries of the station summary *)

Lemma withStation_ok (name : string) (f : Station.t -> Station.t)
    (m : list (string * Station.t)) :
  (forall s, Station.name (f s) = Station.name s) ->
  stationMapOK m -> stationMapOK (withStation name f m).
Proof.
  intros Hf [Hnd Hname]. split.
  - apply (map_upsert_keys_NoDup String.eqb String.eqb_eq), Hnd.
  - intros k s Hin.
    apply (map_get_of_entry String.eqb String.eqb_eq) in Hin;
      [|apply (map_upsert_keys_NoDup String.eqb String.eqb_eq), Hnd].
    unfold withStation in Hin.
    rewrite (map_get_upsert String.eqb String.eqb_eq) in Hin.
    destruct (String.eqb name k) eqn:E.
    + apply String.eqb_eq in E; subst k. injection Hin as <-. rewrite Hf.
      destruct (map_get String.eqb name m) as [s0|] eqn:G; [|reflexivity].
      apply Hname. now apply (map_get_entry String.eqb String.eqb_eq).
    + apply Hname. now apply (map_get_entry String.eqb String.eqb_eq).
Qed.

Lemma stationItemStep_ok (bill : SavedBill.t) (item : BillItem.t)
    (m : list (string * Station.t)) :
  stationMapOK m -> stationMapOK (stationItemStep bill m item).
Proof.
  intros H. unfold stationItemStep.
  apply withStation_ok; [reflexivity|]. apply withStation_ok; [reflexivity|exact H].
Qed.

Lemma stationMapOf_ok (bills : list SavedBill.t) : stationMapOK (stationMapOf bills).
Proof.
  unfold stationMapOf.
  assert (H0 : stationMapOK []) by (split; [constructor | intros k s []]).
  revert H0. generalize (@nil (string * Station.t)) as m.
  induction bills as [|bill bills IH]; intros m Hm; simpl; [exact Hm|].
  apply IH. revert m Hm.
  induction (SavedBill.bill_items bill) as [|item items IHi]; intros m Hm; simpl;
    [exact Hm|].
  apply IHi, stationItemStep_ok, Hm.
Qed.

(** X20.  Every entry of the Station Summary is the entry of its station
    in the map, so its counters are those of the items that leave from and
    arrive at that station. *)
Theorem stationSummary_counts (bills : list SavedBill.t) (e : Station.t) :
  In e (stationSummary bills) ->
  Station.dispatchedTrips e =
    Z.of_nat (List.length (dispatchedFrom (Station.name e) (allItems bills)))
  /\ Station.dispatchedKgs e =
       Num.sum (map BillItem.netKgs (dispatchedFrom (Station.name e) (allItems bills)))
  /\ Station.dispatchedValue e =
       Num.sum (map BillItem.rs (dispatchedFrom (Station.name e) (allItems bills)))
  /\ Station.receivedTrips e =
       Z.of_nat (List.length (receivedAt (Station.name e) (allItems bills)))
  /\ Station.receivedKgs e =
       Num.sum (map BillItem.netKgs (receivedAt (Station.name e) (allItems bills))).
Proof.
  intros Hin. unfold stationSummary in Hin.
  apply (Permutation_in _ (Permutation_sym (sort_perm _ _))) in Hin.
  unfold map_values in Hin. apply in_map_iff in Hin as [[k s] [Hs Hks]].
  simpl in Hs; subst s.
  destruct (stationMapOf_ok bills) as [Hnd Hname].
  pose proof (Hname k e Hks) as Hk. subst k.
  apply (map_get_of_entry String.eqb String.eqb_eq _ _ _ Hnd) in Hks.
  pose proof (stationMapOf_counts (Station.name e) bills) as Hc.
  unfold stationEntry in Hc. rewrite Hks in Hc. exact Hc.
Qed.

(** ** The bill filter (C3, C9) *)

Lemma newerFirst_total (a b : SavedBill.t) :
  dated a -> dated b -> newerFirst a b = true \/ newerFirst b a = true.
Proof.
  unfold dated, newerFirst. intros Ha Hb.
  destruct (JSDate.getTime (SavedBill.bill_date a)) as [ta|]; [|contradiction].
  destruct (JSDate.getTime (SavedBill.bill_date b)) as [tb|]; [|contradiction].
  rewrite !Z.leb_le. lia.
Qed.

Lemma newerFirst_trans (a b c : SavedBill.t) :
  dated a -> dated b -> dated c ->
  newerFirst a b = true -> newerFirst b c = true -> newerFirst a c = true.
Proof.
  unfold dated, newerFirst. intros Ha Hb Hc.
  destruct (JSDate.getTime (SavedBill.bill_date a)) as [ta|]; [|contradiction].
  destruct (JSDate.getTime (SavedBill.bill_date b)) as [tb|]; [|contradiction].
  destruct (JSDate.getTime (SavedBill.bill_date c)) as [tc|]; [|contradiction].
  rewrite !Z.leb_le. lia.
Qed.

Lemma Forall_filter_keep {A : Type} (P : A -> Prop) (p : A -> bool) (l : list A) :
  Forall P l -> Forall P (filter p l).
Proof.
  rewrite !Forall_forall. intros H x Hx. apply H.
  now apply filter_In in Hx as [Hx _].
Qed.

Lemma sorted_newestFirst (l : list SavedBill.t) :
  Forall dated l -> sorted newerFirst l -> newestFirst l.
Proof.
  unfold sorted, newestFirst. intros Hd Hs.
  induction Hs as [|a l Hs IH Hall]; [constructor|].
  inversion Hd as [|? ? Ha Hl]; subst.
  constructor; [now apply IH|].
  rewrite Forall_forall in *. intros b Hb.
  specialize (Hall b Hb). specialize (Hl b Hb).
  unfold newerFirst, dated in *.
  destruct (JSDate.getTime (SavedBill.bill_date a)); [|contradiction].
  destruct (JSDate.getTime (SavedBill.bill_date b)); [|contradiction].
  now apply Z.leb_le.
Qed.

(** C9.  For every record list whose bills carry a date of the calendar and
    every filter state, the filtered list holds exactly the bills of the
    input that pass the filter, each as often as the input holds it (none
    invented, none duplicated), and it is ordered by bill date, most recent
    first. *)
Theorem filteredBills_sublist_newest_first (savedBills : list SavedBill.t)
    (contracts : list Contract.t) (f : FilterState) :
  Forall dated savedBills ->
  let result := filteredBills savedBills contracts f in
  Permutation result (filter (billPasses contracts f) savedBills)
  /\ (forall bill, In bill result ->
        In bill savedBills /\ billPasses contracts f bill = true)
  /\ (List.length result <= List.length savedBills)%nat
  /\ newestFirst result.
Proof.
  intros Hd result. subst result. unfold filteredBills.
  assert (Hp : Permutation (sort newerFirst (filter (billPasses contracts f) savedBills))
                           (filter (billPasses contracts f) savedBills)).
  { apply Permutation_sym, sort_perm. }
  split; [exact Hp|]. split; [|split].
  - intros bill Hin. apply filter_In. eapply Permutation_in; [exact Hp | exact Hin].
  - rewrite (Permutation_length Hp). apply filter_length_le.
  - assert (Hf : Forall dated (filter (billPasses contracts f) savedBills))
      by now apply Forall_filter_keep.
    apply sorted_newestFirst.
    + eapply Permutation_Forall; [apply sort_perm | exact Hf].
    + apply (sort_sorted newerFirst dated newerFirst_total newerFirst_trans _ Hf).
Qed.

Lemma filter_filter_and {A : Type} (p q r : A -> bool) (l : list A) :
  (forall x, r x = p x && q x) -> filter q (filter p l) = filter r l.
Proof.
  intros H. induction l as [|x l IH]; simpl; [reflexivity|].
  rewrite H. destruct (p x); simpl; [|exact IH].
  destruct (q x); now rewrite IH.
Qed.

(** On dated bills the filter goes through the sort, and sorting twice is
    sorting once. *)
Lemma filter_sorted_bills (p : SavedBill.t -> bool) (bills : list SavedBill.t) :
  Forall dated bills ->
  filter p (sort newerFirst bills) = sort newerFirst (filter p bills).
Proof.
  apply (filter_sort newerFirst dated newerFirst_total newerFirst_trans).
Qed.

Lemma sort_bills_twice (bills : list SavedBill.t) :
  Forall dated bills ->
  sort newerFirst (sort newerFirst bills) = sort newerFirst bills.
Proof.
  intros Hd. apply sort_id.
  now apply (sort_sorted newerFirst dated newerFirst_total newerFirst_trans).
Qed.

(** C3.  For every record list whose bills carry a date of the calendar and
    all filter states [f1], [f2] and [f] such that [f] expresses the
    conjunction of [f1] and [f2]: filtering with [f1] and then filtering
    the result with [f2] gives the list that filtering once with [f]
    gives. *)
Theorem filter_composition (savedBills : list SavedBill.t)
    (contracts : list Contract.t) (f1 f2 f : FilterState) :
  isConjunction contracts f1 f2 f ->
  Forall dated savedBills ->
  filteredBills (filteredBills savedBills contracts f1) contracts f2 =
  filteredBills savedBills contracts f.
Proof.
  intros Hconj Hd. unfold filteredBills.
  assert (H1 : Forall dated (filter (billPasses contracts f1) savedBills))
    by now apply Forall_filter_keep.
  rewrite (filter_sorted_bills _ _ H1).
  rewrite (filter_filter_and _ _ (billPasses contracts f) savedBills Hconj).
  apply sort_bills_twice.
  now apply Forall_filter_keep.
Qed.

(** Two states that set no criterion in common have a conjunction: the
    state that takes each criterion from the one that sets it. *)
Lemma combine_isConjunction (contracts : list Contract.t) (f1 f2 : FilterState) :
  disjointCriteria f1 f2 -> isConjunction contracts f1 f2 (combine f1 f2).
Proof.
  intros (Hc & Hr & Hq & Hs & He) bill.
  assert (C : contractorMatch (combine f1 f2) bill =
              contractorMatch f1 bill && contractorMatch f2 bill).
  { unfold contractorMatch, combine; simpl. destruct Hc as [-> | ->].
    - reflexivity.
    - destruct (selectedContractorId f1); simpl; [reflexivity|].
      now rewrite andb_true_r. }
  assert (Q : searchMatch (combine f1 f2) bill =
              searchMatch f1 bill && searchMatch f2 bill).
  { unfold searchMatch, combine; simpl. destruct Hq as [-> | ->]; simpl.
    - reflexivity.
    - destruct (Str.isEmpty (searchQuery f1)) eqn:E; simpl.
      + reflexivity.
      + now rewrite E, andb_true_r. }
  assert (D : dateMatch (combine f1 f2) bill =
              dateMatch f1 bill && dateMatch f2 bill).
  { unfold dateMatch, combine; simpl.
    destruct Hs as [-> | ->]; destruct He as [-> | ->]; simpl;
      destruct (Str.isEmpty (startDate f1)) eqn:S1;
      destruct (Str.isEmpty (endDate f1)) eqn:E1;
      destruct (Str.isEmpty (startDate f2)) eqn:S2;
      destruct (Str.isEmpty (endDate f2)) eqn:E2;
      simpl; rewrite ?S1, ?E1, ?S2, ?E2; simpl;
      repeat match goal with
             | |- context [Str.geb ?a ?b] => destruct (Str.geb a b)
             | |- context [String.leb ?a ?b] => destruct (String.leb a b)
             end; reflexivity. }
  assert (R : routeMatch contracts (combine f1 f2) bill =
              routeMatch contracts f1 bill && routeMatch contracts f2 bill).
  { unfold routeMatch, combine; simpl. destruct Hr as [-> | ->]; simpl.
    - reflexivity.
    - destruct (String.eqb (selectedRoute f1) "all") eqn:E; simpl; [reflexivity|].
      now rewrite ?E, andb_true_r. }
  unfold billPasses. rewrite C, Q, D, R.
  destruct (contractorMatch f1 bill), (contractorMatch f2 bill),
    (searchMatch f1 bill), (searchMatch f2 bill),
    (dateMatch f1 bill), (dateMatch f2 bill),
    (routeMatch contracts f1 bill), (routeMatch contracts f2 bill); reflexivity.
Qed.

Lemma sample_bills_dated : Forall dated (savedBills props_acme).
Proof. repeat constructor; discriminate. Qed.

(** Contractor 7, then February 2024: the one bill that passes both. *)
Lemma filter_composition_witness :
  isConjunction [] filter_acme filter_february (combine filter_acme filter_february)
  /\ Forall dated (savedBills props_acme)
  /\ filteredBills (filteredBills (savedBills props_acme) [] filter_acme) []
                   filter_february =
     filteredBills (savedBills props_acme) [] (combine filter_acme filter_february)
  /\ filteredBills (savedBills props_acme) [] (combine filter_acme filter_february) =
     [bill_misc].
Proof.
  assert (Hc : isConjunction [] filter_acme filter_february
                             (combine filter_acme filter_february)).
  { apply combine_isConjunction. unfold disjointCriteria; simpl. tauto. }
  split; [exact Hc|]. split; [exact sample_bills_dated|]. split.
  - exact (filter_composition (savedBills props_acme) [] filter_acme filter_february
             (combine filter_acme filter_february) Hc sample_bills_dated).
  - reflexivity.
Defined.

(** The three sample bills, unfiltered, come out most recent first. *)
Lemma filteredBills_sublist_newest_first_witness :
  Forall dated (savedBills props_acme)
  /\ filteredBills (savedBills props_acme) [] noFilter =
     [bill_misc; bill_unattributed; bill_acme]
  /\ newestFirst (filteredBills (savedBills props_acme) [] noFilter).
Proof.
  split; [exact sample_bills_dated|]. split; [reflexivity|].
  exact (proj2 (proj2 (proj2
    (filteredBills_sublist_newest_first (savedBills props_acme) [] noFilter
       sample_bills_dated)))).
Defined.

Lemma isConjunction_self (contracts : list Contract.t) (f : FilterState) :
  isConjunction contracts f f f.
Proof. intros bill. now destruct (billPasses contracts f bill). Qed.

(** X11.  Filtering the filtered list again with the same state changes
    nothing. *)
Lemma filteredBills_idempotent (savedBills : list SavedBill.t)
    (contracts : list Contract.t) (f : FilterState) :
  Forall dated savedBills ->
  filteredBills (filteredBills savedBills contracts f) contracts f =
  filteredBills savedBills contracts f.
Proof.
  intros Hd. unfold filteredBills.
  assert (H1 : Forall dated (filter (billPasses contracts f) savedBills))
    by now apply Forall_filter_keep.
  rewrite (filter_sorted_bills _ _ H1).
  rewrite (filter_filter_and _ _ (billPasses contracts f) savedBills
             (isConjunction_self contracts f)).
  now apply sort_bills_twice.
Qed.

(** ** The audit filter (C4) *)

(** The end bound is the last millisecond of the end date. *)
Lemma end_of_day_bound (day : string) (d : Z) :
  String.length day = 10%nat ->
  JSDate.parse_date day = Some d ->
  JSDate.getTime (day ++ "T23:59:59.999Z") = Some (d + (JSDate.msPerDay - 1)).
Proof.
  intros Hlen Hd.
  do 10 (destruct day as [|? day]; [discriminate Hlen|]).
  destruct day; [|discriminate Hlen]. clear Hlen.
  unfold JSDate.getTime.
  match goal with
  | |- context [substring 0 10 ?s] =>
      match type of Hd with
      | JSDate.parse_date ?day = _ =>
          replace (substring 0 10 s) with day by reflexivity
      end
  end.
  rewrite Hd. reflexivity.
Qed.

(** X19.  With an end date and nothing else set, an entry passes exactly
    when its time is within the end date's day or before it. *)
Lemma auditPasses_until (day : string) (d t : Z) (log : AuditLog.t) :
  String.length day = 10%nat ->
  JSDate.parse_date day = Some d ->
  JSDate.getTime (AuditLog.timestamp log) = Some t ->
  auditPasses (filter_until day) log = (t <=? d + (JSDate.msPerDay - 1)).
Proof.
  intros Hlen Hd Ht. unfold auditPasses, filter_until; simpl.
  assert (He : Str.isEmpty day = false) by (destruct day; [discriminate Hlen | reflexivity]).
  rewrite He. unfold JSDate.le.
  now rewrite Ht, (end_of_day_bound day d Hlen Hd).
Qed.

(** C4.  For every audit-log entry list and every filter state whose end
    date is [2024-03-10] and whose other audit criteria are unset, an entry
    of the list timestamped [2024-03-10T23:59:00Z] is in the filtered list
    and an entry timestamped [2024-03-11T00:00:01Z] is not. *)
Theorem audit_end_date_through_end_of_day (auditLogs : list AuditLog.t)
    (f : FilterState) (entry : AuditLog.t) :
  endDate f = "2024-03-10"%string ->
  startDate f = ""%string ->
  searchQuery f = ""%string ->
  auditActionFilter f = "all"%string ->
  In entry auditLogs ->
  (AuditLog.timestamp entry = "2024-03-10T23:59:00Z"%string ->
     In entry (filteredAuditLogs auditLogs f))
  /\ (AuditLog.timestamp entry = "2024-03-11T00:00:01Z"%string ->
        ~ In entry (filteredAuditLogs auditLogs f)).
Proof.
  intros He Hs Hq Ha Hin. unfold filteredAuditLogs.
  split; intros Ht.
  - apply filter_In. split; [exact Hin|].
    unfold auditPasses. rewrite He, Hs, Hq, Ha, Ht. reflexivity.
  - intros Hf. apply filter_In in Hf as [_ Hp]. revert Hp.
    unfold auditPasses. rewrite He, Hs, Hq, Ha, Ht. discriminate.
Qed.

(** The two entries of the scenario. *)
Lemma audit_end_date_witness :
  filteredAuditLogs
    [log_at "a1" "2024-03-11T00:00:01Z"; log_at "a2" "2024-03-10T23:59:00Z"]
    (filter_until "2024-03-10") =
  [log_at "a2" "2024-03-10T23:59:00Z"]
  /\ In (log_at "a2" "2024-03-10T23:59:00Z")
        (filteredAuditLogs
           [log_at "a1" "2024-03-11T00:00:01Z"; log_at "a2" "2024-03-10T23:59:00Z"]
           (filter_until "2024-03-10")).
Proof.
  split; [reflexivity|].
  apply (audit_end_date_through_end_of_day
           [log_at "a1" "2024-03-11T00:00:01Z"; log_at "a2" "2024-03-10T23:59:00Z"]
           (filter_until "2024-03-10") (log_at "a2" "2024-03-10T23:59:00Z"));
    try reflexivity.
  simpl. tauto.
Defined.

(** ** The CSV export (C6) *)


Lemma uint_digits_nonempty (u : Decimal.uint) : u <> Decimal.Nil -> uint_digits u <> [].
Proof. destruct u; simpl; intros H; try discriminate. contradiction. Qed.


Lemma digits_of_nonempty (n : Z) : digits_of n <> [].
Proof.
  unfold digits_of. apply uint_digits_nonempty.
  destruct (Z.to_N n); simpl; [discriminate|].
  apply DecimalPos.Unsigned.to_uint_nonnil.
Qed.








(** * Further properties *)

(** ** Sums in a commutative monoid *)

Section MonoidSums.

Context {M : Type}.
Variable op : M -> M -> M.
Variable e : M.
Hypothesis op_assoc : forall x y z, op x (op y z) = op (op x y) z.
Hypothesis op_comm : forall x y, op x y = op y x.
Hypothesis op_e_l : forall x, op e x = x.

Lemma op_e_r (x : M) : op x e = x.
Proof. rewrite op_comm. apply op_e_l. Qed.

Lemma fold_op_acc (l : list M) (a b : M) :
  fold_left op l (op a b) = op a (fold_left op l b).
Proof.
  revert b. induction l as [|x l IH]; intros b; simpl; [reflexivity|].
  rewrite <- op_assoc. apply IH.
Qed.

Lemma msum_cons (x : M) (l : list M) :
  fold_left op (x :: l) e = op x (fold_left op l e).
Proof.
  simpl. rewrite op_e_l. rewrite <- (op_e_r x) at 1. apply fold_op_acc.
Qed.

Lemma msum_app (l1 l2 : list M) :
  fold_left op (l1 ++ l2) e = op (fold_left op l1 e) (fold_left op l2 e).
Proof.
  induction l1 as [|x l1 IH].
  - simpl. now rewrite op_e_l.
  - rewrite <- app_comm_cons, !msum_cons, IH. apply op_assoc.
Qed.

Lemma msum_perm (l1 l2 : list M) :
  Permutation l1 l2 -> fold_left op l1 e = fold_left op l2 e.
Proof.
  induction 1 as [|x l l' _ IH|x y l|l l' l'' _ IH1 _ IH2].
  - reflexivity.
  - rewrite !msum_cons, IH. reflexivity.
  - rewrite !msum_cons, !op_assoc, (op_comm y x). reflexivity.
  - congruence.
Qed.

Context {K V : Type}.
Variable eqb : K -> K -> bool.
Hypothesis eqb_eq : forall a b, eqb a b = true <-> a = b.
Variable q : V -> M.

(** The quantity [q] added up over the entries of a map. *)
Lemma mtotal_mutate (k : K) (f : V -> V) (delta : M) (m : list (K * V)) :
  (forall v, q (f v) = op (q v) delta) ->
  map_has eqb k m = true ->
  fold_left op (map q (map_values (map_mutate eqb k f m))) e =
  op (fold_left op (map q (map_values m)) e) delta.
Proof.
  intros Hf. unfold map_values.
  induction m as [|[k' v] m IH]; [discriminate|].
  cbn [map_has map_mutate]. destruct (eqb k' k); cbn [orb map snd]; intros H.
  - rewrite !msum_cons, Hf.
    rewrite <- !op_assoc. f_equal. apply op_comm.
  - rewrite !msum_cons, IH by exact H. apply op_assoc.
Qed.

Lemma mtotal_upsert (k : K) (init : V) (f : V -> V) (delta : M)
    (m : list (K * V)) :
  q init = e ->
  (forall v, q (f v) = op (q v) delta) ->
  fold_left op (map q (map_values (map_upsert eqb k init f m))) e =
  op (fold_left op (map q (map_values m)) e) delta.
Proof.
  intros Hinit Hf. unfold map_upsert.
  destruct (map_has eqb k m) eqn:H.
  - now apply mtotal_mutate.
  - rewrite (mtotal_mutate k f delta); auto.
    + f_equal. rewrite (map_set_new eqb) by exact H.
      unfold map_values. rewrite !map_app, msum_app.
      cbn [map snd]. rewrite msum_cons. cbn [fold_left].
      now rewrite Hinit, !op_e_r.
    + rewrite (map_has_get eqb), (map_get_set eqb eqb_eq), (eqb_same eqb eqb_eq).
      reflexivity.
Qed.

(** The quantity under one key. *)
Lemma valueAt_upsert (k k' : K) (init : V) (f : V -> V) (delta : M)
    (m : list (K * V)) :
  q init = e ->
  (forall v, q (f v) = op (q v) delta) ->
  valueAt eqb q e k' (map_upsert eqb k init f m) =
  if eqb k k' then op (valueAt eqb q e k' m) delta else valueAt eqb q e k' m.
Proof.
  intros Hinit Hf. unfold valueAt.
  rewrite (map_get_upsert eqb eqb_eq).
  destruct (eqb k k') eqn:E; [|reflexivity].
  apply eqb_eq in E; subst k'. rewrite Hf.
  destruct (map_get eqb k m); [reflexivity | now rewrite Hinit].
Qed.

End MonoidSums.

(** ** Grouping passes *)

Section GroupPassFacts.

Context {B K V : Type}.
Variable eqb : K -> K -> bool.
Hypothesis eqb_eq : forall a b, eqb a b = true <-> a = b.
Variable keyOf : B -> option K.
Variable init : B -> V.
Variable add : B -> V -> V.

Lemma groupStep_get (k : K) (m : list (K * V)) (b : B) :
  map_get eqb k (groupStep eqb keyOf init add m b) =
  if keyIs eqb keyOf k b
  then Some (add b (match map_get eqb k m with Some v => v | None => init b end))
  else map_get eqb k m.
Proof.
  unfold groupStep, keyIs. destruct (keyOf b) as [k0|]; [|reflexivity].
  rewrite (map_get_upsert eqb eqb_eq).
  destruct (eqb k0 k) eqn:E; [|reflexivity].
  apply eqb_eq in E. now subst k0.
Qed.

Lemma groupStep_keys_NoDup (m : list (K * V)) (b : B) :
  NoDup (map fst m) -> NoDup (map fst (groupStep eqb keyOf init add m b)).
Proof.
  unfold groupStep. destruct (keyOf b); [|trivial].
  apply (map_upsert_keys_NoDup eqb eqb_eq).
Qed.

Lemma groupFold_keys_NoDup (l : list B) (m : list (K * V)) :
  NoDup (map fst m) ->
  NoDup (map fst (fold_left (groupStep eqb keyOf init add) l m)).
Proof.
  revert m. induction l as [|b l IH]; intros m H; simpl; [exact H|].
  apply IH, groupStep_keys_NoDup, H.
Qed.

(** A group is there exactly when an element has its key, and what the
    updates leave alone is as the first element of the key set it. *)
Section Label.

Context {L : Type}.
Variable lab : V -> L.
Hypothesis lab_add : forall b v, lab (add b v) = lab v.

Lemma groupFold_label (k : K) (l : list B) (m : list (K * V)) :
  option_map lab (map_get eqb k (fold_left (groupStep eqb keyOf init add) l m)) =
  match map_get eqb k m with
  | Some v => Some (lab v)
  | None => option_map (fun b => lab (init b))
                       (hd_error (filter (keyIs eqb keyOf k) l))
  end.
Proof.
  revert m. induction l as [|b l IH]; intros m; simpl.
  - destruct (map_get eqb k m); reflexivity.
  - rewrite IH, groupStep_get.
    destruct (keyIs eqb keyOf k b); simpl.
    + rewrite lab_add. destruct (map_get eqb k m); reflexivity.
    + reflexivity.
Qed.

End Label.

Section Quantity.

Context {M : Type}.
Variable op : M -> M -> M.
Variable e : M.
Hypothesis op_assoc : forall x y z, op x (op y z) = op (op x y) z.
Hypothesis op_comm : forall x y, op x y = op y x.
Hypothesis op_e_l : forall x, op e x = x.
Variable q : V -> M.
Variable d : B -> M.
Hypothesis q_init : forall b, q (init b) = e.
Hypothesis q_add : forall b v, q (add b v) = op (q v) (d b).

(** Over all groups the quantity adds up to that of the elements that have
    a key. *)
Lemma groupFold_total (l : list B) (m : list (K * V)) :
  fold_left op (map q (map_values (fold_left (groupStep eqb keyOf init add) l m))) e =
  op (fold_left op (map q (map_values m)) e)
     (fold_left op (map d (filter (keyed keyOf) l)) e).
Proof.
  revert m. induction l as [|b l IH]; intros m; simpl.
  - now rewrite (op_e_r op e op_comm op_e_l).
  - rewrite IH. unfold groupStep, keyed. destruct (keyOf b) as [k|].
    + rewrite (mtotal_upsert op e op_assoc op_comm op_e_l eqb eqb_eq q
                 k (init b) (add b) (d b)); auto.
      cbn [map]. rewrite (msum_cons op e op_assoc op_comm op_e_l).
      now rewrite op_assoc.
    + reflexivity.
Qed.

(** Under one key it adds up to that of the elements of the key. *)
Lemma groupFold_at (k : K) (l : list B) (m : list (K * V)) :
  valueAt eqb q e k (fold_left (groupStep eqb keyOf init add) l m) =
  op (valueAt eqb q e k m)
     (fold_left op (map d (filter (keyIs eqb keyOf k) l)) e).
Proof.
  revert m. induction l as [|b l IH]; intros m; simpl.
  - now rewrite (op_e_r op e op_comm op_e_l).
  - rewrite IH. unfold groupStep, keyIs at 2. destruct (keyOf b) as [k0|] eqn:Ek.
    + rewrite (valueAt_upsert op e eqb eqb_eq q k0 k (init b) (add b) (d b));
        auto.
      destruct (eqb k0 k); [|reflexivity].
      cbn [map]. rewrite (msum_cons op e op_assoc op_comm op_e_l).
      now rewrite op_assoc.
    + reflexivity.
Qed.

End Quantity.

End GroupPassFacts.

Lemma zsum_ones {A : Type} (l : list A) :
  fold_left Z.add (map (fun _ => 1) l) 0 = Z.of_nat (List.length l).
Proof.
  induction l as [|x l IH]; [reflexivity|].
  cbn [map]. rewrite (msum_cons Z.add 0 Z.add_assoc Z.add_comm Z.add_0_l), IH.
  cbn [List.length]. lia.
Qed.

Lemma fold_left_same {A B : Type} (f g : A -> B -> A) (l : list B) (a : A) :
  (forall x y, f x y = g x y) -> fold_left f l a = fold_left g l a.
Proof.
  intros H. revert a. induction l as [|b l IH]; intros a; simpl; [reflexivity|].
  now rewrite H, IH.
Qed.

Lemma filter_same {A : Type} (p q : A -> bool) (l : list A) :
  (forall x, p x = q x) -> filter p l = filter q l.
Proof.
  intros H. induction l as [|x l IH]; simpl; [reflexivity|].
  now rewrite H, IH.
Qed.

(** An entry of the values of a map with distinct keys is held under a key. *)
Lemma value_has_key {K V : Type} (eqb : K -> K -> bool)
    (eqb_eq : forall a b, eqb a b = true <-> a = b) (v : V) (m : list (K * V)) :
  NoDup (map fst m) -> In v (map_values m) -> exists k, map_get eqb k m = Some v.
Proof.
  intros Hnd Hin. unfold map_values in Hin.
  apply in_map_iff in Hin as [[k v'] [Hv Hin]]. simpl in Hv; subst v'.
  exists k. now apply (map_get_of_entry eqb eqb_eq).
Qed.

(** ** The contractor summary, row by row *)

Lemma contractorStep_group (m : list (Z * ContractorGroup.t)) (bill : SavedBill.t) :
  contractorStep m bill =
  groupStep Z.eqb contractorKey contractorInit ContractorGroup.add m bill.
Proof.
  unfold contractorStep, groupStep, contractorKey, falsy_id, contractorInit.
  destruct (SavedBill.contractor_id bill) as [cid|]; [|reflexivity].
  destruct (cid =? 0); reflexivity.
Qed.

Lemma contractorKey_is (cid : Z) (bill : SavedBill.t) :
  keyIs Z.eqb contractorKey cid bill =
  negb (cid =? 0) && id_is (SavedBill.contractor_id bill) cid.
Proof.
  unfold keyIs, contractorKey, falsy_id, id_is.
  destruct (SavedBill.contractor_id bill) as [c|]; [|now rewrite andb_false_r].
  destruct (Z.eqb_spec c 0); destruct (Z.eqb_spec cid 0);
    destruct (Z.eqb_spec c cid); cbn [negb andb]; try reflexivity; lia.
Qed.

Lemma monthlyStep_group (m : list (string * MonthGroup.t)) (bill : SavedBill.t) :
  monthlyStep m bill =
  groupStep String.eqb monthKey monthInit MonthGroup.add m bill.
Proof. reflexivity. Qed.

Lemma contractorMap_group (bills : list SavedBill.t) :
  fold_left contractorStep bills [] =
  fold_left (groupStep Z.eqb contractorKey contractorInit ContractorGroup.add) bills [].
Proof. apply fold_left_same, contractorStep_group. Qed.

Lemma hd_error_in {A : Type} (l : list A) (x : A) : hd_error l = Some x -> In x l.
Proof. destruct l; simpl; [discriminate | intros [= ->]; now left]. Qed.

(** What is held under a contractor id after the pass. *)
Lemma contractorMap_entry (bills : list SavedBill.t) (cid : Z) (row : ContractorGroup.t) :
  map_get Z.eqb cid (fold_left contractorStep bills []) = Some row ->
  exists first,
    cid <> 0
    /\ hd_error (billsOfContractor cid bills) = Some first
    /\ ContractorGroup.name row = SavedBill.contractor_name first
    /\ ContractorGroup.totalBills row =
         Z.of_nat (List.length (billsOfContractor cid bills))
    /\ ContractorGroup.grandTotal row =
         Num.sum (map SavedBill.grandTotal (billsOfContractor cid bills))
    /\ ContractorGroup.totalDeductions row =
         Num.sum (map SavedBill.totalDeductions (billsOfContractor cid bills))
    /\ ContractorGroup.netAmount row =
         Num.sum (map SavedBill.netAmount (billsOfContractor cid bills)).
Proof.
  rewrite contractorMap_group. intros Hget.
  pose proof (groupFold_label Z.eqb Zeqb_eq contractorKey contractorInit
                ContractorGroup.add ContractorGroup.name (fun _ _ => eq_refl)
                cid bills []) as Hlab.
  rewrite Hget in Hlab. simpl in Hlab.
  destruct (hd_error (filter (keyIs Z.eqb contractorKey cid) bills))
    as [first|] eqn:Hhd; [|discriminate].
  injection Hlab as Hname.
  assert (Hcid : cid <> 0).
  { apply hd_error_in, filter_In in Hhd as [_ Hk].
    rewrite contractorKey_is in Hk. apply andb_true_iff in Hk as [Hk _].
    intros ->. discriminate. }
  assert (Hsame : filter (keyIs Z.eqb contractorKey cid) bills =
                  billsOfContractor cid bills).
  { apply filter_same. intros b. rewrite contractorKey_is.
    apply Z.eqb_neq in Hcid. now rewrite Hcid. }
  rewrite Hsame in Hhd. exists first.
  split; [exact Hcid|]. split; [exact Hhd|]. split; [exact Hname|].
  pose proof (groupFold_at Z.eqb Zeqb_eq contractorKey contractorInit
                ContractorGroup.add Z.add 0 Z.add_assoc Z.add_comm Z.add_0_l
                ContractorGroup.totalBills (fun _ => 1)
                (fun _ => eq_refl) (fun _ _ => eq_refl) cid bills []) as Hc.
  pose proof (fun q d H1 H2 =>
                groupFold_at Z.eqb Zeqb_eq contractorKey contractorInit
                  ContractorGroup.add Qplus 0%Q NumFacts.plus_assoc NumFacts.plus_comm
                  NumFacts.plus_0_l q d H1 H2 cid bills []) as Hq.
  unfold valueAt in Hc, Hq. rewrite Hget in Hc, Hq. simpl in Hc, Hq.
  rewrite Hsame in Hc, Hq. rewrite zsum_ones in Hc.
  split; [exact Hc|].
  split; [|split].
  - rewrite (Hq ContractorGroup.grandTotal SavedBill.grandTotal
               (fun _ => eq_refl) (fun _ _ => eq_refl)).
    apply NumFacts.plus_0_l.
  - rewrite (Hq ContractorGroup.totalDeductions SavedBill.totalDeductions
               (fun _ => eq_refl) (fun _ _ => eq_refl)).
    apply NumFacts.plus_0_l.
  - rewrite (Hq ContractorGroup.netAmount SavedBill.netAmount
               (fun _ => eq_refl) (fun _ _ => eq_refl)).
    apply NumFacts.plus_0_l.
Qed.

Lemma contractorSummary_row_key (bills : list SavedBill.t) (row : ContractorGroup.t) :
  In row (contractorSummary bills) ->
  exists cid, map_get Z.eqb cid (fold_left contractorStep bills []) = Some row.
Proof.
  intros Hin. unfold contractorSummary in Hin.
  apply (Permutation_in _ (Permutation_sym (sort_perm _ _))) in Hin.
  apply (value_has_key Z.eqb Zeqb_eq); [|exact Hin].
  rewrite contractorMap_group.
  apply (groupFold_keys_NoDup Z.eqb Zeqb_eq). constructor.
Qed.

(** X1.  Every row of the Contractor Summary stands for one contractor id,
    not 0: it counts the bills of the subset with that id, holds the sums of
    their [grandTotal], [totalDeductions] and [netAmount], and is named
    after the first of them. *)
Theorem contractorSummary_rows (bills : list SavedBill.t) (row : ContractorGroup.t) :
  In row (contractorSummary bills) ->
  exists cid first,
    cid <> 0
    /\ hd_error (billsOfContractor cid bills) = Some first
    /\ ContractorGroup.name row = SavedBill.contractor_name first
    /\ ContractorGroup.totalBills row =
         Z.of_nat (List.length (billsOfContractor cid bills))
    /\ ContractorGroup.grandTotal row =
         Num.sum (map SavedBill.grandTotal (billsOfContractor cid bills))
    /\ ContractorGroup.totalDeductions row =
         Num.sum (map SavedBill.totalDeductions (billsOfContractor cid bills))
    /\ ContractorGroup.netAmount row =
         Num.sum (map SavedBill.netAmount (billsOfContractor cid bills)).
Proof.
  intros Hin.
  destruct (contractorSummary_row_key bills row Hin) as [cid Hget].
  destruct (contractorMap_entry bills cid row Hget) as [first H].
  exists cid, first. exact H.
Qed.

(** The one row of the sample bills: contractor 7, two bills. *)
Lemma contractorSummary_rows_witness :
  In (ContractorGroup.mk "Acme" 2 2000 180 1820)
     (contractorSummary (savedBills props_acme))
  /\ exists cid first,
       cid <> 0
       /\ hd_error (billsOfContractor cid (savedBills props_acme)) = Some first
       /\ "Acme"%string = SavedBill.contractor_name first
       /\ 2 = Z.of_nat (List.length (billsOfContractor cid (savedBills props_acme)))
       /\ 2000%Q =
            Num.sum (map SavedBill.grandTotal
                         (billsOfContractor cid (savedBills props_acme)))
       /\ 180%Q =
            Num.sum (map SavedBill.totalDeductions
                         (billsOfContractor cid (savedBills props_acme)))
       /\ 1820%Q =
            Num.sum (map SavedBill.netAmount
                         (billsOfContractor cid (savedBills props_acme))).
Proof.
  assert (Hin : In (ContractorGroup.mk "Acme" 2 2000 180 1820)
                   (contractorSummary (savedBills props_acme))) by (left; reflexivity).
  split; [exact Hin|].
  exact (contractorSummary_rows (savedBills props_acme) _ Hin).
Defined.

(** ** The monthly summary, row by row *)

Lemma monthlyMap_group (bills : list SavedBill.t) :
  fold_left monthlyStep bills [] =
  fold_left (groupStep String.eqb monthKey monthInit MonthGroup.add) bills [].
Proof. apply fold_left_same, monthlyStep_group. Qed.

Lemma monthKey_is (month : string) (bills : list SavedBill.t) :
  filter (keyIs String.eqb monthKey month) bills = billsOfMonth month bills.
Proof. reflexivity. Qed.

Lemma monthlyMap_entry (bills : list SavedBill.t) (k : string) (row : MonthGroup.t) :
  map_get String.eqb k (fold_left monthlyStep bills []) = Some row ->
  MonthGroup.month row = k
  /\ billsOfMonth k bills <> []
  /\ MonthGroup.totalBills row = Z.of_nat (List.length (billsOfMonth k bills))
  /\ MonthGroup.grandTotal row =
       Num.sum (map SavedBill.grandTotal (billsOfMonth k bills))
  /\ MonthGroup.totalDeductions row =
       Num.sum (map SavedBill.totalDeductions (billsOfMonth k bills))
  /\ MonthGroup.netAmount row =
       Num.sum (map SavedBill.netAmount (billsOfMonth k bills)).
Proof.
  rewrite monthlyMap_group. intros Hget.
  pose proof (groupFold_label String.eqb String.eqb_eq monthKey monthInit
                MonthGroup.add MonthGroup.month (fun _ _ => eq_refl)
                k bills []) as Hlab.
  rewrite Hget, monthKey_is in Hlab. simpl in Hlab.
  destruct (hd_error (billsOfMonth k bills)) as [first|] eqn:Hhd; [|discriminate].
  injection Hlab as Hmonth.
  assert (Hk : substring 0 7 (SavedBill.bill_date first) = k).
  { apply hd_error_in, filter_In in Hhd as [_ Hk]. now apply String.eqb_eq. }
  split; [now rewrite Hmonth|].
  split; [intros E; rewrite E in Hhd; discriminate|].
  pose proof (groupFold_at String.eqb String.eqb_eq monthKey monthInit
                MonthGroup.add Z.add 0 Z.add_assoc Z.add_comm Z.add_0_l
                MonthGroup.totalBills (fun _ => 1)
                (fun _ => eq_refl) (fun _ _ => eq_refl) k bills []) as Hc.
  pose proof (fun q d H1 H2 =>
                groupFold_at String.eqb String.eqb_eq monthKey monthInit
                  MonthGroup.add Qplus 0%Q NumFacts.plus_assoc NumFacts.plus_comm
                  NumFacts.plus_0_l q d H1 H2 k bills []) as Hq.
  unfold valueAt in Hc, Hq. rewrite Hget in Hc, Hq. simpl in Hc, Hq.
  rewrite monthKey_is in Hc, Hq. rewrite zsum_ones in Hc.
  split; [exact Hc|].
  split; [|split].
  - rewrite (Hq MonthGroup.grandTotal SavedBill.grandTotal
               (fun _ => eq_refl) (fun _ _ => eq_refl)).
    apply NumFacts.plus_0_l.
  - rewrite (Hq MonthGroup.totalDeductions SavedBill.totalDeductions
               (fun _ => eq_refl) (fun _ _ => eq_refl)).
    apply NumFacts.plus_0_l.
  - rewrite (Hq MonthGroup.netAmount SavedBill.netAmount
               (fun _ => eq_refl) (fun _ _ => eq_refl)).
    apply NumFacts.plus_0_l.
Qed.

Lemma monthlyMap_keys_NoDup (bills : list SavedBill.t) :
  NoDup (map fst (fold_left monthlyStep bills [])).
Proof.
  rewrite monthlyMap_group.
  apply (groupFold_keys_NoDup String.eqb String.eqb_eq). constructor.
Qed.

Lemma monthlyMap_months (bills : list SavedBill.t) :
  map MonthGroup.month (map_values (fold_left monthlyStep bills [])) =
  map fst (fold_left monthlyStep bills []).
Proof.
  pose proof (monthlyMap_keys_NoDup bills) as Hnd.
  assert (H : forall k row, In (k, row) (fold_left monthlyStep bills []) ->
                            MonthGroup.month row = k).
  { intros k row Hin.
    apply (map_get_of_entry String.eqb String.eqb_eq _ _ _ Hnd) in Hin.
    now apply monthlyMap_entry in Hin as [Hm _]. }
  revert H. generalize (fold_left monthlyStep bills []) as m.
  unfold map_values. induction m as [|[k row] m IH]; intros H; simpl; [reflexivity|].
  rewrite (H k row) by now left.
  f_equal. apply IH. intros k' row' Hin. apply H. now right.
Qed.

(** X2.  The Monthly Summary has one row per month, and none for a month
    without bills: a row counts the bills of the subset whose date starts
    with its [YYYY-MM] key and holds the sums of their [grandTotal],
    [totalDeductions] and [netAmount]. *)
Theorem monthlySummary_rows (bills : list SavedBill.t) :
  NoDup (map MonthGroup.month (monthlySummary bills))
  /\ forall row, In row (monthlySummary bills) ->
       let own := billsOfMonth (MonthGroup.month row) bills in
       own <> []
       /\ MonthGroup.totalBills row = Z.of_nat (List.length own)
       /\ MonthGroup.grandTotal row = Num.sum (map SavedBill.grandTotal own)
       /\ MonthGroup.totalDeductions row = Num.sum (map SavedBill.totalDeductions own)
       /\ MonthGroup.netAmount row = Num.sum (map SavedBill.netAmount own).
Proof.
  unfold monthlySummary. split.
  - eapply Permutation_NoDup.
    + apply Permutation_map, sort_perm.
    + rewrite monthlyMap_months. apply monthlyMap_keys_NoDup.
  - intros row Hin.
    apply (Permutation_in _ (Permutation_sym (sort_perm _ _))) in Hin.
    destruct (value_has_key String.eqb String.eqb_eq row _
                (monthlyMap_keys_NoDup bills) Hin) as [k Hget].
    destruct (monthlyMap_entry bills k row Hget) as [Hm H]. subst k. exact H.
Qed.

(** The two months of the sample bills. *)
Lemma monthlySummary_rows_witness :
  In (MonthGroup.mk "2024-01" 2 2000 200 1800) (monthlySummary (savedBills props_acme))
  /\ billsOfMonth "2024-01" (savedBills props_acme) = [bill_acme; bill_unattributed]
  /\ 2 = Z.of_nat (List.length (billsOfMonth "2024-01" (savedBills props_acme))).
Proof.
  assert (Hin : In (MonthGroup.mk "2024-01" 2 2000 200 1800)
                   (monthlySummary (savedBills props_acme)))
    by (right; left; reflexivity).
  split; [exact Hin|]. split; [reflexivity|].
  exact (proj1 (proj2 (proj2 (monthlySummary_rows (savedBills props_acme)) _ Hin))).
Defined.

(** ** The order of strings *)

Lemma ascii_compare_cases (a b : ascii) :
  (Ascii.compare a b = Lt /\ (N_of_ascii a < N_of_ascii b)%N)
  \/ (Ascii.compare a b = Eq /\ a = b)
  \/ (Ascii.compare a b = Gt /\ (N_of_ascii b < N_of_ascii a)%N).
Proof.
  unfold Ascii.compare.
  destruct (N.compare_spec (N_of_ascii a) (N_of_ascii b)) as [E|L|G].
  - right; left. split; [reflexivity|].
    rewrite <- (ascii_N_embedding a), <- (ascii_N_embedding b). now rewrite E.
  - left. now split.
  - right; right. now split.
Qed.

Lemma string_leb_refl (s : string) : String.leb s s = true.
Proof. destruct (String.leb_total s s); assumption. Qed.

Lemma string_leb_trans (a b c : string) :
  String.leb a b = true -> String.leb b c = true -> String.leb a c = true.
Proof.
  unfold String.leb. revert b c.
  induction a as [|x a IH]; intros b c.
  - destruct c; reflexivity.
  - destruct b as [|y b]; [discriminate|].
    destruct c as [|z c]; [intros _; discriminate|].
    cbn [String.compare]. intros H1 H2.
    destruct (ascii_compare_cases x y) as [[Exy Hxy]|[[Exy Hxy]|[Exy Hxy]]];
      rewrite Exy in H1; try discriminate;
      destruct (ascii_compare_cases y z) as [[Eyz Hyz]|[[Eyz Hyz]|[Eyz Hyz]]];
      rewrite Eyz in H2; try discriminate.
    + assert (E : Ascii.compare x z = Lt)
        by (unfold Ascii.compare; apply N.compare_lt_iff; lia).
      now rewrite E.
    + subst z. now rewrite Exy.
    + subst y. now rewrite Eyz.
    + subst y. rewrite Eyz. now apply (IH b c).
Qed.

(** ** The order of the summaries *)

Lemma sort_descending {A : Type} (f : A -> Q) (l : list A) :
  StronglySorted (fun a b => Qle (f b) (f a))
                 (sort (fun a b => Qle_bool (f b) (f a)) l).
Proof.
  assert (Hs : sorted (fun a b => Qle_bool (f b) (f a))
                      (sort (fun a b => Qle_bool (f b) (f a)) l)).
  { apply (sort_sorted _ (fun _ => True)).
    - intros a b _ _. rewrite !Qle_bool_iff.
      destruct (Qlt_le_dec (f a) (f b)) as [H|H]; [right | left]; auto.
      now apply Qlt_le_weak.
    - intros a b c _ _ _. rewrite !Qle_bool_iff. intros H1 H2.
      eapply Qle_trans; eassumption.
    - apply Forall_forall. trivial. }
  unfold sorted in Hs.
  induction Hs as [|a l' Hs IH Hall]; constructor; [exact IH|].
  eapply Forall_impl; [|exact Hall]. intros b Hb. now apply Qle_bool_iff.
Qed.

(** X3.  The three summaries that are sorted on an amount come out in
    that order, from the largest down: the Contractor Summary by
    [netAmount], the Contract Summary by [totalAmount] and the Station
    Summary by [dispatchedValue]. *)
Theorem summaries_are_ordered (bills : list SavedBill.t) (contracts : list Contract.t) :
  StronglySorted
    (fun a b => Qle (ContractorGroup.netAmount b) (ContractorGroup.netAmount a))
    (contractorSummary bills)
  /\ StronglySorted
       (fun a b => Qle (ContractGroup.totalAmount b) (ContractGroup.totalAmount a))
       (contractSummary bills contracts)
  /\ StronglySorted
       (fun a b => Qle (Station.dispatchedValue b) (Station.dispatchedValue a))
       (stationSummary bills).
Proof.
  split; [apply sort_descending|]. split; apply sort_descending.
Qed.

(** ** The totals of the detail view and the counts of the groups *)

Lemma summary_fold (bills : list SavedBill.t) (acc : Totals.t) :
  fold_left (fun acc bill =>
      Totals.mk (Totals.totalAmount acc + SavedBill.grandTotal bill)
                (Totals.totalDeductions acc + SavedBill.totalDeductions bill)
                (Totals.netAmount acc + SavedBill.netAmount bill))
    bills acc =
  Totals.mk
    (Qplus (Totals.totalAmount acc) (Num.sum (map SavedBill.grandTotal bills)))
    (Qplus (Totals.totalDeductions acc) (Num.sum (map SavedBill.totalDeductions bills)))
    (Qplus (Totals.netAmount acc) (Num.sum (map SavedBill.netAmount bills))).
Proof.
  revert acc. induction bills as [|bill bills IH]; intros acc; simpl.
  - rewrite !NumFacts.sum_nil, !NumFacts.plus_0_r. now destruct acc.
  - rewrite IH. simpl. rewrite !NumFacts.sum_cons, !NumFacts.plus_assoc. reflexivity.
Qed.

Lemma summary_totals (bills : list SavedBill.t) :
  summary bills =
  Totals.mk (Num.sum (map SavedBill.grandTotal bills))
            (Num.sum (map SavedBill.totalDeductions bills))
            (Num.sum (map SavedBill.netAmount bills)).
Proof.
  unfold summary. rewrite summary_fold. simpl. now rewrite !NumFacts.plus_0_l.
Qed.

Lemma monthKey_keyed (bills : list SavedBill.t) : filter (keyed monthKey) bills = bills.
Proof.
  induction bills as [|b bills IH]; simpl; [reflexivity | now rewrite IH].
Qed.

Lemma contractorKey_keyed (bills : list SavedBill.t) :
  filter (keyed contractorKey) bills = filter attributed bills.
Proof.
  apply filter_same. intros b. unfold keyed, contractorKey, attributed, falsy_id.
  destruct (SavedBill.contractor_id b) as [c|]; [|reflexivity].
  destruct (c =? 0); reflexivity.
Qed.

(** The bill counts of the rows add up to the bills that the pass groups. *)
Lemma monthlySummary_count (bills : list SavedBill.t) :
  zsum (map MonthGroup.totalBills (monthlySummary bills)) = Z.of_nat (List.length bills).
Proof.
  unfold monthlySummary, zsum.
  rewrite <- (msum_perm Z.add 0 Z.add_assoc Z.add_comm Z.add_0_l _ _
                (Permutation_map _ (sort_perm _ _))).
  rewrite monthlyMap_group.
  pose proof (groupFold_total String.eqb String.eqb_eq monthKey monthInit
                MonthGroup.add Z.add 0 Z.add_assoc Z.add_comm Z.add_0_l
                MonthGroup.totalBills (fun _ => 1)
                (fun _ => eq_refl) (fun _ _ => eq_refl) bills []) as Hc.
  rewrite monthKey_keyed in Hc. rewrite zsum_ones in Hc. exact Hc.
Qed.

Lemma contractorSummary_count (bills : list SavedBill.t) :
  zsum (map ContractorGroup.totalBills (contractorSummary bills)) =
  Z.of_nat (List.length (filter attributed bills)).
Proof.
  unfold contractorSummary, zsum.
  rewrite <- (msum_perm Z.add 0 Z.add_assoc Z.add_comm Z.add_0_l _ _
                (Permutation_map _ (sort_perm _ _))).
  rewrite contractorMap_group.
  pose proof (groupFold_total Z.eqb Zeqb_eq contractorKey contractorInit
                ContractorGroup.add Z.add 0 Z.add_assoc Z.add_comm Z.add_0_l
                ContractorGroup.totalBills (fun _ => 1)
                (fun _ => eq_refl) (fun _ _ => eq_refl) bills []) as Hc.
  rewrite contractorKey_keyed in Hc. rewrite zsum_ones in Hc. exact Hc.
Qed.

(** ** The statement and the filtered bills *)

Lemma filter_all {A : Type} (p : A -> bool) (l : list A) :
  (forall x, In x l -> p x = true) -> filter p l = l.
Proof.
  induction l as [|x l IH]; intros H; simpl; [reflexivity|].
  rewrite (H x) by now left. f_equal. apply IH. intros y Hy. apply H. now right.
Qed.

Lemma filteredBills_pass (savedBills : list SavedBill.t) (contracts : list Contract.t)
    (f : FilterState) (bill : SavedBill.t) :
  In bill (filteredBills savedBills contracts f) ->
  In bill savedBills /\ billPasses contracts f bill = true.
Proof.
  unfold filteredBills. intros Hin.
  apply (Permutation_in _ (Permutation_sym (sort_perm _ _))) in Hin.
  now apply filter_In in Hin.
Qed.

Lemma statementSummary_fold (bills : list SavedBill.t) (acc : StatementSummary.t) :
  StatementSummary.grandTotal (fold_left statementStep bills acc) =
    Qplus (StatementSummary.grandTotal acc) (Num.sum (map SavedBill.grandTotal bills))
  /\ StatementSummary.netAmount (fold_left statementStep bills acc) =
       Qplus (StatementSummary.netAmount acc) (Num.sum (map SavedBill.netAmount bills))
  /\ StatementSummary.totalDeductions (fold_left statementStep bills acc) =
       Qplus (StatementSummary.totalDeductions acc)
             (Num.sum (map SavedBill.totalDeductions bills)).
Proof.
  revert acc. induction bills as [|bill bills IH]; intros acc; simpl.
  - rewrite !NumFacts.sum_nil, !NumFacts.plus_0_r. tauto.
  - destruct (IH (statementStep acc bill)) as (-> & -> & ->). simpl.
    rewrite !NumFacts.sum_cons, !NumFacts.plus_assoc. tauto.
Qed.

(** X7.  A statement generated for a resolvable contractor holds exactly
    the filtered bills (the filter has already kept that contractor's bills
    only), the two date bounds of the filter as its period, and as totals
    the three totals that the cards of the detail view show for the
    filtered bills. *)
Theorem statement_matches_filtered_view (p : Props) (st : State) (n : Z)
    (c : Contractor.t) :
  selectedContractorId (filters st) = contractorId n ->
  find (fun c => Contractor.id c =? n) (contractors p) = Some c ->
  let shown := filteredBills (savedBills p) (contracts p) (filters st) in
  exists snapshot,
    statementData (fst (handleGenerateStatement p st)) = Some snapshot
    /\ StatementData.bills snapshot = shown
    /\ StatementData.period snapshot = (startDate (filters st), endDate (filters st))
    /\ StatementSummary.grandTotal (StatementData.summary snapshot) =
         Totals.totalAmount (summary shown)
    /\ StatementSummary.totalDeductions (StatementData.summary snapshot) =
         Totals.totalDeductions (summary shown)
    /\ StatementSummary.netAmount (StatementData.summary snapshot) =
         Totals.netAmount (summary shown).
Proof.
  intros Hsel Hfind shown. unfold handleGenerateStatement. rewrite Hsel, Hfind.
  assert (Hall : filter (fun b => id_is (SavedBill.contractor_id b) n) shown = shown).
  { apply filter_all. intros b Hb.
    apply filteredBills_pass in Hb as [_ Hp].
    unfold billPasses in Hp. repeat rewrite andb_true_iff in Hp.
    destruct Hp as [[[Hc _] _] _]. unfold contractorMatch in Hc.
    now rewrite Hsel in Hc. }
  fold shown. rewrite Hall.
  eexists. split; [reflexivity|]. simpl.
  split; [reflexivity|]. split; [reflexivity|].
  rewrite summary_totals. simpl. unfold statementSummary.
  destruct (statementSummary_fold shown
              (StatementSummary.mk 0 0 0 CalculatedDeductions.empty))
    as (-> & -> & ->).
  simpl. now rewrite !NumFacts.plus_0_l.
Qed.

(** The statement of contractor 7 holds the two filtered bills. *)
Lemma statement_matches_filtered_view_witness :
  exists snapshot,
    statementData (fst (handleGenerateStatement props_acme state_acme)) = Some snapshot
    /\ StatementData.bills snapshot = [bill_misc; bill_acme]
    /\ StatementSummary.netAmount (StatementData.summary snapshot) = 1820%Q.
Proof.
  destruct (statement_matches_filtered_view props_acme state_acme 7
              (Contractor.mk 7 "Acme") eq_refl eq_refl)
    as (snapshot & Hs & Hb & _ & _ & _ & Hn).
  exists snapshot. split; [exact Hs|]. split; [exact Hb|]. exact Hn.
Defined.

(** ** The deductions report and the tax ledger *)

Lemma fold_left_same_in {A B : Type} (f g : A -> B -> A) (l : list B) (a : A) :
  (forall x y, In y l -> f x y = g x y) -> fold_left f l a = fold_left g l a.
Proof.
  revert a. induction l as [|b l IH]; intros a H; simpl; [reflexivity|].
  rewrite (H a b) by now left. apply IH. intros x y Hy. apply H. now right.
Qed.

(** The per-category part of the deductions pass is the roll-up of the
    statement. *)
Lemma deductionsStep_byKey (s : DeductionsSummary.t) (acc : StatementSummary.t)
    (bill : SavedBill.t) :
  DeductionsSummary.byKey s = StatementSummary.deductions acc ->
  DeductionsSummary.byKey (deductionsStep s bill) =
  StatementSummary.deductions (statementStep acc bill).
Proof.
  intros E. unfold deductionsStep, statementStep. simpl. rewrite E.
  apply fold_left_same_in. intros a key Hkey.
  apply filter_In in Hkey as [_ Hkey]. unfold rollUpKey.
  destruct (CalculatedDeductions.amount (SavedBill.deductions bill) key);
    [reflexivity | discriminate].
Qed.

Lemma deductions_fold_byKey (bills : list SavedBill.t) (s : DeductionsSummary.t)
    (acc : StatementSummary.t) :
  DeductionsSummary.byKey s = StatementSummary.deductions acc ->
  DeductionsSummary.byKey (fold_left deductionsStep bills s) =
  StatementSummary.deductions (fold_left statementStep bills acc).
Proof.
  revert s acc. induction bills as [|bill bills IH]; intros s acc E; simpl; [exact E|].
  apply IH. now apply deductionsStep_byKey.
Qed.

(** X8.  The Deductions report holds, under each numeric category, the sum
    of that category over the bills of the subset, a category that no bill
    holds being absent; it holds no description; and its per-category part
    is the roll-up that a statement over the same bills gets. *)
Theorem deductionsSummary_by_category (bills : list SavedBill.t) :
  DeductionsSummary.byKey (deductionsSummary bills) =
    StatementSummary.deductions (statementSummary bills)
  /\ CalculatedDeductions.others_description
       (DeductionsSummary.byKey (deductionsSummary bills)) = None
  /\ forall k,
       orZero (CalculatedDeductions.amount
                 (DeductionsSummary.byKey (deductionsSummary bills)) k) =
       categoryTotal k bills
       /\ (CalculatedDeductions.amount
             (DeductionsSummary.byKey (deductionsSummary bills)) k = None <->
           Forall (fun b => CalculatedDeductions.amount (SavedBill.deductions b) k = None)
                  bills).
Proof.
  assert (E : DeductionsSummary.byKey (deductionsSummary bills) =
              StatementSummary.deductions (statementSummary bills)).
  { unfold deductionsSummary, statementSummary.
    now apply deductions_fold_byKey. }
  split; [exact E|]. rewrite E. unfold statementSummary. split.
  - now rewrite (proj2 (statement_fold _ _ penalty)).
  - intros k. split.
    + rewrite (proj1 (statement_fold _ _ k)). simpl. apply NumFacts.plus_0_l.
    + rewrite statement_fold_absent. simpl. tauto.
Qed.

Lemma taxKeys_fold (v : DeductionKey -> Q) (k : DeductionKey)
    (ks : list DeductionKey) (f : DeductionKey -> Q) :
  NoDup ks ->
  fold_left (fun byKey key k' =>
               if CalculatedDeductions.key_eqb k' key
               then Qplus (byKey key) (v key) else byKey k')
            ks f k =
  if existsb (CalculatedDeductions.key_eqb k) ks then Qplus (f k) (v k) else f k.
Proof.
  intros Hnd. revert f.
  induction Hnd as [|key ks Hnotin Hnd IH]; intros f; simpl; [reflexivity|].
  rewrite IH. cbv beta.
  destruct (CalculatedDeductions.key_eqb k key) eqn:E; simpl.
  - apply key_eqb_eq in E; subst key.
    assert (Hex : existsb (CalculatedDeductions.key_eqb k) ks = false).
    { destruct (existsb _ ks) eqn:Ex; [|reflexivity].
      apply existsb_exists in Ex as [k' [Hin Hk']].
      apply key_eqb_eq in Hk'; subst k'. contradiction. }
    now rewrite Hex.
  - reflexivity.
Qed.

Lemma all_keys_listed (k : DeductionKey) :
  existsb (CalculatedDeductions.key_eqb k) DEDUCTION_KEYS = true.
Proof. destruct k; reflexivity. Qed.

Lemma fold_netKgs (items : list BillItem.t) (a : Q) :
  fold_left (fun s i => Qplus s (BillItem.netKgs i)) items a =
  fold_left Qplus (map BillItem.netKgs items) a.
Proof.
  revert a. induction items as [|i items IH]; intros a; simpl; [reflexivity | apply IH].
Qed.

Lemma taxTotals_fold (bills : list SavedBill.t) (acc : TaxTotals.t) :
  let result :=
    fold_left (fun acc bill =>
      TaxTotals.mk
        (TaxTotals.netKgs acc
         + fold_left (fun s i => Qplus s (BillItem.netKgs i))
                     (SavedBill.bill_items bill) 0%Q)
        (TaxTotals.grandTotal acc + SavedBill.grandTotal bill)
        (TaxTotals.totalDeductions acc + SavedBill.totalDeductions bill)
        (TaxTotals.netAmount acc + SavedBill.netAmount bill)
        (fold_left (fun byKey key k =>
                      if CalculatedDeductions.key_eqb k key
                      then Qplus (byKey key)
                             (orZero (CalculatedDeductions.amount
                                        (SavedBill.deductions bill) key))
                      else byKey k)
                   DEDUCTION_KEYS (TaxTotals.byKey acc)))
      bills acc in
  TaxTotals.grandTotal result =
    Qplus (TaxTotals.grandTotal acc) (Num.sum (map SavedBill.grandTotal bills))
  /\ TaxTotals.totalDeductions result =
       Qplus (TaxTotals.totalDeductions acc)
             (Num.sum (map SavedBill.totalDeductions bills))
  /\ TaxTotals.netAmount result =
       Qplus (TaxTotals.netAmount acc) (Num.sum (map SavedBill.netAmount bills))
  /\ forall k, TaxTotals.byKey result k =
               Qplus (TaxTotals.byKey acc k) (categoryTotal k bills).
Proof.
  revert acc. induction bills as [|bill bills IH]; intros acc; cbv zeta.
  - unfold categoryTotal. cbn [fold_left map].
    rewrite !NumFacts.sum_nil, !NumFacts.plus_0_r.
    repeat split. intros k. now rewrite NumFacts.plus_0_r.
  - cbn [fold_left].
    match goal with
    | |- context [fold_left ?f bills ?a] =>
        destruct (IH a) as (H2 & H3 & H4 & H5)
    end.
    cbv zeta in H2, H3, H4, H5.
    cbn [TaxTotals.netKgs TaxTotals.grandTotal TaxTotals.totalDeductions
         TaxTotals.netAmount TaxTotals.byKey] in H2, H3, H4, H5.
    rewrite H2, H3, H4.
    cbn [map].
    rewrite !NumFacts.sum_cons, !NumFacts.plus_assoc.
    split; [|split; [|split]]; try reflexivity.
    + intros k. rewrite H5.
      rewrite (taxKeys_fold
                 (fun key => orZero (CalculatedDeductions.amount
                                       (SavedBill.deductions bill) key))
                 k DEDUCTION_KEYS (TaxTotals.byKey acc) DEDUCTION_KEYS_NoDup).
      rewrite all_keys_listed. unfold categoryTotal. cbn [map].
      now rewrite NumFacts.sum_cons, NumFacts.plus_assoc.
Qed.

(** The net kg of the totals row: the weights of the items of each bill are
    added up first, and these sums are added bill by bill. *)
Lemma taxTotals_netKgs (bills : list SavedBill.t) (acc : TaxTotals.t) :
  TaxTotals.netKgs
    (fold_left (fun acc bill =>
      TaxTotals.mk
        (TaxTotals.netKgs acc
         + fold_left (fun s i => Qplus s (BillItem.netKgs i))
                     (SavedBill.bill_items bill) 0%Q)
        (TaxTotals.grandTotal acc + SavedBill.grandTotal bill)
        (TaxTotals.totalDeductions acc + SavedBill.totalDeductions bill)
        (TaxTotals.netAmount acc + SavedBill.netAmount bill)
        (fold_left (fun byKey key k =>
                      if CalculatedDeductions.key_eqb k key
                      then Qplus (byKey key)
                             (orZero (CalculatedDeductions.amount
                                        (SavedBill.deductions bill) key))
                      else byKey k)
                   DEDUCTION_KEYS (TaxTotals.byKey acc)))
      bills acc) =
  fold_left Qplus
    (map (fun bill => Num.sum (map BillItem.netKgs (SavedBill.bill_items bill))) bills)
    (TaxTotals.netKgs acc).
Proof.
  revert acc. induction bills as [|bill bills IH]; intros acc; [reflexivity|].
  cbn [fold_left map]. rewrite IH. cbn [TaxTotals.netKgs].
  now rewrite fold_netKgs.
Qed.

(** X9.  The totals row of the tax ledger holds the totals of the cards of
    the detail view; as net kg the sum, bill by bill, of the net kg that
    the items of each bill add up to; and, under each deduction category,
    the value the Deductions report shows for it. *)
Theorem taxTotals_match_other_views (bills : list SavedBill.t) :
  TaxTotals.grandTotal (taxTotals bills) = Totals.totalAmount (summary bills)
  /\ TaxTotals.totalDeductions (taxTotals bills) = Totals.totalDeductions (summary bills)
  /\ TaxTotals.netAmount (taxTotals bills) = Totals.netAmount (summary bills)
  /\ TaxTotals.netKgs (taxTotals bills) =
       Num.sum (map (fun bill => Num.sum (map BillItem.netKgs (SavedBill.bill_items bill)))
                    bills)
  /\ forall k,
       TaxTotals.byKey (taxTotals bills) k =
       orZero (CalculatedDeductions.amount
                 (DeductionsSummary.byKey (deductionsSummary bills)) k).
Proof.
  destruct (taxTotals_fold bills (TaxTotals.mk 0 0 0 0 (fun _ => 0%Q)))
    as (H2 & H3 & H4 & H5).
  pose proof (taxTotals_netKgs bills (TaxTotals.mk 0 0 0 0 (fun _ => 0%Q))) as H1.
  unfold taxTotals. rewrite summary_totals. simpl in *.
  rewrite H1, H2, H3, H4, !NumFacts.plus_0_l.
  repeat split. intros k. rewrite H5, NumFacts.plus_0_l.
  assert (E : DeductionsSummary.byKey (deductionsSummary bills) =
              StatementSummary.deductions (statementSummary bills)).
  { unfold deductionsSummary, statementSummary. now apply deductions_fold_byKey. }
  rewrite E. unfold statementSummary.
  rewrite (proj1 (statement_fold _ _ k)). simpl. now rewrite NumFacts.plus_0_l.
Qed.

(** ** The bill filter on its criteria *)

Lemma noFilter_passes (contracts : list Contract.t) (bill : SavedBill.t) :
  billPasses contracts noFilter bill = true.
Proof. reflexivity. Qed.

(** X10.  With no criterion set the filter keeps every bill: the result is
    the record list in another order, each bill as often as the list holds
    it. *)
Theorem filteredBills_default_keeps_all (savedBills : list SavedBill.t)
    (contracts : list Contract.t) :
  Permutation (filteredBills savedBills contracts noFilter) savedBills.
Proof.
  unfold filteredBills.
  rewrite (filter_all _ savedBills (fun b _ => noFilter_passes contracts b)).
  apply Permutation_sym, sort_perm.
Qed.

(** The sample bills of contractor 7, filtered twice. *)
Lemma filteredBills_idempotent_witness :
  Forall dated (savedBills props_acme)
  /\ filteredBills (filteredBills (savedBills props_acme) [] filter_acme) [] filter_acme =
     filteredBills (savedBills props_acme) [] filter_acme
  /\ filteredBills (savedBills props_acme) [] filter_acme = [bill_misc; bill_acme].
Proof.
  split; [exact sample_bills_dated|]. split; [|reflexivity].
  exact (filteredBills_idempotent (savedBills props_acme) [] filter_acme
           sample_bills_dated).
Defined.

(** X12.  The two date bounds are inclusive: with the start and the end
    date set to the same day, a bill passes the date criterion exactly when
    its date is the text of that day. *)
Theorem dateMatch_same_day (f : FilterState) (bill : SavedBill.t) :
  startDate f <> ""%string ->
  endDate f = startDate f ->
  (dateMatch f bill = true <-> SavedBill.bill_date bill = startDate f).
Proof.
  intros Hne He. unfold dateMatch. rewrite He.
  assert (E : Str.isEmpty (startDate f) = false).
  { destruct (startDate f); [contradiction | reflexivity]. }
  rewrite E. simpl. unfold Str.geb. rewrite andb_true_iff. split.
  - intros [H1 H2]. now apply String.leb_antisym.
  - intros ->. now rewrite string_leb_refl.
Qed.

(** The filter of one day, on a bill of that day. *)
Lemma dateMatch_same_day_witness :
  dateMatch (mkFilter all "all" "" "2024-02-01" "2024-02-01" "all") bill_misc = true
  /\ dateMatch (mkFilter all "all" "" "2024-02-01" "2024-02-01" "all") bill_acme = false.
Proof.
  split; [|reflexivity].
  apply (dateMatch_same_day (mkFilter all "all" "" "2024-02-01" "2024-02-01" "all")
           bill_misc); [discriminate | reflexivity | reflexivity].
Defined.

Lemma toLowerCase_empty (s : string) :
  Str.isEmpty (Str.toLowerCase s) = Str.isEmpty s.
Proof. destruct s; reflexivity. Qed.

Lemma prefix_self (s : string) : prefix s s = true.
Proof.
  induction s as [|c s IH]; simpl; [reflexivity|].
  destruct (ascii_dec c c) as [_|N]; [exact IH | contradiction].
Qed.

Lemma includes_self (s : string) : Str.includes s s = true.
Proof.
  destruct s as [|c s]; [reflexivity|].
  cbn [Str.includes]. now rewrite prefix_self.
Qed.

(** X13.  The search ignores the case of the query: two queries that differ
    in the case of their letters only select the same bills, and a bill is
    found by its whole number in any case. *)
Theorem search_ignores_query_case (f1 f2 : FilterState) (bill : SavedBill.t) :
  Str.toLowerCase (searchQuery f1) = Str.toLowerCase (searchQuery f2) ->
  searchMatch f1 bill = searchMatch f2 bill
  /\ (Str.toLowerCase (searchQuery f1) = Str.toLowerCase (SavedBill.bill_number bill) ->
      searchMatch f1 bill = true).
Proof.
  intros E. unfold searchMatch. split.
  - rewrite <- (toLowerCase_empty (searchQuery f1)),
            <- (toLowerCase_empty (searchQuery f2)), E. reflexivity.
  - intros ->. rewrite includes_self. apply orb_true_r.
Qed.

(** The bill M-1 is found under "m-1". *)
Lemma search_ignores_query_case_witness :
  searchMatch (mkFilter all "all" "m-1" "" "" "all") bill_acme =
  searchMatch (mkFilter all "all" "M-1" "" "" "all") bill_acme
  /\ searchMatch (mkFilter all "all" "m-1" "" "" "all") bill_acme = true.
Proof.
  split.
  - exact (proj1 (search_ignores_query_case
                    (mkFilter all "all" "m-1" "" "" "all")
                    (mkFilter all "all" "M-1" "" "" "all") bill_acme eq_refl)).
  - reflexivity.
Defined.

(** ** Sets of strings *)

Lemma set_add_In (x y : string) (s : list string) :
  In x (set_add y s) <-> x = y \/ In x s.
Proof.
  unfold set_add. destruct (existsb (String.eqb y) s) eqn:E.
  - split; [tauto|]. intros [-> | H]; [|exact H].
    apply existsb_exists in E as [z [Hz Ez]].
    apply String.eqb_eq in Ez. now subst z.
  - rewrite in_app_iff. simpl. split; [intros [H|[H|[]]]; auto | intros [H|H]; auto].
Qed.

Lemma set_add_NoDup (y : string) (s : list string) : NoDup s -> NoDup (set_add y s).
Proof.
  intros Hnd. unfold set_add. destruct (existsb (String.eqb y) s) eqn:E; [exact Hnd|].
  apply NoDup_app; [exact Hnd | repeat constructor; intros [] |].
  intros x Hx [<- | []].
  assert (Ex : existsb (String.eqb y) s = true).
  { apply existsb_exists. exists y. split; [exact Hx | apply String.eqb_refl]. }
  congruence.
Qed.

Lemma set_fold_In (x : string) (l s : list string) :
  In x (fold_left (fun s a => set_add a s) l s) <-> In x s \/ In x l.
Proof.
  revert s. induction l as [|a l IH]; intros s; simpl; [tauto|].
  rewrite IH, set_add_In. split; intros H; intuition auto.
Qed.

Lemma set_fold_NoDup (l s : list string) :
  NoDup s -> NoDup (fold_left (fun s a => set_add a s) l s).
Proof.
  revert s. induction l as [|a l IH]; intros s H; simpl; [exact H|].
  apply IH, set_add_NoDup, H.
Qed.

Lemma sort_strings (l : list string) :
  StronglySorted (fun a b => String.leb a b = true) (sort String.leb l).
Proof.
  apply (sort_sorted String.leb (fun _ => True)).
  - intros a b _ _. apply String.leb_total.
  - intros a b c _ _ _. apply string_leb_trans.
  - apply Forall_forall. trivial.
Qed.

(** ** The routes offered and the route kept *)

Lemma routes_fold (cs : list Contract.t) (s : list string) :
  fold_left (fun routeSet c => set_add (routeStr c) routeSet) cs s =
  fold_left (fun s a => set_add a s) (map routeStr cs) s.
Proof.
  revert s. induction cs as [|c cs IH]; intros s; simpl; [reflexivity | apply IH].
Qed.

Lemma relevantContracts_In (contracts : list Contract.t) (f : FilterState)
    (c : Contract.t) :
  In c (relevantContracts contracts f) <->
  In c contracts
  /\ match selectedContractorId f with
     | all => True
     | contractorId n => Contract.contractor_id c = n
     end.
Proof.
  unfold relevantContracts. destruct (selectedContractorId f) as [|n].
  - tauto.
  - rewrite filter_In, Z.eqb_eq. tauto.
Qed.

Lemma routesForFilter_In (contracts : list Contract.t) (f : FilterState) (r : string) :
  In r (routesForFilter contracts f) <->
  exists c, In c (relevantContracts contracts f) /\ routeStr c = r.
Proof.
  unfold routesForFilter. split.
  - intros H. apply (Permutation_in _ (Permutation_sym (sort_perm _ _))) in H.
    rewrite routes_fold in H. apply set_fold_In in H as [[]|H].
    apply in_map_iff in H as [c [Hr Hc]]. now exists c.
  - intros [c [Hc Hr]]. apply (Permutation_in _ (sort_perm _ _)).
    rewrite routes_fold. apply set_fold_In. right.
    apply in_map_iff. now exists c.
Qed.

(** X14.  The route selector offers each route of a contract of the
    selected contractor (of any contract under "all") exactly once, in
    ascending order of the texts, and nothing else. *)
Theorem routesForFilter_offers (contracts : list Contract.t) (f : FilterState) :
  NoDup (routesForFilter contracts f)
  /\ StronglySorted (fun a b => String.leb a b = true) (routesForFilter contracts f)
  /\ forall r,
       In r (routesForFilter contracts f) <->
       exists c, In c contracts /\ routeStr c = r
                 /\ match selectedContractorId f with
                    | all => True
                    | contractorId n => Contract.contractor_id c = n
                    end.
Proof.
  split; [|split].
  - unfold routesForFilter. eapply Permutation_NoDup; [apply sort_perm|].
    rewrite routes_fold. apply set_fold_NoDup. constructor.
  - apply sort_strings.
  - intros r. rewrite routesForFilter_In. split.
    + intros [c [Hc Hr]]. apply relevantContracts_In in Hc as [Hc Hn].
      exists c. tauto.
    + intros [c [Hc [Hr Hn]]]. exists c. split; [|exact Hr].
      apply relevantContracts_In. tauto.
Qed.

Lemma routesForFilter_selector (contracts : list Contract.t) (f g : FilterState) :
  selectedContractorId f = selectedContractorId g ->
  routesForFilter contracts f = routesForFilter contracts g.
Proof. unfold routesForFilter, relevantContracts. now intros ->. Qed.

(** X15.  After the route effect the selected route is "all" or one of the
    routes offered; an offered route is kept, any other is replaced by
    "all"; no other criterion changes, and running the effect again changes
    nothing. *)
Theorem resetRoute_keeps_offered_route (contracts : list Contract.t) (f : FilterState) :
  let g := resetRoute contracts f in
  (selectedRoute g = "all"%string \/ In (selectedRoute g) (routesForFilter contracts g))
  /\ (In (selectedRoute f) (routesForFilter contracts f) -> g = f)
  /\ (~ In (selectedRoute f) (routesForFilter contracts f) ->
      selectedRoute g = "all"%string)
  /\ (selectedContractorId g = selectedContractorId f
      /\ searchQuery g = searchQuery f /\ startDate g = startDate f
      /\ endDate g = endDate f /\ auditActionFilter g = auditActionFilter f)
  /\ resetRoute contracts g = g.
Proof.
  assert (Hiff : existsb (String.eqb (selectedRoute f)) (routesForFilter contracts f)
                 = true <-> In (selectedRoute f) (routesForFilter contracts f)).
  { rewrite existsb_exists. split.
    - intros [r [Hr Er]]. apply String.eqb_eq in Er. now rewrite Er.
    - intros Hin. exists (selectedRoute f). split; [exact Hin | apply String.eqb_refl]. }
  intros g. subst g.
  destruct (existsb (String.eqb (selectedRoute f)) (routesForFilter contracts f)) eqn:E.
  - assert (Hin : In (selectedRoute f) (routesForFilter contracts f))
      by now apply Hiff.
    assert (R : resetRoute contracts f = f) by (unfold resetRoute; now rewrite E).
    rewrite !R.
    split; [now right|]. split; [intros _; reflexivity|].
    split; [intros H; contradiction|]. split; [repeat split|]. reflexivity.
  - assert (Hnot : ~ In (selectedRoute f) (routesForFilter contracts f)).
    { intros Hin. apply Hiff in Hin. discriminate. }
    assert (R : resetRoute contracts f =
                mkFilter (selectedContractorId f) "all" (searchQuery f)
                         (startDate f) (endDate f) (auditActionFilter f))
      by (unfold resetRoute; now rewrite E).
    rewrite !R.
    cbn [selectedRoute selectedContractorId searchQuery startDate endDate
         auditActionFilter].
    split; [now left|]. split; [intros H; contradiction|].
    split; [intros _; reflexivity|]. split; [repeat split|].
    unfold resetRoute.
    match goal with
    | |- (if ?c then _ else _) = _ => destruct c; reflexivity
    end.
Qed.

Lemma existsb_false_all {A : Type} (p : A -> bool) (l : list A) :
  (forall x, In x l -> p x = false) -> existsb p l = false.
Proof.
  induction l as [|x l IH]; intros H; simpl; [reflexivity|].
  rewrite (H x) by now left. apply IH. intros y Hy. apply H. now right.
Qed.

(** X16.  A selected route that no contract of the list has matches no
    bill: the filtered list is empty, whatever the other criteria. *)
Theorem unknown_route_matches_nothing (savedBills : list SavedBill.t)
    (contracts : list Contract.t) (f : FilterState) :
  selectedRoute f <> "all"%string ->
  (forall c, In c contracts -> routeStr c <> selectedRoute f) ->
  filteredBills savedBills contracts f = [].
Proof.
  intros Hr Hnone. unfold filteredBills.
  assert (Hf : filter (billPasses contracts f) savedBills = []).
  { induction savedBills as [|bill bills IH]; simpl; [reflexivity|].
    assert (Hp : billPasses contracts f bill = false).
    { unfold billPasses, routeMatch.
      apply String.eqb_neq in Hr. rewrite Hr. simpl.
      rewrite existsb_false_all; [apply andb_false_r|].
      intros item _.
      destruct (find _ contracts) as [c|] eqn:Ef; [|reflexivity].
      apply find_some in Ef as [Hc _].
      apply String.eqb_neq. now apply Hnone. }
    now rewrite Hp. }
  now rewrite Hf.
Qed.

(** No contract has the route from A to B. *)
Lemma unknown_route_matches_nothing_witness :
  selectedRoute (filter_route "A -> B") <> "all"%string
  /\ filteredBills [bill_priced; bill_acme] [contract_X_Y] (filter_route "A -> B") = []
  /\ filteredBills [bill_priced; bill_acme] [contract_X_Y] (filter_route "X -> Y") =
     [bill_priced].
Proof.
  assert (Hr : selectedRoute (filter_route "A -> B") <> "all"%string) by discriminate.
  split; [exact Hr|]. split; [|reflexivity].
  apply (unknown_route_matches_nothing [bill_priced; bill_acme] [contract_X_Y]
           (filter_route "A -> B") Hr).
  intros c [<- | []]. discriminate.
Defined.

(** ** The actions offered and the audit filter *)

Lemma uniqueAuditActions_In (auditLogs : list AuditLog.t) (a : string) :
  In a (uniqueAuditActions auditLogs) <->
  exists log, In log auditLogs /\ AuditLog.action log = a.
Proof.
  unfold uniqueAuditActions. split.
  - intros H. apply (Permutation_in _ (Permutation_sym (sort_perm _ _))) in H.
    apply set_fold_In in H as [[]|H].
    apply in_map_iff in H as [log [Ha Hl]]. now exists log.
  - intros [log [Hl Ha]]. apply (Permutation_in _ (sort_perm _ _)).
    apply set_fold_In. right. apply in_map_iff. now exists log.
Qed.

(** X17.  The action selector offers each action label of the log exactly
    once, in ascending order of the texts, and nothing else. *)
Theorem uniqueAuditActions_offers (auditLogs : list AuditLog.t) :
  NoDup (uniqueAuditActions auditLogs)
  /\ StronglySorted (fun a b => String.leb a b = true) (uniqueAuditActions auditLogs)
  /\ forall a,
       In a (uniqueAuditActions auditLogs) <->
       exists log, In log auditLogs /\ AuditLog.action log = a.
Proof.
  split; [|split].
  - unfold uniqueAuditActions. eapply Permutation_NoDup; [apply sort_perm|].
    apply set_fold_NoDup. constructor.
  - apply sort_strings.
  - apply uniqueAuditActions_In.
Qed.

(** X18.  Choosing an offered action, other than one spelled "all", with
    no other criterion set shows exactly the entries of that action, and at
    least one. *)
Theorem offered_action_selects_its_entries (auditLogs : list AuditLog.t)
    (a : string) :
  In a (uniqueAuditActions auditLogs) ->
  a <> "all"%string ->
  filteredAuditLogs auditLogs (filter_action a) <> []
  /\ filteredAuditLogs auditLogs (filter_action a) =
     filter (fun log => String.eqb (AuditLog.action log) a) auditLogs.
Proof.
  intros Hin Hne.
  assert (E : filteredAuditLogs auditLogs (filter_action a) =
              filter (fun log => String.eqb (AuditLog.action log) a) auditLogs).
  { unfold filteredAuditLogs. apply filter_same. intros log.
    unfold auditPasses, filter_action.
    cbn [auditActionFilter searchQuery startDate endDate Str.isEmpty orb andb].
    apply String.eqb_neq in Hne. rewrite Hne. cbn [orb].
    now rewrite !andb_true_r. }
  split; [|exact E]. rewrite E.
  apply uniqueAuditActions_In in Hin as [log [Hl Ha]].
  intros Hnil.
  assert (Hin : In log (filter (fun log => String.eqb (AuditLog.action log) a) auditLogs)).
  { apply filter_In. split; [exact Hl | now apply String.eqb_eq]. }
  rewrite Hnil in Hin. contradiction.
Qed.

(** The one action of two sample entries. *)
Lemma offered_action_selects_its_entries_witness :
  In "Bill Created"%string
     (uniqueAuditActions [log_at "a1" "2024-03-11T00:00:01Z";
                          log_at "a2" "2024-03-10T23:59:00Z"])
  /\ uniqueAuditActions [log_at "a1" "2024-03-11T00:00:01Z";
                         log_at "a2" "2024-03-10T23:59:00Z"] = ["Bill Created"%string]
  /\ filteredAuditLogs [log_at "a1" "2024-03-11T00:00:01Z";
                        log_at "a2" "2024-03-10T23:59:00Z"]
                       (filter_action "Bill Created") =
     filter (fun log => String.eqb (AuditLog.action log) "Bill Created")
            [log_at "a1" "2024-03-11T00:00:01Z"; log_at "a2" "2024-03-10T23:59:00Z"].
Proof.
  assert (Hin : In "Bill Created"%string
                   (uniqueAuditActions [log_at "a1" "2024-03-11T00:00:01Z";
                                        log_at "a2" "2024-03-10T23:59:00Z"]))
    by (left; reflexivity).
  split; [exact Hin|]. split; [reflexivity|].
  apply (offered_action_selects_its_entries _ "Bill Created" Hin). discriminate.
Defined.

(** The end date 2024-03-10 on an entry of the evening of that day. *)
Lemma auditPasses_until_witness :
  auditPasses (filter_until "2024-03-10") (log_at "a2" "2024-03-10T23:59:00Z") =
  (1710115140000 <=? 1710028800000 + (JSDate.msPerDay - 1))
  /\ auditPasses (filter_until "2024-03-10") (log_at "a2" "2024-03-10T23:59:00Z") = true.
Proof.
  split; [|reflexivity].
  apply (auditPasses_until "2024-03-10" 1710028800000 1710115140000
           (log_at "a2" "2024-03-10T23:59:00Z")); reflexivity.
Defined.

(** ** The station summary as a whole *)

(** The entry of station X in the summary of the scenario. *)
Lemma stationSummary_counts_witness :
  In (Station.mk "X" 1 500 1000 0 0 ["b1"%string]) (stationSummary [bill_acme])
  /\ 1 = Z.of_nat (List.length (dispatchedFrom "X" (allItems [bill_acme])))
  /\ 0 = Z.of_nat (List.length (receivedAt "X" (allItems [bill_acme]))).
Proof.
  assert (Hin : In (Station.mk "X" 1 500 1000 0 0 ["b1"%string])
                   (stationSummary [bill_acme])) by (left; reflexivity).
  split; [exact Hin|].
  destruct (stationSummary_counts [bill_acme] _ Hin) as (H1 & _ & _ & H4 & _).
  split; [exact H1 | exact H4].
Defined.

Lemma values_labels {K V : Type} (lab : V -> K) (m : list (K * V)) :
  (forall k v, In (k, v) m -> lab v = k) ->
  map lab (map_values m) = map fst m.
Proof.
  unfold map_values. induction m as [|[k v] m IH]; intros H; simpl; [reflexivity|].
  rewrite (H k v) by now left.
  f_equal. apply IH. intros k' v' Hin. apply H. now right.
Qed.

Lemma map_has_upsert {K V : Type} (eqb : K -> K -> bool)
    (eqb_eq : forall a b, eqb a b = true <-> a = b)
    (k k' : K) (init : V) (f : V -> V) (m : list (K * V)) :
  map_has eqb k' (map_upsert eqb k init f m) = eqb k k' || map_has eqb k' m.
Proof.
  rewrite !(map_has_get eqb), (map_get_upsert eqb eqb_eq).
  destruct (eqb k k'); reflexivity.
Qed.

Lemma stationMap_has_items (name : string) (bill : SavedBill.t)
    (items : list BillItem.t) (m : list (string * Station.t)) :
  map_has String.eqb name (fold_left (stationItemStep bill) items m) =
  map_has String.eqb name m || existsb (touches name) items.
Proof.
  revert m. induction items as [|item items IH]; intros m; simpl.
  - now rewrite orb_false_r.
  - rewrite IH. unfold stationItemStep, withStation, touches.
    rewrite !(map_has_upsert String.eqb String.eqb_eq).
    destruct (String.eqb (BillItem.from item) name),
             (String.eqb (BillItem.to item) name),
             (map_has String.eqb name m); reflexivity.
Qed.

Lemma stationMap_has_bills (name : string) (bills : list SavedBill.t)
    (m : list (string * Station.t)) :
  map_has String.eqb name
    (fold_left (fun m bill =>
                  fold_left (stationItemStep bill) (SavedBill.bill_items bill) m)
               bills m) =
  map_has String.eqb name m || existsb (touches name) (allItems bills).
Proof.
  revert m. induction bills as [|bill bills IH]; intros m; simpl.
  - now rewrite orb_false_r.
  - rewrite IH, stationMap_has_items. unfold allItems. simpl.
    rewrite existsb_app. now rewrite orb_assoc.
Qed.

(** X21.  The Station Summary has one entry per station name, for exactly
    the names that some item of the subset leaves from or arrives at. *)
Theorem stationSummary_stations (bills : list SavedBill.t) :
  NoDup (map Station.name (stationSummary bills))
  /\ forall name,
       In name (map Station.name (stationSummary bills)) <->
       exists item, In item (allItems bills)
                    /\ (BillItem.from item = name \/ BillItem.to item = name).
Proof.
  destruct (stationMapOf_ok bills) as [Hnd Hname].
  assert (Hperm : Permutation (map fst (stationMapOf bills))
                              (map Station.name (stationSummary bills))).
  { rewrite <- (values_labels Station.name _ Hname).
    unfold stationSummary. apply Permutation_map, sort_perm. }
  split.
  - eapply Permutation_NoDup; eassumption.
  - intros name. split.
    + intros Hin. apply (Permutation_in _ (Permutation_sym Hperm)) in Hin.
      apply (map_has_keys String.eqb String.eqb_eq) in Hin.
      unfold stationMapOf in Hin. rewrite stationMap_has_bills in Hin.
      simpl in Hin. apply existsb_exists in Hin as [item [Hi Ht]].
      exists item. split; [exact Hi|].
      unfold touches in Ht. apply orb_true_iff in Ht.
      rewrite !String.eqb_eq in Ht. exact Ht.
    + intros [item [Hi Ht]]. apply (Permutation_in _ Hperm).
      apply (map_has_keys String.eqb String.eqb_eq).
      unfold stationMapOf. rewrite stationMap_has_bills. simpl.
      apply existsb_exists. exists item. split; [exact Hi|].
      unfold touches. apply orb_true_iff. now rewrite !String.eqb_eq.
Qed.

Section StationTotals.

Context {M : Type}.
Variable op : M -> M -> M.
Variable e : M.
Hypothesis op_assoc : forall x y z, op x (op y z) = op (op x y) z.
Hypothesis op_comm : forall x y, op x y = op y x.
Hypothesis op_e_l : forall x, op e x = x.
Variable q : Station.t -> M.
Variable dd dr : BillItem.t -> M.
Hypothesis q_fresh : forall name, q (Station.fresh name) = e.
Hypothesis q_dispatch : forall bill item s, q (Station.dispatch bill item s) = op (q s) (dd item).
Hypothesis q_receive : forall bill item s, q (Station.receive bill item s) = op (q s) (dr item).

Lemma station_total_items (bill : SavedBill.t) (items : list BillItem.t)
    (m : list (string * Station.t)) :
  fold_left op (map q (map_values (fold_left (stationItemStep bill) items m))) e =
  op (fold_left op (map q (map_values m)) e)
     (fold_left op (map (fun i => op (dd i) (dr i)) items) e).
Proof.
  revert m. induction items as [|item items IH]; intros m; simpl.
  - now rewrite (op_e_r op e op_comm op_e_l).
  - rewrite IH. unfold stationItemStep, withStation.
    rewrite (mtotal_upsert op e op_assoc op_comm op_e_l String.eqb String.eqb_eq q
               _ _ _ (dr item)); auto.
    rewrite (mtotal_upsert op e op_assoc op_comm op_e_l String.eqb String.eqb_eq q
               _ _ _ (dd item)); auto.
    change (fold_left op (op e (op (dd item) (dr item))
                          :: map (fun i => op (dd i) (dr i)) items) e)
      with (fold_left op (map (fun i => op (dd i) (dr i)) (item :: items)) e)
      || idtac.
    rewrite op_e_l.
    rewrite <- (op_e_l (op (dd item) (dr item))) at 1.
    change (fold_left op (map (fun i => op (dd i) (dr i)) items)
                      (op e (op (dd item) (dr item))))
      with (fold_left op (op (dd item) (dr item)
                          :: map (fun i => op (dd i) (dr i)) items) e).
    rewrite (msum_cons op e op_assoc op_comm op_e_l).
    now rewrite !op_assoc.
Qed.

Lemma station_total_bills (bills : list SavedBill.t) (m : list (string * Station.t)) :
  fold_left op
    (map q (map_values
       (fold_left (fun m bill =>
                     fold_left (stationItemStep bill) (SavedBill.bill_items bill) m)
                  bills m))) e =
  op (fold_left op (map q (map_values m)) e)
     (fold_left op (map (fun i => op (dd i) (dr i)) (allItems bills)) e).
Proof.
  revert m. induction bills as [|bill bills IH]; intros m; simpl.
  - now rewrite (op_e_r op e op_comm op_e_l).
  - rewrite IH, station_total_items. unfold allItems. simpl.
    rewrite map_app, (msum_app op e op_assoc op_comm op_e_l).
    now rewrite op_assoc.
Qed.

Lemma stationSummary_total (bills : list SavedBill.t) :
  fold_left op (map q (stationSummary bills)) e =
  fold_left op (map (fun i => op (dd i) (dr i)) (allItems bills)) e.
Proof.
  unfold stationSummary.
  rewrite <- (msum_perm op e op_assoc op_comm op_e_l _ _
                (Permutation_map q (sort_perm _ _))).
  unfold stationMapOf. rewrite station_total_bills. simpl. apply op_e_l.
Qed.

End StationTotals.

(** X22.  No trip is lost between the stations: over the entries of the
    Station Summary the dispatched trips add up to the number of items of
    the subset, and so do the received trips. *)
Theorem station_trips_match_items (bills : list SavedBill.t) :
  zsum (map Station.dispatchedTrips (stationSummary bills)) =
    Z.of_nat (List.length (allItems bills))
  /\ zsum (map Station.receivedTrips (stationSummary bills)) =
       Z.of_nat (List.length (allItems bills)).
Proof.
  pose proof (fun q dd dr H1 H2 H3 =>
                stationSummary_total Z.add 0 Z.add_assoc Z.add_comm Z.add_0_l
                  q dd dr H1 H2 H3 bills) as HZ.
  unfold zsum.
  split.
  - rewrite (HZ Station.dispatchedTrips (fun _ => 1) (fun _ => 0));
      [ apply (zsum_ones (allItems bills))
      | reflexivity | reflexivity
      | intros; simpl; symmetry; apply Z.add_0_r ].
  - rewrite (HZ Station.receivedTrips (fun _ => 0) (fun _ => 1));
      [ apply (zsum_ones (allItems bills))
      | reflexivity
      | intros; simpl; symmetry; apply Z.add_0_r
      | reflexivity ].
Qed.

(** ** The contract summary, row by row *)

(** The ids that a grouping pass collects under a key. *)
Section GroupMembers.

Context {B K V : Type}.
Variable eqb : K -> K -> bool.
Hypothesis eqb_eq : forall a b, eqb a b = true <-> a = b.
Variable keyOf : B -> option K.
Variable init : B -> V.
Variable add : B -> V -> V.
Variable ids : V -> list string.
Variable idOf : B -> string.
Hypothesis ids_init : forall b, ids (init b) = [].
Hypothesis ids_add : forall b v, ids (add b v) = set_add (idOf b) (ids v).

Lemma groupFold_members (k : K) (x : string) (l : list B) (m : list (K * V)) :
  In x (valueAt eqb ids [] k (fold_left (groupStep eqb keyOf init add) l m)) <->
  In x (valueAt eqb ids [] k m)
  \/ exists b, In b l /\ keyIs eqb keyOf k b = true /\ idOf b = x.
Proof.
  revert m. induction l as [|b l IH]; intros m; simpl.
  - split; [now left | intros [H | (b & [] & _)]; exact H].
  - rewrite IH. unfold valueAt at 1. rewrite (groupStep_get eqb eqb_eq).
    destruct (keyIs eqb keyOf k b) eqn:Ek.
    + rewrite ids_add, set_add_In.
      assert (Hv : ids (match map_get eqb k m with Some v => v | None => init b end) =
                   valueAt eqb ids [] k m).
      { unfold valueAt. destruct (map_get eqb k m); [reflexivity | apply ids_init]. }
      rewrite Hv. split.
      * intros [[-> | H] | (b' & Hb' & Hk & Hx)].
        -- right. exists b. auto.
        -- now left.
        -- right. exists b'. auto.
      * intros [H | (b' & [<- | Hb'] & Hk & Hx)].
        -- left. now right.
        -- left. left. now symmetry.
        -- right. exists b'. auto.
    + fold (valueAt eqb ids [] k m). split.
      * intros [H | (b' & Hb' & Hk & Hx)]; [now left|]. right. exists b'. auto.
      * intros [H | (b' & [<- | Hb'] & Hk & Hx)]; [now left | congruence |].
        right. exists b'. auto.
Qed.

End GroupMembers.

Lemma fold_left_flat_map {A B C : Type} (f : A -> C -> A) (g : B -> list C)
    (l : list B) (a : A) :
  fold_left f (flat_map g l) a = fold_left (fun a x => fold_left f (g x) a) l a.
Proof.
  revert a. induction l as [|x l IH]; intros a; simpl; [reflexivity|].
  now rewrite fold_left_app, IH.
Qed.

Lemma contractItemStep_group (contracts : list Contract.t) (bill : SavedBill.t)
    (m : list (Z * ContractGroup.t)) (item : BillItem.t) :
  contractItemStep contracts bill m item =
  fold_left (groupStep Z.eqb pricedKey pricedInit pricedAdd)
            (pricedOf contracts bill item) m.
Proof.
  unfold contractItemStep, pricedOf, contractOf.
  destruct (falsy_id (BillItem.contract_id item)); [reflexivity|].
  destruct (find _ contracts); reflexivity.
Qed.

Lemma contractMap_group (contracts : list Contract.t) (bills : list SavedBill.t) :
  fold_left (fun m bill =>
               fold_left (contractItemStep contracts bill)
                         (SavedBill.bill_items bill) m) bills [] =
  fold_left (groupStep Z.eqb pricedKey pricedInit pricedAdd)
            (pricedItems contracts bills) [].
Proof.
  unfold pricedItems. rewrite fold_left_flat_map.
  apply fold_left_same. intros m bill.
  rewrite fold_left_flat_map.
  apply fold_left_same. intros m' item. apply contractItemStep_group.
Qed.

(** What the pass knows of a priced item. *)
Lemma contractOf_some (contracts : list Contract.t) (item : BillItem.t) (c : Contract.t) :
  contractOf contracts item = Some c ->
  BillItem.contract_id item = Some (Contract.contract_id c)
  /\ Contract.contract_id c <> 0
  /\ firstContract (Contract.contract_id c) contracts = Some c.
Proof.
  unfold contractOf, firstContract, falsy_id.
  destruct (BillItem.contract_id item) as [n|]; [|discriminate].
  destruct (Z.eqb_spec n 0) as [|Hn]; [discriminate|].
  intros Hf. pose proof (find_some _ _ Hf) as [_ Hid].
  simpl in Hid. apply Z.eqb_eq in Hid. subst n.
  split; [reflexivity|]. split; [exact Hn | exact Hf].
Qed.

Lemma contractOf_first (contracts : list Contract.t) (item : BillItem.t) (cid : Z) :
  cid <> 0 -> BillItem.contract_id item = Some cid ->
  contractOf contracts item = firstContract cid contracts.
Proof.
  intros Hn E. unfold contractOf, firstContract, falsy_id. rewrite E.
  apply Z.eqb_neq in Hn. now rewrite Hn.
Qed.

Lemma pricedKey_of (contracts : list Contract.t) (cid : Z) (c0 : Contract.t)
    (bill : SavedBill.t) (item : BillItem.t) :
  cid <> 0 -> firstContract cid contracts = Some c0 ->
  filter (keyIs Z.eqb pricedKey cid) (pricedOf contracts bill item) =
  if ofContract cid item then [(bill, item, c0)] else [].
Proof.
  intros Hn Hc0. unfold pricedOf, ofContract, id_is.
  destruct (contractOf contracts item) as [c|] eqn:Ec.
  - destruct (contractOf_some _ _ _ Ec) as (Ei & _ & Hf).
    rewrite Ei. simpl. unfold keyIs, pricedKey. simpl.
    destruct (Z.eqb_spec (Contract.contract_id c) cid) as [E|]; [|reflexivity].
    rewrite E in Hf. congruence.
  - simpl. destruct (BillItem.contract_id item) as [n|] eqn:Ei; [|reflexivity].
    destruct (Z.eqb_spec n cid) as [E|]; [|reflexivity].
    subst n. rewrite (contractOf_first contracts item cid Hn Ei) in Ec. congruence.
Qed.

Lemma filter_flat_map {A B : Type} (p : B -> bool) (g : A -> list B) (l : list A) :
  filter p (flat_map g l) = flat_map (fun x => filter p (g x)) l.
Proof.
  induction l as [|x l IH]; simpl; [reflexivity|].
  now rewrite filter_app, IH.
Qed.

Lemma flat_map_same {A B : Type} (f g : A -> list B) (l : list A) :
  (forall x, f x = g x) -> flat_map f l = flat_map g l.
Proof.
  intros H. induction l as [|x l IH]; simpl; [reflexivity|]. now rewrite H, IH.
Qed.

Lemma flat_map_if {A B : Type} (p : A -> bool) (g : A -> B) (l : list A) :
  flat_map (fun x => if p x then [g x] else []) l = map g (filter p l).
Proof.
  induction l as [|x l IH]; simpl; [reflexivity|].
  destruct (p x); simpl; now rewrite IH.
Qed.

(** The priced items under the key of a contract, bill by bill. *)
Lemma pricedItems_of (contracts : list Contract.t) (cid : Z) (c0 : Contract.t)
    (bills : list SavedBill.t) :
  cid <> 0 -> firstContract cid contracts = Some c0 ->
  filter (keyIs Z.eqb pricedKey cid) (pricedItems contracts bills) =
  flat_map (fun bill => map (fun item => (bill, item, c0))
                            (filter (ofContract cid) (SavedBill.bill_items bill)))
           bills.
Proof.
  intros Hn Hc0. unfold pricedItems. rewrite filter_flat_map.
  apply flat_map_same. intros bill. rewrite filter_flat_map.
  rewrite <- flat_map_if. apply flat_map_same. intros item.
  now apply pricedKey_of.
Qed.

Lemma pricedItems_items (contracts : list Contract.t) (cid : Z) (c0 : Contract.t)
    (bills : list SavedBill.t) :
  cid <> 0 -> firstContract cid contracts = Some c0 ->
  map (fun p => snd (fst p)) (filter (keyIs Z.eqb pricedKey cid) (pricedItems contracts bills)) =
  itemsOfContract cid bills.
Proof.
  intros Hn Hc0. rewrite (pricedItems_of contracts cid c0 bills Hn Hc0).
  unfold itemsOfContract, allItems.
  induction bills as [|bill bills IH]; simpl; [reflexivity|].
  rewrite map_app, filter_app, IH, map_map. simpl. now rewrite map_id.
Qed.

Lemma pricedItems_In (contracts : list Contract.t) (bills : list SavedBill.t)
    (p : SavedBill.t * BillItem.t * Contract.t) :
  In p (pricedItems contracts bills) ->
  contractOf contracts (snd (fst p)) = Some (snd p).
Proof.
  unfold pricedItems. intros H.
  apply in_flat_map in H as (bill & _ & H).
  apply in_flat_map in H as (item & _ & H).
  unfold pricedOf in H. destruct (contractOf contracts item) as [c|] eqn:Ec; [|destruct H].
  destruct H as [<- | []]. exact Ec.
Qed.

Lemma contractMap_keys_NoDup (contracts : list Contract.t) (bills : list SavedBill.t) :
  NoDup (map fst (fold_left (groupStep Z.eqb pricedKey pricedInit pricedAdd)
                            (pricedItems contracts bills) [])).
Proof. apply (groupFold_keys_NoDup Z.eqb Zeqb_eq). constructor. Qed.

Lemma billsOfContract_ids (cid : Z) (c0 : Contract.t) (bills : list SavedBill.t) (x : string) :
  (exists p, In p (flat_map (fun bill => map (fun item => (bill, item, c0))
                                          (filter (ofContract cid) (SavedBill.bill_items bill)))
                            bills)
             /\ SavedBill.id (fst (fst p)) = x) <->
  In x (map SavedBill.id (billsOfContract cid bills)).
Proof.
  unfold billsOfContract. rewrite in_map_iff. split.
  - intros (p & Hp & Hx). apply in_flat_map in Hp as (bill & Hb & Hp).
    apply in_map_iff in Hp as (item & <- & Hi). simpl in Hx.
    exists bill. split; [exact Hx|]. apply filter_In. split; [exact Hb|].
    apply filter_In in Hi as [Hi Ho]. apply existsb_exists. now exists item.
  - intros (bill & Hx & Hb). apply filter_In in Hb as [Hb He].
    apply existsb_exists in He as (item & Hi & Ho).
    exists (bill, item, c0). split; [|exact Hx].
    apply in_flat_map. exists bill. split; [exact Hb|].
    apply (in_map (fun item0 => (bill, item0, c0))). apply filter_In. now split.
Qed.

(** What is held under a contract id after the pass. *)
Lemma contractMap_entry (contracts : list Contract.t) (bills : list SavedBill.t)
    (cid : Z) (row : ContractGroup.t) :
  map_get Z.eqb cid
    (fold_left (groupStep Z.eqb pricedKey pricedInit pricedAdd)
               (pricedItems contracts bills) []) = Some row ->
  rowContractId row = cid
  /\ cid <> 0
  /\ firstContract cid contracts = Some (ContractGroup.contract row)
  /\ itemsOfContract cid bills <> []
  /\ ContractGroup.totalTrips row = Z.of_nat (List.length (itemsOfContract cid bills))
  /\ ContractGroup.totalNetKgs row = Num.sum (map BillItem.netKgs (itemsOfContract cid bills))
  /\ ContractGroup.totalAmount row = Num.sum (map BillItem.rs (itemsOfContract cid bills))
  /\ forall x, In x (ContractGroup.billIds row) <->
               In x (map SavedBill.id (billsOfContract cid bills)).
Proof.
  intros Hget.
  pose proof (groupFold_label Z.eqb Zeqb_eq pricedKey pricedInit pricedAdd
                ContractGroup.contract (fun _ _ => eq_refl)
                cid (pricedItems contracts bills) []) as Hlab.
  rewrite Hget in Hlab. simpl in Hlab.
  destruct (hd_error (filter (keyIs Z.eqb pricedKey cid) (pricedItems contracts bills)))
    as [first|] eqn:Hhd; [|discriminate].
  injection Hlab as Hc. unfold pricedInit in Hc. simpl in Hc.
  pose proof (hd_error_in _ _ Hhd) as Hfirst.
  apply filter_In in Hfirst as [Hfirst Hk].
  unfold keyIs, pricedKey in Hk. apply Z.eqb_eq in Hk.
  apply pricedItems_In, contractOf_some in Hfirst as (_ & Hn & Hf).
  rewrite Hk in Hn, Hf. rewrite <- Hc in Hf.
  assert (Hid : rowContractId row = cid).
  { unfold rowContractId. now rewrite Hc. }
  pose proof (pricedItems_items contracts cid _ bills Hn Hf) as Hitems.
  split; [exact Hid|]. split; [exact Hn|]. split; [exact Hf|].
  split.
  { rewrite <- Hitems. intros E. apply map_eq_nil in E.
    rewrite E in Hhd. discriminate. }
  pose proof (groupFold_at Z.eqb Zeqb_eq pricedKey pricedInit pricedAdd
                Z.add 0 Z.add_assoc Z.add_comm Z.add_0_l
                ContractGroup.totalTrips (fun _ => 1)
                (fun _ => eq_refl) (fun _ _ => eq_refl) cid
                (pricedItems contracts bills) []) as Ht.
  pose proof (fun q d H1 H2 =>
                groupFold_at Z.eqb Zeqb_eq pricedKey pricedInit pricedAdd
                  Qplus 0%Q NumFacts.plus_assoc NumFacts.plus_comm
                  NumFacts.plus_0_l q d H1 H2 cid (pricedItems contracts bills) [])
    as Hq.
  pose proof (fun x =>
                groupFold_members Z.eqb Zeqb_eq pricedKey pricedInit pricedAdd
                  ContractGroup.billIds (fun p => SavedBill.id (fst (fst p)))
                  (fun _ => eq_refl) (fun _ _ => eq_refl) cid x
                  (pricedItems contracts bills) []) as Hm.
  unfold valueAt in Ht, Hq, Hm. rewrite Hget in Ht, Hq, Hm. simpl in Ht, Hq, Hm.
  rewrite zsum_ones in Ht.
  split; [|split; [|split]].
  - rewrite Ht, <- Hitems. now rewrite length_map.
  - rewrite (Hq ContractGroup.totalNetKgs (fun p => BillItem.netKgs (snd (fst p)))
               (fun _ => eq_refl) (fun _ _ => eq_refl)).
    rewrite NumFacts.plus_0_l, <- Hitems, map_map. reflexivity.
  - rewrite (Hq ContractGroup.totalAmount (fun p => BillItem.rs (snd (fst p)))
               (fun _ => eq_refl) (fun _ _ => eq_refl)).
    rewrite NumFacts.plus_0_l, <- Hitems, map_map. reflexivity.
  - intros x. rewrite Hm.
    rewrite <- (billsOfContract_ids cid (ContractGroup.contract row) bills x).
    rewrite <- (pricedItems_of contracts cid _ bills Hn Hf).
    split.
    + intros [[] | (p & Hp & Hkp & Hx)]. exists p. split; [|exact Hx].
      apply filter_In. now split.
    + intros (p & Hp & Hx). apply filter_In in Hp as [Hp Hkp].
      right. exists p. auto.
Qed.

Lemma contractSummary_row_key (contracts : list Contract.t) (bills : list SavedBill.t)
    (row : ContractGroup.t) :
  In row (contractSummary bills contracts) ->
  exists cid, map_get Z.eqb cid
                (fold_left (groupStep Z.eqb pricedKey pricedInit pricedAdd)
                           (pricedItems contracts bills) []) = Some row.
Proof.
  intros Hin. unfold contractSummary in Hin.
  apply (Permutation_in _ (Permutation_sym (sort_perm _ _))) in Hin.
  rewrite contractMap_group in Hin.
  apply (value_has_key Z.eqb Zeqb_eq); [|exact Hin].
  apply contractMap_keys_NoDup.
Qed.

(** X23.  Every row of the Contract Summary stands for one contract id,
    not 0, and shows the first contract of the list with that id.  It
    counts the items of the subset that carry the id, holds the sums of
    their net weights and of their amounts, and its bill ids are those of
    the bills of the subset that have such an item. *)
Theorem contractSummary_rows (bills : list SavedBill.t) (contracts : list Contract.t)
    (row : ContractGroup.t) :
  In row (contractSummary bills contracts) ->
  rowContractId row <> 0
  /\ firstContract (rowContractId row) contracts = Some (ContractGroup.contract row)
  /\ itemsOfContract (rowContractId row) bills <> []
  /\ ContractGroup.totalTrips row =
       Z.of_nat (List.length (itemsOfContract (rowContractId row) bills))
  /\ ContractGroup.totalNetKgs row =
       Num.sum (map BillItem.netKgs (itemsOfContract (rowContractId row) bills))
  /\ ContractGroup.totalAmount row =
       Num.sum (map BillItem.rs (itemsOfContract (rowContractId row) bills))
  /\ forall x, In x (ContractGroup.billIds row) <->
               In x (map SavedBill.id (billsOfContract (rowContractId row) bills)).
Proof.
  intros Hin.
  destruct (contractSummary_row_key contracts bills row Hin) as [cid Hget].
  destruct (contractMap_entry contracts bills cid row Hget) as (Hid & H).
  rewrite Hid. exact H.
Qed.

(** The one row of a subset with one priced item. *)
Lemma contractSummary_rows_witness :
  In (ContractGroup.mk contract_X_Y 1 500 1000 ["b5"%string])
     (contractSummary [bill_priced; bill_acme] [contract_X_Y])
  /\ 1 = Z.of_nat (List.length (itemsOfContract 1 [bill_priced; bill_acme]))
  /\ forall x, In x ["b5"%string] <->
               In x (map SavedBill.id (billsOfContract 1 [bill_priced; bill_acme])).
Proof.
  assert (Hin : In (ContractGroup.mk contract_X_Y 1 500 1000 ["b5"%string])
                   (contractSummary [bill_priced; bill_acme] [contract_X_Y]))
    by (left; reflexivity).
  split; [exact Hin|].
  destruct (contractSummary_rows [bill_priced; bill_acme] [contract_X_Y] _ Hin)
    as (_ & _ & _ & Ht & _ & _ & Hb).
  split; [exact Ht | exact Hb].
Defined.

Lemma contractMap_labels (contracts : list Contract.t) (bills : list SavedBill.t) :
  Permutation
    (map fst (fold_left (groupStep Z.eqb pricedKey pricedInit pricedAdd)
                        (pricedItems contracts bills) []))
    (map rowContractId (contractSummary bills contracts)).
Proof.
  unfold contractSummary. rewrite contractMap_group.
  rewrite <- (values_labels rowContractId).
  - apply Permutation_map, sort_perm.
  - intros k v Hin.
    apply (map_get_of_entry Z.eqb Zeqb_eq) in Hin; [|apply contractMap_keys_NoDup].
    now destruct (contractMap_entry contracts bills k v Hin) as [Hid _].
Qed.

(** X24.  The Contract Summary has one row per contract id, for exactly
    the ids, other than 0, that a contract of the list has and an item of
    the subset carries. *)
Theorem contractSummary_contracts (bills : list SavedBill.t) (contracts : list Contract.t) :
  NoDup (map rowContractId (contractSummary bills contracts))
  /\ forall cid,
       In cid (map rowContractId (contractSummary bills contracts)) <->
       cid <> 0
       /\ (exists c, firstContract cid contracts = Some c)
       /\ itemsOfContract cid bills <> [].
Proof.
  pose proof (contractMap_labels contracts bills) as Hperm.
  split.
  - eapply Permutation_NoDup; [exact Hperm | apply contractMap_keys_NoDup].
  - intros cid. split.
    + intros Hin. apply (Permutation_in _ (Permutation_sym Hperm)) in Hin.
      apply (map_has_keys Z.eqb Zeqb_eq) in Hin. rewrite map_has_get in Hin.
      destruct (map_get Z.eqb cid _) as [row|] eqn:Hget; [|discriminate].
      destruct (contractMap_entry contracts bills cid row Hget)
        as (_ & Hn & Hf & Hne & _).
      split; [exact Hn|]. split; [now exists (ContractGroup.contract row) | exact Hne].
    + intros (Hn & [c Hf] & Hne). apply (Permutation_in _ Hperm).
      apply (map_has_keys Z.eqb Zeqb_eq). rewrite map_has_get.
      pose proof (groupFold_label Z.eqb Zeqb_eq pricedKey pricedInit pricedAdd
                    (fun _ => tt) (fun _ _ => eq_refl)
                    cid (pricedItems contracts bills) []) as Hlab.
      simpl in Hlab.
      destruct (filter (keyIs Z.eqb pricedKey cid) (pricedItems contracts bills))
        as [|p ps] eqn:Hfil.
      * exfalso. apply Hne.
        rewrite <- (pricedItems_items contracts cid c bills Hn Hf), Hfil. reflexivity.
      * simpl in Hlab. destruct (map_get Z.eqb cid _); [reflexivity | discriminate].
Qed.

Lemma pricedItems_all (contracts : list Contract.t) (bills : list SavedBill.t) :
  map (fun p => snd (fst p)) (pricedItems contracts bills) =
  filter (priced contracts) (allItems bills).
Proof.
  unfold pricedItems, allItems.
  induction bills as [|bill bills IH]; simpl; [reflexivity|].
  rewrite map_app, filter_app, IH. f_equal.
  induction (SavedBill.bill_items bill) as [|item items IHi]; simpl; [reflexivity|].
  rewrite map_app, IHi. unfold pricedOf, priced.
  destruct (contractOf contracts item); reflexivity.
Qed.

(** X25.  The trips of the Contract Summary add up to the number of items
    of the subset that a contract of the list prices.  An item with no
    contract id, with the id 0 or with an id that no contract has is in no
    row. *)
Theorem contract_trips_match_priced (bills : list SavedBill.t)
    (contracts : list Contract.t) :
  zsum (map ContractGroup.totalTrips (contractSummary bills contracts)) =
  Z.of_nat (List.length (filter (priced contracts) (allItems bills))).
Proof.
  unfold contractSummary, zsum.
  rewrite <- (msum_perm Z.add 0 Z.add_assoc Z.add_comm Z.add_0_l _ _
                (Permutation_map _ (sort_perm _ _))).
  rewrite contractMap_group.
  assert (Hall : filter (keyed pricedKey) (pricedItems contracts bills) =
                 pricedItems contracts bills).
  { apply filter_all. reflexivity. }
  pose proof (groupFold_total Z.eqb Zeqb_eq pricedKey pricedInit pricedAdd
                Z.add 0 Z.add_assoc Z.add_comm Z.add_0_l
                ContractGroup.totalTrips (fun _ => 1)
                (fun _ => eq_refl) (fun _ _ => eq_refl)
                (pricedItems contracts bills) []) as Hc.
  rewrite Hall in Hc. rewrite zsum_ones in Hc.
  rewrite <- pricedItems_all.
  rewrite Hc. simpl. now rewrite length_map.
Qed.

(** ** The bills behind a row *)

Lemma station_ids_step (name x : string) (bill : SavedBill.t) (item : BillItem.t)
    (m : list (string * Station.t)) :
  In x (Station.billIds (stationEntry name (stationItemStep bill m item))) <->
  In x (Station.billIds (stationEntry name m))
  \/ (touches name item = true /\ SavedBill.id bill = x).
Proof.
  unfold stationItemStep, touches.
  rewrite (stationEntry_withStation (BillItem.to item) name).
  destruct (String.eqb (BillItem.to item) name) eqn:Et.
  - apply String.eqb_eq in Et. rewrite Et.
    rewrite (stationEntry_withStation (BillItem.from item) name).
    rewrite orb_true_r.
    destruct (String.eqb (BillItem.from item) name) eqn:Ef.
    + apply String.eqb_eq in Ef. rewrite Ef. simpl.
      rewrite !set_add_In. intuition auto.
    + simpl. rewrite set_add_In. intuition auto.
  - rewrite (stationEntry_withStation (BillItem.from item) name).
    rewrite orb_false_r.
    destruct (String.eqb (BillItem.from item) name) eqn:Ef.
    + apply String.eqb_eq in Ef. rewrite Ef. simpl.
      rewrite set_add_In. intuition auto.
    + intuition (auto; discriminate).
Qed.

Lemma station_ids_items (name x : string) (bill : SavedBill.t)
    (items : list BillItem.t) (m : list (string * Station.t)) :
  In x (Station.billIds (stationEntry name (fold_left (stationItemStep bill) items m))) <->
  In x (Station.billIds (stationEntry name m))
  \/ (existsb (touches name) items = true /\ SavedBill.id bill = x).
Proof.
  revert m. induction items as [|item items IH]; intros m; simpl.
  - intuition (auto; discriminate).
  - rewrite IH, station_ids_step, orb_true_iff. intuition auto.
Qed.

Lemma station_ids_bills (name x : string) (bills : list SavedBill.t)
    (m : list (string * Station.t)) :
  In x (Station.billIds
          (stationEntry name
             (fold_left (fun m bill =>
                           fold_left (stationItemStep bill) (SavedBill.bill_items bill) m)
                        bills m))) <->
  In x (Station.billIds (stationEntry name m))
  \/ In x (map SavedBill.id (billsOfStation name bills)).
Proof.
  revert m. induction bills as [|bill bills IH]; intros m; simpl.
  - intuition auto.
  - rewrite IH, station_ids_items. unfold billsOfStation. simpl.
    destruct (existsb (touches name) (SavedBill.bill_items bill)); simpl.
    + intuition auto.
    + intuition (auto; discriminate).
Qed.

Lemma stationSummary_entry (bills : list SavedBill.t) (e : Station.t) :
  In e (stationSummary bills) ->
  stationEntry (Station.name e) (stationMapOf bills) = e.
Proof.
  intros Hin. unfold stationSummary in Hin.
  apply (Permutation_in _ (Permutation_sym (sort_perm _ _))) in Hin.
  unfold map_values in Hin. apply in_map_iff in Hin as [[k s] [Hs Hks]].
  simpl in Hs; subst s.
  destruct (stationMapOf_ok bills) as [Hnd Hname].
  pose proof (Hname k e Hks) as Hk. subst k.
  apply (map_get_of_entry String.eqb String.eqb_eq _ _ _ Hnd) in Hks.
  unfold stationEntry. now rewrite Hks.
Qed.

Lemma stationSummary_ids (bills : list SavedBill.t) (e : Station.t) (x : string) :
  In e (stationSummary bills) ->
  In x (Station.billIds e) <->
  In x (map SavedBill.id (billsOfStation (Station.name e) bills)).
Proof.
  intros Hin. rewrite <- (stationSummary_entry bills e Hin) at 1.
  unfold stationMapOf. rewrite station_ids_bills.
  unfold stationEntry; simpl. intuition auto.
Qed.

Lemma relevantBills_In (billIds : list string) (allBills : list SavedBill.t)
    (b : SavedBill.t) :
  In b (relevantBills billIds allBills) <->
  In b allBills /\ In (SavedBill.id b) billIds.
Proof.
  unfold relevantBills. rewrite filter_In.
  split; intros [Hb H]; (split; [exact Hb|]).
  - apply existsb_exists in H as (y & Hy & E). apply String.eqb_eq in E. now subst y.
  - apply existsb_exists. exists (SavedBill.id b). split; [exact H | apply String.eqb_refl].
Qed.

Lemma unique_id (l : list SavedBill.t) (a b : SavedBill.t) :
  NoDup (map SavedBill.id l) -> In a l -> In b l ->
  SavedBill.id a = SavedBill.id b -> a = b.
Proof.
  induction l as [|c l IH]; simpl; [tauto|].
  intros Hnd Ha Hb E. inversion Hnd as [|? ? Hnot Hnd']; subst.
  destruct Ha as [-> | Ha], Hb as [-> | Hb].
  - reflexivity.
  - exfalso. apply Hnot. rewrite E. now apply in_map.
  - exfalso. apply Hnot. rewrite <- E. now apply in_map.
  - now apply IH.
Qed.

(** The bills of all bills whose id is the id of a bill of a part of them,
    when ids are unique, are the bills of the part. *)
Lemma relevantBills_of_part (allBills part : list SavedBill.t) (ids : list string)
    (b : SavedBill.t) :
  NoDup (map SavedBill.id allBills) ->
  (forall a, In a part -> In a allBills) ->
  (forall x, In x ids <-> In x (map SavedBill.id part)) ->
  In b (relevantBills ids allBills) <-> In b part.
Proof.
  intros Hnd Hincl Hids. rewrite relevantBills_In, Hids, in_map_iff. split.
  - intros (Hb & a & E & Ha).
    now rewrite <- (unique_id allBills a b Hnd (Hincl a Ha) Hb E).
  - intros Hb. split; [now apply Hincl | now exists b].
Qed.

(** X26.  When the saved bills have distinct ids, expanding a row shows
    the bills of the filtered view behind it: under a contract row the
    filtered bills that have an item with the contract id of the row, and
    under a station row the filtered bills that have an item from or to the
    station.  The filter is applied to all saved bills, by id. *)
Theorem detail_rows_show_contributing_bills (savedBills : list SavedBill.t)
    (contracts : list Contract.t) (f : FilterState) :
  NoDup (map SavedBill.id savedBills) ->
  let shown := filteredBills savedBills contracts f in
  (forall row bill,
      In row (contractSummary shown contracts) ->
      In bill (relevantBills (ContractGroup.billIds row) savedBills) <->
      In bill (billsOfContract (rowContractId row) shown))
  /\ (forall e bill,
      In e (stationSummary shown) ->
      In bill (relevantBills (Station.billIds e) savedBills) <->
      In bill (billsOfStation (Station.name e) shown)).
Proof.
  intros Hnd shown.
  assert (Hincl : forall a, In a shown -> In a savedBills).
  { intros a Ha. now apply filteredBills_pass in Ha. }
  split.
  - intros row bill Hrow.
    apply relevantBills_of_part; [exact Hnd | |].
    + intros a Ha. apply Hincl. unfold billsOfContract in Ha.
      now apply filter_In in Ha.
    + intros x.
      destruct (contractSummary_row_key contracts shown row Hrow) as [cid Hget].
      destruct (contractMap_entry contracts shown cid row Hget)
        as (Hid & _ & _ & _ & _ & _ & _ & Hids).
      rewrite Hid. apply Hids.
  - intros e bill He.
    apply relevantBills_of_part; [exact Hnd | |].
    + intros a Ha. apply Hincl. unfold billsOfStation in Ha.
      now apply filter_In in Ha.
    + intros x. now apply stationSummary_ids.
Qed.

(** With the filter on February, the row of station X expands to the bill of
    February alone, although all three saved bills have an item from X. *)
Lemma detail_rows_show_contributing_bills_witness :
  NoDup (map SavedBill.id (savedBills props_acme))
  /\ relevantBills ["b3"%string] (savedBills props_acme) = [bill_misc]
  /\ forall bill,
       In bill (relevantBills ["b3"%string] (savedBills props_acme)) <->
       In bill (billsOfStation "X"
                  (filteredBills (savedBills props_acme) [] filter_february)).
Proof.
  assert (Hnd : NoDup (map SavedBill.id (savedBills props_acme))).
  { simpl. repeat constructor; simpl; intuition discriminate. }
  split; [exact Hnd|]. split; [reflexivity|].
  intros bill.
  apply (proj2 (detail_rows_show_contributing_bills (savedBills props_acme) []
                  filter_february Hnd)
               (Station.mk "X" 1 500 1000 0 0 ["b3"%string]) bill).
  left. reflexivity.
Defined.

(** ** One contractor selected *)

Lemma NoDup_same {A : Type} (n : A) (l : list A) :
  NoDup l -> (forall k, In k l -> k = n) -> l = [] \/ l = [n].
Proof.
  intros Hnd Hall. destruct l as [|a [|b l]].
  - now left.
  - right. f_equal. apply Hall. now left.
  - exfalso. inversion Hnd as [|? ? Hnot _]; subst. apply Hnot.
    rewrite (Hall a) by (now left). rewrite (Hall b) by (right; now left). now left.
Qed.

Lemma shown_contractor (savedBills : list SavedBill.t) (contracts : list Contract.t)
    (f : FilterState) (n : Z) (bill : SavedBill.t) :
  selectedContractorId f = contractorId n ->
  In bill (filteredBills savedBills contracts f) ->
  id_is (SavedBill.contractor_id bill) n = true.
Proof.
  intros Hsel Hin. apply filteredBills_pass in Hin as [_ Hp].
  unfold billPasses in Hp. rewrite !andb_true_iff in Hp.
  destruct Hp as [[[Hc _] _] _]. unfold contractorMatch in Hc.
  now rewrite Hsel in Hc.
Qed.

(** X27.  With a contractor selected, of an id other than 0, the
    Contractor Summary of the filtered bills has no row when no bill passes
    and one row otherwise, and that row repeats the cards of the detail
    view: the number of filtered bills and the three totals of [summary]. *)
Theorem selected_contractor_single_row (savedBills : list SavedBill.t)
    (contracts : list Contract.t) (f : FilterState) (n : Z) :
  selectedContractorId f = contractorId n ->
  n <> 0 ->
  let shown := filteredBills savedBills contracts f in
  (shown = [] -> contractorSummary shown = [])
  /\ (shown <> [] ->
      exists row,
        contractorSummary shown = [row]
        /\ ContractorGroup.totalBills row = Z.of_nat (List.length shown)
        /\ ContractorGroup.grandTotal row = Totals.totalAmount (summary shown)
        /\ ContractorGroup.totalDeductions row = Totals.totalDeductions (summary shown)
        /\ ContractorGroup.netAmount row = Totals.netAmount (summary shown)).
Proof.
  intros Hsel Hn shown.
  split; [intros ->; reflexivity|].
  intros Hne.
  assert (Hall : forall b, In b shown -> id_is (SavedBill.contractor_id b) n = true).
  { intros b Hb. exact (shown_contractor savedBills contracts f n b Hsel Hb). }
  assert (Hof : forall k, billsOfContractor k shown <> [] -> k = n).
  { intros k Hk. destruct (billsOfContractor k shown) as [|b bs] eqn:E; [congruence|].
    assert (Hb : In b (billsOfContractor k shown)) by (rewrite E; now left).
    unfold billsOfContractor in Hb. apply filter_In in Hb as [Hb Hik].
    pose proof (Hall b Hb) as Hin. unfold id_is in Hik, Hin.
    destruct (SavedBill.contractor_id b); [|discriminate].
    apply Z.eqb_eq in Hik, Hin. congruence. }
  assert (Hsame : billsOfContractor n shown = shown).
  { apply filter_all. exact Hall. }
  set (M := fold_left contractorStep shown []).
  assert (Hkeys : map fst M = [] \/ map fst M = [n]).
  { apply NoDup_same.
    - unfold M. rewrite contractorMap_group.
      apply (groupFold_keys_NoDup Z.eqb Zeqb_eq). constructor.
    - intros k Hk. apply (map_has_keys Z.eqb Zeqb_eq) in Hk.
      rewrite map_has_get in Hk.
      destruct (map_get Z.eqb k M) as [row|] eqn:Hget; [|discriminate].
      destruct (contractorMap_entry shown k row Hget) as (first & _ & Hhd & _).
      apply Hof. intros E. rewrite E in Hhd. discriminate. }
  assert (Hget : exists row, map_get Z.eqb n M = Some row).
  { pose proof (groupFold_label Z.eqb Zeqb_eq contractorKey contractorInit
                  ContractorGroup.add (fun _ => tt) (fun _ _ => eq_refl)
                  n shown []) as Hlab.
    rewrite <- contractorMap_group in Hlab. fold M in Hlab. simpl in Hlab.
    assert (Hfil : filter (keyIs Z.eqb contractorKey n) shown = shown).
    { apply filter_all. intros b Hb. rewrite contractorKey_is, (Hall b Hb).
      apply Z.eqb_neq in Hn. now rewrite Hn. }
    rewrite Hfil in Hlab.
    destruct (map_get Z.eqb n M) as [row|]; [now exists row|].
    destruct shown; [congruence | discriminate]. }
  destruct Hget as [row Hget]. exists row.
  destruct (contractorMap_entry shown n row Hget)
    as (first & _ & _ & _ & Hc & Hg & Hd & Hnet).
  rewrite Hsame in Hc, Hg, Hd, Hnet. rewrite summary_totals. simpl.
  split; [|auto].
  unfold contractorSummary. fold M.
  destruct Hkeys as [E | E].
  - destruct M; [discriminate Hget | discriminate E].
  - destruct M as [|[k v] [|? ?]]; try discriminate E.
    simpl in E. injection E as ->. simpl in Hget. rewrite Z.eqb_refl in Hget.
    injection Hget as ->. reflexivity.
Qed.

(** Contractor 7 selected over the sample bills: one row for the two bills
    that pass. *)
Lemma selected_contractor_single_row_witness :
  selectedContractorId filter_acme = contractorId 7
  /\ 7 <> 0
  /\ filteredBills (savedBills props_acme) [] filter_acme <> []
  /\ exists row,
       contractorSummary (filteredBills (savedBills props_acme) [] filter_acme) = [row]
       /\ ContractorGroup.totalBills row =
            Z.of_nat (List.length (filteredBills (savedBills props_acme) [] filter_acme))
       /\ ContractorGroup.grandTotal row =
            Totals.totalAmount
              (summary (filteredBills (savedBills props_acme) [] filter_acme))
       /\ ContractorGroup.totalDeductions row =
            Totals.totalDeductions
              (summary (filteredBills (savedBills props_acme) [] filter_acme))
       /\ ContractorGroup.netAmount row =
            Totals.netAmount
              (summary (filteredBills (savedBills props_acme) [] filter_acme)).
Proof.
  assert (H7 : 7 <> 0) by lia.
  assert (Hne : filteredBills (savedBills props_acme) [] filter_acme <> [])
    by discriminate.
  split; [reflexivity|]. split; [exact H7|]. split; [exact Hne|].
  exact (proj2 (selected_contractor_single_row (savedBills props_acme) []
                  filter_acme 7 eq_refl H7) Hne).
Defined.

(** * The summaries and their bills

    What the Station Summary holds of one item, and what the groups of the
    contractor, month and deduction summaries keep of the bills. *)

(** ** The accrual of an item in the station summary (C5) *)

Example stationItemStep_sample :
  stationEntry "X" (stationItemStep bill_acme stations_before item_X_Y) =
    Station.mk "X" 3 1200 2500 1 40 ["b0"%string; "b1"%string]
  /\ stationEntry "Y" (stationItemStep bill_acme stations_before item_X_Y) =
       Station.mk "Y" 0 0 0 1 500 ["b1"%string].
Proof. split; reflexivity. Qed.

Lemma stationSummary_loop (pre post : list SavedBill.t) (bill : SavedBill.t)
    (ipre ipost : list BillItem.t) (item : BillItem.t) :
  SavedBill.bill_items bill = ipre ++ item :: ipost ->
  stationSummary (pre ++ bill :: post) =
  stationRows
    (stationLoop post
       (fold_left (stationItemStep bill) ipost
          (stationItemStep bill
             (fold_left (stationItemStep bill) ipre (stationLoop pre [])) item))).
Proof.
  intros Hitems. unfold stationSummary, stationMapOf, stationRows, stationLoop.
  rewrite fold_left_app. cbn [fold_left]. rewrite Hitems, fold_left_app.
  reflexivity.
Qed.

Lemma allItems_split (pre post : list SavedBill.t) (bill : SavedBill.t)
    (ipre ipost : list BillItem.t) (item : BillItem.t) :
  SavedBill.bill_items bill = ipre ++ item :: ipost ->
  allItems (pre ++ bill :: post) = (allItems pre ++ ipre) ++ item :: (ipost ++ allItems post).
Proof.
  intros Hitems. unfold allItems. rewrite flat_map_app. cbn [flat_map].
  rewrite Hitems, <- !app_assoc. reflexivity.
Qed.

(** The in-order sum of a list around one of its elements. *)
Lemma sum_around {A : Type} (f : A -> Q) (l1 l2 : list A) (x : A) :
  Num.sum (map f (l1 ++ x :: l2)) =
  fold_left Qplus (map f l2) (Qplus (Num.sum (map f l1)) (f x)).
Proof.
  unfold Num.sum. rewrite map_app, fold_left_app. reflexivity.
Qed.

Lemma length_around {A : Type} (l1 l2 : list A) (x : A) :
  Z.of_nat (List.length (l1 ++ x :: l2)) =
  Z.of_nat (List.length l1) + 1 + Z.of_nat (List.length l2).
Proof. rewrite length_app. simpl. lia. Qed.

(** A station that an item of the subset touches has an entry in the
    summary, held under its name. *)
Lemma stationSummary_has (bills : list SavedBill.t) (item : BillItem.t) (name : string) :
  In item (allItems bills) -> touches name item = true ->
  exists e, In e (stationSummary bills) /\ Station.name e = name
            /\ stationEntry name (stationMapOf bills) = e.
Proof.
  intros Hin Ht.
  assert (Hhas : map_has String.eqb name (stationMapOf bills) = true).
  { unfold stationMapOf. rewrite stationMap_has_bills. simpl.
    apply existsb_exists. now exists item. }
  rewrite map_has_get in Hhas.
  destruct (map_get String.eqb name (stationMapOf bills)) as [e|] eqn:Hget;
    [|discriminate].
  exists e. split; [|split].
  - unfold stationSummary. apply (Permutation_in _ (sort_perm _ _)).
    unfold map_values. apply in_map_iff. exists (name, e). split; [reflexivity|].
    now apply (map_get_entry String.eqb String.eqb_eq).
  - destruct (stationMapOf_ok bills) as [_ Hname]. apply Hname.
    now apply (map_get_entry String.eqb String.eqb_eq).
  - unfold stationEntry. now rewrite Hget.
Qed.

(** C5.  For every subset and every item of it whose origin A and
    destination B differ.  At the item's turn in the loop that builds the
    Station Summary, A's [dispatchedTrips] goes up by exactly 1, its
    [dispatchedKgs] by the item's net kg and its [dispatchedValue] by the
    item's amount, while A's received counters stay; B's [receivedTrips]
    goes up by exactly 1 and its [receivedKgs] by the item's net kg, while
    B's three dispatched counters stay; no other station changes; and the
    summary is read off the map that the rest of the loop makes of that.
    In the summary, A and B each have an entry.  A's dispatched counters
    count the item once among the items from A, in the order of the loop,
    and its received counters are those of the other items alone; B's
    received counters count the item once among the items to B, and its
    dispatched counters are those of the other items alone. *)
Theorem station_item_accrual (pre post : list SavedBill.t) (bill : SavedBill.t)
    (ipre ipost : list BillItem.t) (item : BillItem.t) :
  SavedBill.bill_items bill = ipre ++ item :: ipost ->
  BillItem.from item <> BillItem.to item ->
  let subset := pre ++ bill :: post in
  let A := BillItem.from item in
  let B := BillItem.to item in
  let earlier := allItems pre ++ ipre in
  let later := ipost ++ allItems post in
  let before := fold_left (stationItemStep bill) ipre (stationLoop pre []) in
  let after := stationItemStep bill before item in
  (Station.dispatchedTrips (stationEntry A after) =
     Station.dispatchedTrips (stationEntry A before) + 1
   /\ Station.dispatchedKgs (stationEntry A after) =
        Qplus (Station.dispatchedKgs (stationEntry A before)) (BillItem.netKgs item)
   /\ Station.dispatchedValue (stationEntry A after) =
        Qplus (Station.dispatchedValue (stationEntry A before)) (BillItem.rs item)
   /\ Station.receivedTrips (stationEntry A after) =
        Station.receivedTrips (stationEntry A before)
   /\ Station.receivedKgs (stationEntry A after) =
        Station.receivedKgs (stationEntry A before))
  /\ (Station.receivedTrips (stationEntry B after) =
        Station.receivedTrips (stationEntry B before) + 1
      /\ Station.receivedKgs (stationEntry B after) =
           Qplus (Station.receivedKgs (stationEntry B before)) (BillItem.netKgs item)
      /\ Station.dispatchedTrips (stationEntry B after) =
           Station.dispatchedTrips (stationEntry B before)
      /\ Station.dispatchedKgs (stationEntry B after) =
           Station.dispatchedKgs (stationEntry B before)
      /\ Station.dispatchedValue (stationEntry B after) =
           Station.dispatchedValue (stationEntry B before))
  /\ (forall other, other <> A -> other <> B ->
        map_get String.eqb other after = map_get String.eqb other before)
  /\ stationSummary subset =
       stationRows (stationLoop post (fold_left (stationItemStep bill) ipost after))
  /\ exists eA eB,
       (In eA (stationSummary subset) /\ Station.name eA = A)
       /\ (In eB (stationSummary subset) /\ Station.name eB = B)
       /\ (Station.dispatchedTrips eA =
             Z.of_nat (List.length (dispatchedFrom A earlier)) + 1
             + Z.of_nat (List.length (dispatchedFrom A later))
           /\ Station.dispatchedKgs eA =
                fold_left Qplus (map BillItem.netKgs (dispatchedFrom A later))
                  (Qplus (Num.sum (map BillItem.netKgs (dispatchedFrom A earlier)))
                         (BillItem.netKgs item))
           /\ Station.dispatchedValue eA =
                fold_left Qplus (map BillItem.rs (dispatchedFrom A later))
                  (Qplus (Num.sum (map BillItem.rs (dispatchedFrom A earlier)))
                         (BillItem.rs item))
           /\ Station.receivedTrips eA =
                Z.of_nat (List.length (receivedAt A (earlier ++ later)))
           /\ Station.receivedKgs eA =
                Num.sum (map BillItem.netKgs (receivedAt A (earlier ++ later))))
       /\ (Station.receivedTrips eB =
             Z.of_nat (List.length (receivedAt B earlier)) + 1
             + Z.of_nat (List.length (receivedAt B later))
           /\ Station.receivedKgs eB =
                fold_left Qplus (map BillItem.netKgs (receivedAt B later))
                  (Qplus (Num.sum (map BillItem.netKgs (receivedAt B earlier)))
                         (BillItem.netKgs item))
           /\ Station.dispatchedTrips eB =
                Z.of_nat (List.length (dispatchedFrom B (earlier ++ later)))
           /\ Station.dispatchedKgs eB =
                Num.sum (map BillItem.netKgs (dispatchedFrom B (earlier ++ later)))
           /\ Station.dispatchedValue eB =
                Num.sum (map BillItem.rs (dispatchedFrom B (earlier ++ later)))).
Proof.
  intros Hitems Hne subset A B earlier later before after.
  destruct (stationItemStep_accrual bill item before Hne) as (HA & HB & _ & Hother).
  split; [exact HA|]. split; [exact HB|]. split; [exact Hother|].
  split; [exact (stationSummary_loop pre post bill ipre ipost item Hitems)|].
  assert (Hall : allItems subset = earlier ++ item :: later)
    by exact (allItems_split pre post bill ipre ipost item Hitems).
  assert (Hin : In item (allItems subset)).
  { rewrite Hall. apply in_elt. }
  assert (HAB : String.eqb A B = false) by now apply String.eqb_neq.
  assert (HBA : String.eqb B A = false).
  { apply String.eqb_neq. intros E. apply Hne. now symmetry. }
  assert (HtA : touches A item = true).
  { unfold touches. fold A. now rewrite String.eqb_refl. }
  assert (HtB : touches B item = true).
  { unfold touches. fold B. now rewrite String.eqb_refl, orb_true_r. }
  destruct (stationSummary_has subset item A Hin HtA) as (eA & HinA & HnA & HeA).
  destruct (stationSummary_has subset item B Hin HtB) as (eB & HinB & HnB & HeB).
  exists eA, eB. split; [now split|]. split; [now split|].
  pose proof (stationMapOf_counts A subset) as HcA.
  pose proof (stationMapOf_counts B subset) as HcB.
  cbv zeta in HcA, HcB. rewrite HeA in HcA. rewrite HeB in HcB.
  rewrite Hall in HcA, HcB.
  assert (FA : dispatchedFrom A (earlier ++ item :: later) =
               dispatchedFrom A earlier ++ item :: dispatchedFrom A later).
  { unfold dispatchedFrom. rewrite filter_app. cbn [filter]. fold A.
    now rewrite String.eqb_refl. }
  assert (RA : receivedAt A (earlier ++ item :: later) = receivedAt A (earlier ++ later)).
  { unfold receivedAt. rewrite !filter_app. cbn [filter]. fold B. now rewrite HBA. }
  assert (RB : receivedAt B (earlier ++ item :: later) =
               receivedAt B earlier ++ item :: receivedAt B later).
  { unfold receivedAt. rewrite filter_app. cbn [filter]. fold B.
    now rewrite String.eqb_refl. }
  assert (FB : dispatchedFrom B (earlier ++ item :: later) =
               dispatchedFrom B (earlier ++ later)).
  { unfold dispatchedFrom. rewrite !filter_app. cbn [filter]. fold A. now rewrite HAB. }
  rewrite FA, RA in HcA. rewrite RB, FB in HcB.
  rewrite length_around, !sum_around in HcA.
  rewrite length_around, !sum_around in HcB.
  destruct HcA as (a1 & a2 & a3 & a4 & a5).
  destruct HcB as (b1 & b2 & b3 & b4 & b5).
  repeat split; assumption.
Qed.

(** The item of the scenario in the subset of the bills of January and
    February, each with one item from X to Y: the entry of X has two
    dispatched trips, that of Y two received ones. *)
Lemma station_item_accrual_witness :
  SavedBill.bill_items bill_acme = [] ++ item_X_Y :: []
  /\ BillItem.from item_X_Y <> BillItem.to item_X_Y
  /\ stationSummary ([] ++ bill_acme :: [bill_misc]) =
       [Station.mk "X" 2 1000 2000 0 0 ["b1"%string; "b3"%string];
        Station.mk "Y" 0 0 0 2 1000 ["b1"%string; "b3"%string]]
  /\ exists eA eB,
       (In eA (stationSummary ([] ++ bill_acme :: [bill_misc]))
        /\ Station.name eA = "X"%string)
       /\ (In eB (stationSummary ([] ++ bill_acme :: [bill_misc]))
           /\ Station.name eB = "Y"%string)
       /\ Station.dispatchedTrips eA = 2
       /\ Station.receivedTrips eA = 0
       /\ Station.receivedTrips eB = 2
       /\ Station.dispatchedTrips eB = 0.
Proof.
  assert (Hitems : SavedBill.bill_items bill_acme = [] ++ item_X_Y :: []) by reflexivity.
  assert (Hne : BillItem.from item_X_Y <> BillItem.to item_X_Y) by discriminate.
  split; [exact Hitems|]. split; [exact Hne|]. split; [reflexivity|].
  destruct (station_item_accrual [] [bill_misc] bill_acme [] [] item_X_Y Hitems Hne)
    as (_ & _ & _ & _ & eA & eB & HA & HB & (a1 & _ & _ & a4 & _) & (b1 & _ & b3 & _)).
  exists eA, eB. split; [exact HA|]. split; [exact HB|].
  split; [exact a1|]. split; [exact a4|]. split; [exact b1 | exact b3].
Defined.

(** ** Conservation of the summaries (C1) *)

Lemma insert_map {A B : Type} (f : A -> B) (before : B -> B -> bool) (x : A)
    (l : list A) :
  map f (insert (fun a b => before (f a) (f b)) x l) = insert before (f x) (map f l).
Proof.
  induction l as [|y l IH]; simpl; [reflexivity|].
  destruct (before (f x) (f y)); simpl; [reflexivity | now rewrite IH].
Qed.

Lemma sort_map {A B : Type} (f : A -> B) (before : B -> B -> bool) (l : list A) :
  map f (sort (fun a b => before (f a) (f b)) l) = sort before (map f l).
Proof.
  unfold sort. induction l as [|x l IH]; simpl; [reflexivity|].
  now rewrite insert_map, IH.
Qed.

Lemma Forall2_of_pairs {A B : Type} (R : A -> B -> Prop) (l : list (A * B)) :
  (forall a b, In (a, b) l -> R a b) -> Forall2 R (map fst l) (map snd l).
Proof.
  induction l as [|[a b] l IH]; intros H; simpl; constructor.
  - apply H. now left.
  - apply IH. intros a' b' Hin. apply H. now right.
Qed.

(** The groups of the Contractor Summary: the ids of the rows, in the order
    of the rows. *)
Lemma contractorSummary_groups (bills : list SavedBill.t) :
  exists ids,
    NoDup ids
    /\ (forall cid, In cid ids <-> cid <> 0 /\ billsOfContractor cid bills <> [])
    /\ Forall2 (fun cid row =>
                  ContractorGroup.totalBills row =
                    Z.of_nat (List.length (billsOfContractor cid bills))
                  /\ ContractorGroup.netAmount row =
                       Num.sum (map SavedBill.netAmount (billsOfContractor cid bills)))
               ids (contractorSummary bills).
Proof.
  set (M := fold_left contractorStep bills []).
  set (before := fun a b : ContractorGroup.t =>
                   Qle_bool (ContractorGroup.netAmount b) (ContractorGroup.netAmount a)).
  set (L := sort (fun a b : Z * ContractorGroup.t => before (snd a) (snd b)) M).
  assert (Hperm : Permutation M L) by apply sort_perm.
  assert (Hnd : NoDup (map fst M)).
  { unfold M. rewrite contractorMap_group.
    apply (groupFold_keys_NoDup Z.eqb Zeqb_eq). constructor. }
  exists (map fst L). split; [|split].
  - eapply Permutation_NoDup; [apply Permutation_map, Hperm | exact Hnd].
  - intros cid.
    assert (Hkeys : In cid (map fst L) <-> map_has Z.eqb cid M = true).
    { rewrite (map_has_keys Z.eqb Zeqb_eq). split; apply Permutation_in.
      - apply Permutation_map, Permutation_sym, Hperm.
      - apply Permutation_map, Hperm. }
    rewrite Hkeys, map_has_get. split.
    + destruct (map_get Z.eqb cid M) as [row|] eqn:Hget; [|discriminate]. intros _.
      destruct (contractorMap_entry bills cid row Hget) as (first & Hn & Hhd & _).
      split; [exact Hn|]. intros E. rewrite E in Hhd. discriminate.
    + intros [Hn Hne].
      pose proof (groupFold_label Z.eqb Zeqb_eq contractorKey contractorInit
                    ContractorGroup.add (fun _ => tt) (fun _ _ => eq_refl)
                    cid bills []) as Hlab.
      rewrite <- contractorMap_group in Hlab. fold M in Hlab. simpl in Hlab.
      assert (Hsame : filter (keyIs Z.eqb contractorKey cid) bills =
                      billsOfContractor cid bills).
      { apply filter_same. intros b. rewrite contractorKey_is.
        apply Z.eqb_neq in Hn. now rewrite Hn. }
      rewrite Hsame in Hlab.
      destruct (map_get Z.eqb cid M); [reflexivity|].
      destruct (billsOfContractor cid bills); [congruence | discriminate].
  - assert (Hrows : contractorSummary bills = map snd L).
    { unfold contractorSummary, L, map_values. fold M. fold before.
      symmetry. apply (sort_map snd before). }
    rewrite Hrows. apply Forall2_of_pairs. intros cid row Hin.
    apply (Permutation_in _ (Permutation_sym Hperm)) in Hin.
    apply (map_get_of_entry Z.eqb Zeqb_eq _ _ _ Hnd) in Hin.
    destruct (contractorMap_entry bills cid row Hin)
      as (first & _ & _ & _ & Hc & _ & _ & Hnet).
    now split.
Qed.

(** The groups of the Monthly Summary. *)
Lemma monthlySummary_groups (bills : list SavedBill.t) :
  NoDup (map MonthGroup.month (monthlySummary bills))
  /\ (forall month, In month (map MonthGroup.month (monthlySummary bills)) <->
                    billsOfMonth month bills <> [])
  /\ (forall row, In row (monthlySummary bills) ->
        MonthGroup.totalBills row =
          Z.of_nat (List.length (billsOfMonth (MonthGroup.month row) bills))
        /\ MonthGroup.netAmount row =
             Num.sum (map SavedBill.netAmount (billsOfMonth (MonthGroup.month row) bills))).
Proof.
  set (M := fold_left monthlyStep bills []).
  assert (Hperm : Permutation (map fst M) (map MonthGroup.month (monthlySummary bills))).
  { unfold M. rewrite <- monthlyMap_months. unfold monthlySummary.
    apply Permutation_map, sort_perm. }
  split; [|split].
  - eapply Permutation_NoDup; [exact Hperm | apply monthlyMap_keys_NoDup].
  - intros month.
    assert (Hkeys : In month (map MonthGroup.month (monthlySummary bills)) <->
                    map_has String.eqb month M = true).
    { rewrite (map_has_keys String.eqb String.eqb_eq). split; apply Permutation_in.
      - apply Permutation_sym, Hperm.
      - apply Hperm. }
    rewrite Hkeys, map_has_get. split.
    + destruct (map_get String.eqb month M) as [row|] eqn:Hget; [|discriminate].
      intros _. now destruct (monthlyMap_entry bills month row Hget) as (_ & Hne & _).
    + intros Hne.
      pose proof (groupFold_label String.eqb String.eqb_eq monthKey monthInit
                    MonthGroup.add (fun _ => tt) (fun _ _ => eq_refl)
                    month bills []) as Hlab.
      rewrite <- monthlyMap_group in Hlab. fold M in Hlab.
      rewrite monthKey_is in Hlab. simpl in Hlab.
      destruct (map_get String.eqb month M); [reflexivity|].
      destruct (billsOfMonth month bills); [congruence | discriminate].
  - intros row Hin. unfold monthlySummary in Hin.
    apply (Permutation_in _ (Permutation_sym (sort_perm _ _))) in Hin.
    destruct (value_has_key String.eqb String.eqb_eq row _
                (monthlyMap_keys_NoDup bills) Hin) as [k Hget].
    destruct (monthlyMap_entry bills k row Hget) as (Hm & _ & Hc & _ & _ & Hnet).
    subst k. now split.
Qed.

(** C1, as amended.  For every list of bill records and every filter
    state, with the filtered subset in its order.  No record is lost or
    counted twice: the rows of the Contractor Summary stand, one each, for
    the contractor ids other than 0 that a bill of the subset has, the row
    of an id counts the bills of the subset with that id, and the counts of
    the rows add up to the number of bills of the subset that have a
    contractor id other than 0 (a bill without one is skipped by the
    builder); the rows of the Monthly Summary stand, one each, for the
    months that a bill of the subset has, the row of a month counts the
    bills of that month, and the counts add up to the number of bills of
    the subset.  The [netAmount] of a row is the sum of the [netAmount] of
    its bills, added in the order of the subset, and the [total] of the
    Deduction-Category Summary is the sum of the [totalDeductions] of the
    bills of the subset, added in that order. *)
Theorem summary_conservation (savedBills : list SavedBill.t)
    (contracts : list Contract.t) (f : FilterState) :
  let subset := filteredBills savedBills contracts f in
  (exists ids,
      NoDup ids
      /\ (forall cid, In cid ids <-> cid <> 0 /\ billsOfContractor cid subset <> [])
      /\ Forall2 (fun cid row =>
                    ContractorGroup.totalBills row =
                      Z.of_nat (List.length (billsOfContractor cid subset))
                    /\ ContractorGroup.netAmount row =
                         Num.sum (map SavedBill.netAmount (billsOfContractor cid subset)))
                 ids (contractorSummary subset))
  /\ zsum (map ContractorGroup.totalBills (contractorSummary subset)) =
       Z.of_nat (List.length (filter attributed subset))
  /\ NoDup (map MonthGroup.month (monthlySummary subset))
  /\ (forall month, In month (map MonthGroup.month (monthlySummary subset)) <->
                    billsOfMonth month subset <> [])
  /\ (forall row, In row (monthlySummary subset) ->
        MonthGroup.totalBills row =
          Z.of_nat (List.length (billsOfMonth (MonthGroup.month row) subset))
        /\ MonthGroup.netAmount row =
             Num.sum (map SavedBill.netAmount
                          (billsOfMonth (MonthGroup.month row) subset)))
  /\ zsum (map MonthGroup.totalBills (monthlySummary subset)) =
       Z.of_nat (List.length subset)
  /\ DeductionsSummary.total (deductionsSummary subset) =
       Num.sum (map SavedBill.totalDeductions subset).
Proof.
  intros subset.
  destruct (monthlySummary_groups subset) as (Hnd & Hmonths & Hrows).
  split; [apply contractorSummary_groups|].
  split; [apply contractorSummary_count|].
  split; [exact Hnd|]. split; [exact Hmonths|]. split; [exact Hrows|].
  split; [apply monthlySummary_count | apply deductionsSummary_total].
Qed.

(** C1, as stated, fails, in two ways.  A bill without contractor id
    passes the filter and is in no group of the Contractor Summary, whose
    [netAmount] then adds up to 0 and not to the 900 of the subset.  And on
    the doubles of the program the additions round: for bills of 0.1, 0.2
    and 0.3, the first of another month and of another contractor than the
    other two, the rows hold 0.1 and 0.5 and add up to 0.6, while the
    subset adds up to the next double above 0.6. *)
Lemma summary_conservation_fails :
  (let subset := filteredBills [bill_unattributed] [] noFilter in
   subset = [bill_unattributed]
   /\ contractorSummary subset = []
   /\ Num.sum (map ContractorGroup.netAmount (contractorSummary subset)) <>
      Num.sum (map SavedBill.netAmount subset))
  /\ (let subset := Double.three_bills in
      Double.monthlyNet subset =
        [("2024-02"%string, (1 / 10)%float); ("2024-01"%string, (5 / 10)%float)]
      /\ Double.contractorNet subset = [(8, (5 / 10)%float); (7, (1 / 10)%float)]
      /\ PrimFloat.eqb (Double.sum (map snd (Double.monthlyNet subset)))
                       (Double.sum (map Double.netAmount subset)) = false
      /\ PrimFloat.eqb (Double.sum (map snd (Double.contractorNet subset)))
                       (Double.sum (map Double.netAmount subset)) = false
      /\ PrimFloat.ltb (Double.sum (map snd (Double.monthlyNet subset)))
                       (Double.sum (map Double.netAmount subset)) = true).
Proof.
  split.
  - vm_compute. repeat split; discriminate.
  - repeat split; reflexivity.
Qed.

(** The sum under a key after a grouping pass, in the order of the pass;
    nothing is asked of the addition. *)
Section GroupOrder.

Context {B K V M : Type}.
Variable eqb : K -> K -> bool.
Hypothesis eqb_eq : forall a b, eqb a b = true <-> a = b.
Variable keyOf : B -> option K.
Variable init : B -> V.
Variable add : B -> V -> V.
Variable op : M -> M -> M.
Variable e : M.
Variable q : V -> M.
Variable d : B -> M.
Hypothesis q_init : forall b, q (init b) = e.
Hypothesis q_add : forall b v, q (add b v) = op (q v) (d b).

Lemma groupFold_in_order (k : K) (l : list B) (m : list (K * V)) :
  valueAt eqb q e k (fold_left (groupStep eqb keyOf init add) l m) =
  fold_left op (map d (filter (keyIs eqb keyOf k) l)) (valueAt eqb q e k m).
Proof.
  revert m. induction l as [|b l IH]; intros m; [reflexivity|].
  cbn [fold_left filter]. rewrite IH.
  assert (Hstep : valueAt eqb q e k (groupStep eqb keyOf init add m b) =
                  if keyIs eqb keyOf k b then op (valueAt eqb q e k m) (d b)
                  else valueAt eqb q e k m).
  { unfold valueAt. rewrite (groupStep_get eqb eqb_eq).
    destruct (keyIs eqb keyOf k b); [|reflexivity].
    rewrite q_add. f_equal.
    destruct (map_get eqb k m); [reflexivity | apply q_init]. }
  rewrite Hstep. destruct (keyIs eqb keyOf k b); reflexivity.
Qed.

End GroupOrder.

(** On doubles too, the [netAmount] of a row of the Monthly Summary and of
    the Contractor Summary is the sum of the [netAmount] of its bills, added
    in the order of the subset. *)
Lemma double_rows_in_order (bills : list Double.bill) :
  (forall month x, In (month, x) (Double.monthlyNet bills) ->
     x = Double.sum
           (map Double.netAmount
                (filter (fun b => String.eqb (substring 0 7 (Double.bill_date b)) month)
                        bills)))
  /\ (forall cid x, In (cid, x) (Double.contractorNet bills) ->
        cid <> 0
        /\ x = Double.sum
                 (map Double.netAmount
                      (filter (fun b => id_is (Double.contractor_id b) cid) bills))).
Proof.
  split.
  - intros month x Hin. unfold Double.monthlyNet in Hin.
    apply (Permutation_in _ (Permutation_sym (sort_perm _ _))) in Hin.
    set (keyOf := fun b : Double.bill => Some (substring 0 7 (Double.bill_date b))).
    set (add := fun (b : Double.bill) (current : float) =>
                  PrimFloat.add current (Double.netAmount b)).
    change (In (month, x)
              (fold_left (groupStep String.eqb keyOf (fun _ => 0%float) add) bills []))
      in Hin.
    apply (map_get_of_entry String.eqb String.eqb_eq) in Hin;
      [|apply (groupFold_keys_NoDup String.eqb String.eqb_eq); constructor].
    pose proof (groupFold_in_order String.eqb String.eqb_eq keyOf (fun _ => 0%float) add
                  PrimFloat.add 0%float (fun v => v) Double.netAmount
                  (fun _ => eq_refl) (fun _ _ => eq_refl) month bills []) as H.
    unfold valueAt in H. rewrite Hin in H. exact H.
  - intros cid x Hin. unfold Double.contractorNet in Hin.
    apply (Permutation_in _ (Permutation_sym (sort_perm _ _))) in Hin.
    set (keyOf := fun b : Double.bill =>
                    match Double.contractor_id b with
                    | None => None
                    | Some c => if c =? 0 then None else Some c
                    end).
    set (add := fun (b : Double.bill) (current : float) =>
                  PrimFloat.add current (Double.netAmount b)).
    assert (Hfold :
              fold_left (fun summaryMap b =>
                           match Double.contractor_id b with
                           | None => summaryMap
                           | Some c =>
                               if c =? 0 then summaryMap
                               else map_upsert Z.eqb c 0%float
                                      (fun current =>
                                         PrimFloat.add current (Double.netAmount b))
                                      summaryMap
                           end) bills [] =
              fold_left (groupStep Z.eqb keyOf (fun _ => 0%float) add) bills []).
    { apply fold_left_same. intros m b. unfold groupStep, keyOf.
      destruct (Double.contractor_id b) as [c|]; [|reflexivity].
      destruct (c =? 0); reflexivity. }
    rewrite Hfold in Hin.
    pose proof (groupFold_label Z.eqb Zeqb_eq keyOf (fun _ => 0%float) add
                  (fun _ => tt) (fun _ _ => eq_refl) cid bills []) as Hlab.
    apply (map_get_of_entry Z.eqb Zeqb_eq) in Hin;
      [|apply (groupFold_keys_NoDup Z.eqb Zeqb_eq); constructor].
    rewrite Hin in Hlab. simpl in Hlab.
    destruct (filter (keyIs Z.eqb keyOf cid) bills) as [|first rest] eqn:Hfil;
      [discriminate|].
    assert (Hn : cid <> 0).
    { assert (Hf : In first (filter (keyIs Z.eqb keyOf cid) bills))
        by (rewrite Hfil; now left).
      apply filter_In in Hf as [_ Hk]. unfold keyIs, keyOf in Hk.
      destruct (Double.contractor_id first) as [c|]; [|discriminate].
      destruct (Z.eqb_spec c 0); [discriminate|].
      apply Z.eqb_eq in Hk. now subst c. }
    split; [exact Hn|].
    pose proof (groupFold_in_order Z.eqb Zeqb_eq keyOf (fun _ => 0%float) add
                  PrimFloat.add 0%float (fun v => v) Double.netAmount
                  (fun _ => eq_refl) (fun _ _ => eq_refl) cid bills []) as H.
    unfold valueAt in H. rewrite Hin in H. simpl in H. rewrite H.
    unfold Double.sum. f_equal. f_equal. apply filter_same. intros b.
    unfold keyIs, keyOf, id_is.
    destruct (Double.contractor_id b) as [c|]; [|reflexivity].
    destruct (Z.eqb_spec c 0) as [->|]; [|reflexivity].
    symmetry. apply Z.eqb_neq. intros E. apply Hn. now symmetry.
Qed.
